(** * EpiStratify: workflow state machine and business-rule evaluators

    A shallow embedding of the service layer of the EpiStratify backend
    (backend/app/services) together with the properties stated about it.

    Conventions of the embedding:
    - Python [float] and [int] values are embedded as exact rationals [Q];
      rounding helpers ([int()], [round()], fixed-point formatting) are
      written out on rationals, and NaN and infinities are not represented
      there.  Properties stated on rationals are properties of the
      arithmetic the code intends, up to the rounding of binary64.
    - Where the result depends on that rounding (the combined effectiveness
      stated to the last digit, the cumulative cost compared with the budget
      and the ranking of the optimizer) the code is embedded on IEEE 754
      doubles, the primitive floats of [PrimFloat], in [ForecastBinary64]
      and [CostingBinary64].
    - A service method that raises [ValueError] returns [ValueError msg]
      (and [KeyError key] for a failed subscript); the request handler rolls
      the session back in that case (core/dependencies.py, [get_db]), so no
      store accompanies an error.
    - The SQL store is restricted to the rows of the project (or scenario)
      the call is about; ORM objects are rows of that store, and an
      attribute assignment is an update of the row. *)

From Stdlib Require Import QArith Qround Qabs Qminmax Lqa.
From Corelib Require PrimFloat.
From Stdlib Require Floats OrderedTypeEx.
From stdpp Require Import gmap strings list fin_maps sorting pretty.

(** ** Python runtime helpers *)

Module Py.

(** [", ".join(l)] *)
Fixpoint join (sep : string) (l : list string) : string :=
  match l with
  | [] => ""
  | [x] => x
  | x :: rest => x +:+ sep +:+ join sep rest
  end.

(** Round half to even, the rounding of [round] and of [format]. *)
Definition round_half_even (q : Q) : Z :=
  let f := Qfloor q in
  let r := (q - inject_Z f)%Q in
  match (r ?= 1 # 2)%Q with
  | Lt => f
  | Gt => (f + 1)%Z
  | Eq => if Z.even f then f else (f + 1)%Z
  end.

(** [int(x)]: truncation towards zero. *)
Definition int (q : Q) : Z := Z.quot (Qnum q) (Z.pos (Qden q)).

Definition pow10 (nd : nat) : Z := (10 ^ Z.of_nat nd)%Z.

(** [round(x, nd)] *)
Definition round (q : Q) (nd : nat) : Q :=
  (inject_Z (round_half_even (q * inject_Z (pow10 nd))) / inject_Z (pow10 nd))%Q.

Fixpoint pad_left (n : nat) (s : string) : string :=
  match n with
  | O => s
  | S n' => if decide (String.length s < S n')%nat then pad_left n' ("0" +:+ s) else s
  end.

(** [f"{x:.{nd}f}"] *)
Definition format_f (nd : nat) (q : Q) : string :=
  let scaled := round_half_even (Qabs q * inject_Z (pow10 nd)) in
  let ip := (scaled / pow10 nd)%Z in
  let fp := (scaled mod pow10 nd)%Z in
  let sign := if Qlt_le_dec q 0 then "-" else "" in
  match nd with
  | O => sign +:+ pretty ip
  | _ => sign +:+ pretty ip +:+ "." +:+ pad_left nd (pretty fp)
  end.

(** [f"{x:.{nd}%}"] *)
Definition format_pct (nd : nat) (q : Q) : string :=
  format_f nd (q * 100) +:+ "%".

Definition Qltb (a b : Q) : bool := negb (Qle_bool b a).

End Py.

(** ** The unit of work: a state and error monad over a store *)

Module Session.

Inductive result (S A : Type) : Type :=
| Ok (a : A) (s : S)
| ValueError (msg : string)
| KeyError (key : string).
Arguments Ok {S A} a s.
Arguments ValueError {S A} msg.
Arguments KeyError {S A} key.

Definition M (S A : Type) : Type := S -> result S A.

Definition ret {S A} (a : A) : M S A := fun s => Ok a s.

Definition bind {S A B} (m : M S A) (k : A -> M S B) : M S B :=
  fun s => match m s with
           | Ok a s' => k a s'
           | ValueError msg => ValueError msg
           | KeyError key => KeyError key
           end.

Definition raise {S A} (msg : string) : M S A := fun _ => ValueError msg.

Definition gets {S A} (f : S -> A) : M S A := fun s => Ok (f s) s.

Definition modify {S} (f : S -> S) : M S unit := fun s => Ok tt (f s).

(** [for x in l: body(x)] *)
Fixpoint for_each {S A} (l : list A) (body : A -> M S unit) : M S unit :=
  match l with
  | [] => ret tt
  | x :: rest => bind (body x) (fun _ => for_each rest body)
  end.

Definition when {S} (b : bool) (m : M S unit) : M S unit :=
  if b then m else ret tt.

End Session.

Notation "'let*' x ':=' c 'in' k" := (Session.bind c (fun x => k))
  (at level 10, x pattern, c at level 100, k at level 200).
Notation "c ';;' k" := (Session.bind c (fun _ => k))
  (at level 100, k at level 200, right associativity).

(** ** core/enums.py *)

Module Enums.

Inductive WorkflowStep : Set :=
| PLANNING_PREPAREDNESS
| DATA_ASSEMBLY
| SITUATION_ANALYSIS
| STRATIFICATION
| INTERVENTION_TAILORING
| IMPACT_FORECASTING
| SCENARIO_SELECTION
| RESOURCE_OPTIMIZATION
| SERVICE_DELIVERY
| MONITORING_EVALUATION.

(** [step.value] *)
Definition step_value (s : WorkflowStep) : string :=
  match s with
  | PLANNING_PREPAREDNESS => "planning_preparedness"
  | DATA_ASSEMBLY => "data_assembly"
  | SITUATION_ANALYSIS => "situation_analysis"
  | STRATIFICATION => "stratification"
  | INTERVENTION_TAILORING => "intervention_tailoring"
  | IMPACT_FORECASTING => "impact_forecasting"
  | SCENARIO_SELECTION => "scenario_selection"
  | RESOURCE_OPTIMIZATION => "resource_optimization"
  | SERVICE_DELIVERY => "service_delivery"
  | MONITORING_EVALUATION => "monitoring_evaluation"
  end.

(** [list(WorkflowStep)]: definition order. *)
Definition WORKFLOW_STEP_ORDER : list WorkflowStep :=
  [ PLANNING_PREPAREDNESS; DATA_ASSEMBLY; SITUATION_ANALYSIS; STRATIFICATION;
    INTERVENTION_TAILORING; IMPACT_FORECASTING; SCENARIO_SELECTION;
    RESOURCE_OPTIMIZATION; SERVICE_DELIVERY; MONITORING_EVALUATION ].

Definition WORKFLOW_STEP_LABELS (s : WorkflowStep) : string :=
  match s with
  | PLANNING_PREPAREDNESS => "Planning and Preparedness"
  | DATA_ASSEMBLY => "Data Assembly and Management"
  | SITUATION_ANALYSIS => "Situation Analysis"
  | STRATIFICATION => "Stratification"
  | INTERVENTION_TAILORING => "Intervention Tailoring"
  | IMPACT_FORECASTING => "Impact Forecasting"
  | SCENARIO_SELECTION => "Strategic Scenario Selection"
  | RESOURCE_OPTIMIZATION => "Resource Optimization"
  | SERVICE_DELIVERY => "Service Delivery"
  | MONITORING_EVALUATION => "Monitoring and Evaluation"
  end.

Inductive StepStatus : Set := NOT_STARTED | IN_PROGRESS | COMPLETED | BLOCKED.

Inductive PrerequisiteType : Set := BLOCKING | NON_BLOCKING.

Inductive RiskLevel : Set := VERY_LOW | LOW | MODERATE | HIGH.

Definition risk_level_value (r : RiskLevel) : string :=
  match r with
  | VERY_LOW => "very_low"
  | LOW => "low"
  | MODERATE => "moderate"
  | HIGH => "high"
  end.

(** [RiskLevel(name)]; [None] stands for the [ValueError] of the enum. *)
Definition RiskLevel_of (name : string) : option RiskLevel :=
  if decide (name = "very_low") then Some VERY_LOW
  else if decide (name = "low") then Some LOW
  else if decide (name = "moderate") then Some MODERATE
  else if decide (name = "high") then Some HIGH
  else None.

Inductive StratificationMetric : Set := PFPR | INCIDENCE | EIR.

Inductive QualityCheckType : Set :=
| COMPLETENESS | CONSISTENCY | TIMELINESS | OUTLIERS | DISAGGREGATION | DUPLICATES.

Definition check_type_value (c : QualityCheckType) : string :=
  match c with
  | COMPLETENESS => "completeness"
  | CONSISTENCY => "consistency"
  | TIMELINESS => "timeliness"
  | OUTLIERS => "outliers"
  | DISAGGREGATION => "disaggregation"
  | DUPLICATES => "duplicates"
  end.

Inductive QualityCheckStatus : Set :=
| QC_PENDING | QC_RUNNING | QC_PASSED | QC_WARNING | QC_FAILED.

Inductive ForecastStatus : Set := F_PENDING | F_RUNNING | F_COMPLETED | F_FAILED.

Global Instance WorkflowStep_eq_dec : EqDecision WorkflowStep.
Proof. solve_decision. Defined.
Global Instance StepStatus_eq_dec : EqDecision StepStatus.
Proof. solve_decision. Defined.
Global Instance PrerequisiteType_eq_dec : EqDecision PrerequisiteType.
Proof. solve_decision. Defined.
Global Instance RiskLevel_eq_dec : EqDecision RiskLevel.
Proof. solve_decision. Defined.

Definition step_index (s : WorkflowStep) : nat :=
  match s with
  | PLANNING_PREPAREDNESS => 0
  | DATA_ASSEMBLY => 1
  | SITUATION_ANALYSIS => 2
  | STRATIFICATION => 3
  | INTERVENTION_TAILORING => 4
  | IMPACT_FORECASTING => 5
  | SCENARIO_SELECTION => 6
  | RESOURCE_OPTIMIZATION => 7
  | SERVICE_DELIVERY => 8
  | MONITORING_EVALUATION => 9
  end.

Global Program Instance WorkflowStep_countable : Countable WorkflowStep :=
  inj_countable step_index (fun n => WORKFLOW_STEP_ORDER !! n) _.
Next Obligation. by intros []. Qed.

End Enums.

(** ** JSON payloads (JSONB columns) *)

Module Json.

#[local] Set Warnings "-register-all".

Inductive json : Type :=
| JNull
| JBool (b : bool)
| JNum (q : Q)
| JStr (s : string)
| JArr (l : list json)
| JObj (l : list (string * json)).

(** Python truthiness of a decoded JSON value. *)
Definition truthy (j : json) : bool :=
  match j with
  | JNull => false
  | JBool b => b
  | JNum q => negb (Qeq_bool q 0)
  | JStr s => negb (bool_decide (s = ""))
  | JArr l => negb (bool_decide (l = []))
  | JObj l => match l with [] => false | _ => true end
  end.

(** [bool(d.get(key))] *)
Definition get_truthy (d : gmap string json) (key : string) : bool :=
  match d !! key with
  | Some j => truthy j
  | None => false
  end.

End Json.

(** ** services/workflow_service.py *)

Module WorkflowService.
Import Session Enums Json.

(** *** models/workflow.py and the tables the validators read *)

Record WorkflowState : Type := mkWorkflowState {
  status : StepStatus;
  completion_percentage : Q;
  notes : option string;
  data : option (gmap string json);
  validation_errors : option (list string * list string);
  completed_at : option Z;
  completed_by : option N;
}.

Record DataSource : Type := mkDataSource {
  ds_name : string;
  source_type : string;
  quality_score : option Q;
}.

Record StratificationConfig : Type := mkStratificationConfig {
  cfg_id : N;
  cfg_name : string;
  is_active : bool;
}.

Record StratificationResult : Type := mkStratificationResult {
  config_id : N;
}.

(** The rows that belong to one project. *)
Record Db : Type := mkDb {
  workflow_states : gmap WorkflowStep WorkflowState;
  data_sources : list DataSource;
  strat_configs : list StratificationConfig;
  strat_results : list StratificationResult;
}.

Definition set_states (f : gmap WorkflowStep WorkflowState -> gmap WorkflowStep WorkflowState)
    (db : Db) : Db :=
  mkDb (f (workflow_states db)) (data_sources db) (strat_configs db) (strat_results db).

(** Attribute assignments on a [WorkflowState] row. *)
Definition with_status (v : StepStatus) (st : WorkflowState) : WorkflowState :=
  mkWorkflowState v (completion_percentage st) (notes st) (data st)
    (validation_errors st) (completed_at st) (completed_by st).
Definition with_completion_percentage (v : Q) (st : WorkflowState) : WorkflowState :=
  mkWorkflowState (status st) v (notes st) (data st)
    (validation_errors st) (completed_at st) (completed_by st).
Definition with_notes (v : option string) (st : WorkflowState) : WorkflowState :=
  mkWorkflowState (status st) (completion_percentage st) v (data st)
    (validation_errors st) (completed_at st) (completed_by st).
Definition with_data (v : option (gmap string json)) (st : WorkflowState) : WorkflowState :=
  mkWorkflowState (status st) (completion_percentage st) (notes st) v
    (validation_errors st) (completed_at st) (completed_by st).
Definition with_validation_errors (v : option (list string * list string))
    (st : WorkflowState) : WorkflowState :=
  mkWorkflowState (status st) (completion_percentage st) (notes st) (data st)
    v (completed_at st) (completed_by st).
Definition with_completed_at (v : option Z) (st : WorkflowState) : WorkflowState :=
  mkWorkflowState (status st) (completion_percentage st) (notes st) (data st)
    (validation_errors st) v (completed_by st).
Definition with_completed_by (v : option N) (st : WorkflowState) : WorkflowState :=
  mkWorkflowState (status st) (completion_percentage st) (notes st) (data st)
    (validation_errors st) (completed_at st) v.

(** *** schemas/workflow.py *)

Record StepStatusResponse : Type := mkStepStatusResponse {
  r_step : WorkflowStep;
  r_label : string;
  r_status : StepStatus;
  r_completion_percentage : Q;
  r_is_accessible : bool;
  r_blocking_prerequisites : list string;
  r_non_blocking_prerequisites : list string;
  r_notes : option string;
  r_completed_at : option Z;
  r_data : option (gmap string json);
  r_validation_errors : option (list string * list string);
}.

Record WorkflowStateResponse : Type := mkWorkflowStateResponse {
  steps : list StepStatusResponse;
  overall_progress : Q;
  current_step : option WorkflowStep;
}.

Record StepValidationResponse : Type := mkStepValidationResponse {
  v_step : WorkflowStep;
  is_valid : bool;
  errors : list string;
  warnings : list string;
}.

Record StepUpdateRequest : Type := mkStepUpdateRequest {
  u_notes : option string;
  u_completion_percentage : option Q;
  u_data : option (gmap string json);
}.

(** *** Prerequisite graph: step -> list of (prerequisite_step, type) *)

Definition PREREQUISITES (s : WorkflowStep) : list (WorkflowStep * PrerequisiteType) :=
  match s with
  | PLANNING_PREPAREDNESS => []
  | DATA_ASSEMBLY => [(PLANNING_PREPAREDNESS, BLOCKING)]
  | SITUATION_ANALYSIS => [(DATA_ASSEMBLY, BLOCKING)]
  | STRATIFICATION => [(SITUATION_ANALYSIS, BLOCKING)]
  | INTERVENTION_TAILORING => [(STRATIFICATION, BLOCKING)]
  | IMPACT_FORECASTING => [(INTERVENTION_TAILORING, BLOCKING)]
  | SCENARIO_SELECTION => [(IMPACT_FORECASTING, BLOCKING)]
  | RESOURCE_OPTIMIZATION => [(SCENARIO_SELECTION, BLOCKING)]
  | SERVICE_DELIVERY => [(RESOURCE_OPTIMIZATION, BLOCKING)]
  | MONITORING_EVALUATION => [(SERVICE_DELIVERY, NON_BLOCKING)]
  end.

(** *** Private helpers *)

Definition _get_all_states : M Db (gmap WorkflowStep WorkflowState) :=
  gets workflow_states.

Definition _get_state (step : WorkflowStep) : M Db WorkflowState :=
  let* states := gets workflow_states in
  match states !! step with
  | Some state => ret state
  | None => raise ("Workflow state for step " +:+ step_value step +:+ " not found")
  end.

(** Writing an attribute of the row of [step]. *)
Definition update_state (step : WorkflowStep) (f : WorkflowState -> WorkflowState)
    : M Db unit :=
  modify (set_states (alter f step)).

Definition _get_prerequisite_status (step : WorkflowStep)
    (state_map : gmap WorkflowStep WorkflowState) : list string * list string :=
  fold_left
    (fun (acc : list string * list string) (prereq : WorkflowStep * PrerequisiteType) =>
       let '(blocking, non_blocking) := acc in
       let '(prereq_step, prereq_type) := prereq in
       let incomplete :=
         match state_map !! prereq_step with
         | None => true
         | Some prereq_state => negb (bool_decide (status prereq_state = COMPLETED))
         end in
       if incomplete then
         let label := WORKFLOW_STEP_LABELS prereq_step in
         if bool_decide (prereq_type = BLOCKING)
         then (blocking ++ [label], non_blocking)
         else (blocking, non_blocking ++ [label])
       else (blocking, non_blocking))
    (PREREQUISITES step) ([], []).

(** *** Operations *)

Definition initialize_workflow : M Db unit :=
  for_each WORKFLOW_STEP_ORDER (fun step =>
    modify (set_states (fun m =>
      <[step := mkWorkflowState NOT_STARTED 0 None None None None None]> m))).

(** Get full workflow state with accessibility info. *)
Definition get_workflow_state : M Db WorkflowStateResponse :=
  let* state_map := _get_all_states in
  let '(steps, completed_count, current_step) :=
    fold_left
      (fun (acc : list StepStatusResponse * nat * option WorkflowStep)
           (step : WorkflowStep) =>
         let '(steps, completed_count, current_step) := acc in
         match state_map !! step with
         | None => acc
         | Some state =>
             let '(blocking, non_blocking) :=
               _get_prerequisite_status step state_map in
             let is_accessible := bool_decide (length blocking = 0%nat) in
             let '(completed_count, current_step) :=
               if bool_decide (status state = COMPLETED)
               then (S completed_count, current_step)
               else if bool_decide (current_step = None) && is_accessible
                    then (completed_count, Some step)
                    else (completed_count, current_step) in
             (steps ++ [mkStepStatusResponse step (WORKFLOW_STEP_LABELS step)
                          (status state) (completion_percentage state)
                          is_accessible blocking non_blocking (notes state)
                          (completed_at state) (data state)
                          (validation_errors state)],
              completed_count, current_step)
         end)
      WORKFLOW_STEP_ORDER ([], 0%nat, None) in
  let overall_progress :=
    (inject_Z (Z.of_nat completed_count)
       / inject_Z (Z.of_nat (length WORKFLOW_STEP_ORDER)) * 100)%Q in
  ret (mkWorkflowStateResponse steps overall_progress current_step).

Definition get_step (step : WorkflowStep) : M Db StepStatusResponse :=
  let* state_map := _get_all_states in
  match state_map !! step with
  | None => raise ("Step " +:+ step_value step +:+ " not found")
  | Some state =>
      let '(blocking, non_blocking) := _get_prerequisite_status step state_map in
      ret (mkStepStatusResponse step (WORKFLOW_STEP_LABELS step) (status state)
             (completion_percentage state)
             (bool_decide (length blocking = 0%nat))
             blocking non_blocking (notes state) (completed_at state)
             (data state) (validation_errors state))
  end.

Definition update_step (step : WorkflowStep) (req : StepUpdateRequest)
    : M Db StepStatusResponse :=
  let* state := _get_state step in
  when (bool_decide (status state = NOT_STARTED))
       (update_state step (with_status IN_PROGRESS)) ;;
  match u_notes req with
  | Some n => update_state step (with_notes (Some n))
  | None => ret tt
  end ;;
  match u_completion_percentage req with
  | Some pct => update_state step (with_completion_percentage pct)
  | None => ret tt
  end ;;
  match u_data req with
  | Some d => update_state step (with_data (Some d))
  | None => ret tt
  end ;;
  get_step step.

(** *** Step validators: each returns (errors, warnings) *)

Section Validators.

(** The order in which Python iterates over a [set] of strings (it
    depends on the string hashes of the interpreter run). *)
Variable set_iteration : gset string -> list string.

Definition _validate_planning (step : WorkflowStep)
    : M Db (list string * list string) :=
  let* state := _get_state step in
  let d := default ∅ (data state) in
  let errors := [] in
  let warnings := [] in
  let errors := if negb (get_truthy d "scope_of_work")
                then errors ++ ["Scope of work not documented"] else errors in
  let errors := if negb (get_truthy d "operational_unit")
                then errors ++ ["Operational unit (district/region) not defined"]
                else errors in
  let warnings := if negb (get_truthy d "timeline")
                  then warnings ++ ["Timeline not yet created"] else warnings in
  ret (errors, warnings).

Definition _validate_data_assembly (step : WorkflowStep)
    : M Db (list string * list string) :=
  let* sources := gets data_sources in
  if bool_decide (length sources = 0%nat)
  then ret (["No data sources uploaded"], [])
  else
    let source_types : gset string := list_to_set (source_type <$> sources) in
    let required_types : gset string := {[ "epidemiological"; "demographic" ]} in
    let missing := required_types ∖ source_types in
    let errors :=
      if bool_decide (missing ≠ ∅)
      then ["Missing required data types: " +:+ Py.join ", " (set_iteration missing)]
      else [] in
    let warnings :=
      fold_left
        (fun (warnings : list string) (ds : DataSource) =>
           match quality_score ds with
           | Some score =>
               if Py.Qltb score (1 # 2)
               then warnings ++ ["Low quality score for '" +:+ ds_name ds +:+ "': "
                                   +:+ Py.format_pct 0 score]
               else warnings
           | None => warnings
           end)
        sources [] in
    ret (errors, warnings).

Definition _validate_situation_analysis (step : WorkflowStep)
    : M Db (list string * list string) :=
  let* state := _get_state step in
  let d := default ∅ (data state) in
  let errors := if negb (get_truthy d "analysis_completed")
                then ["Situation analysis not marked as completed"] else [] in
  ret (errors, []).

Definition _validate_stratification (step : WorkflowStep)
    : M Db (list string * list string) :=
  let* all_configs := gets strat_configs in
  let* all_results := gets strat_results in
  let configs := filter (fun c => is_active c = true) all_configs in
  if bool_decide (length configs = 0%nat)
  then ret (["No active stratification configuration"], [])
  else
    let errors :=
      fold_left
        (fun (errors : list string) (config : StratificationConfig) =>
           let results := filter (fun r => config_id r = cfg_id config) all_results in
           if bool_decide (length results = 0%nat)
           then errors ++ ["No stratification results for config '"
                             +:+ cfg_name config +:+ "'"]
           else errors)
        configs [] in
    ret (errors, []).

(** Generic validator that checks completion percentage. *)
Definition _validate_generic (step : WorkflowStep)
    : M Db (list string * list string) :=
  let* state := _get_state step in
  let warnings :=
    if Py.Qltb (completion_percentage state) 100
    then ["Step is " +:+ Py.format_f 0 (completion_percentage state) +:+ "% complete"]
    else [] in
  ret ([], warnings).

(** The [validators] dictionary of [validate_step]. *)
Definition validators (step : WorkflowStep)
    : WorkflowStep -> M Db (list string * list string) :=
  match step with
  | PLANNING_PREPAREDNESS => _validate_planning
  | DATA_ASSEMBLY => _validate_data_assembly
  | SITUATION_ANALYSIS => _validate_situation_analysis
  | STRATIFICATION => _validate_stratification
  | INTERVENTION_TAILORING
  | IMPACT_FORECASTING
  | SCENARIO_SELECTION
  | RESOURCE_OPTIMIZATION
  | SERVICE_DELIVERY
  | MONITORING_EVALUATION => _validate_generic
  end.

(** Run validation for a step. *)
Definition validate_step (step : WorkflowStep) : M Db StepValidationResponse :=
  let validator := validators step in
  let* (errors, warnings) := validator step in
  let* state := _get_state step in
  update_state step (with_validation_errors (Some (errors, warnings))) ;;
  ret (mkStepValidationResponse step (bool_decide (length errors = 0%nat))
         errors warnings).

(** Mark step as completed after validation passes.  [now] is the value
    of [datetime.now(timezone.utc)] at the call. *)
Definition complete_step (step : WorkflowStep) (user_id : N) (now : Z)
    : M Db StepStatusResponse :=
  let* validation := validate_step step in
  if negb (is_valid validation)
  then raise ("Step cannot be completed: " +:+ Py.join ", " (errors validation))
  else
    let* state := _get_state step in
    update_state step (with_status COMPLETED) ;;
    update_state step (with_completion_percentage 100) ;;
    update_state step (with_completed_at (Some now)) ;;
    update_state step (with_completed_by (Some user_id)) ;;
    get_step step.

End Validators.

(** Reopen a completed step. Also reopens dependent steps. *)
Definition reopen_step (step : WorkflowStep) : M Db StepStatusResponse :=
  let* state := _get_state step in
  update_state step (with_status IN_PROGRESS) ;;
  update_state step (with_completed_at None) ;;
  update_state step (with_completed_by None) ;;
  for_each WORKFLOW_STEP_ORDER (fun downstream_step =>
    let prereqs := PREREQUISITES downstream_step in
    for_each prereqs (fun '(prereq_step, prereq_type) =>
      if bool_decide (prereq_step = step) && bool_decide (prereq_type = BLOCKING)
      then
        let* downstream_state := _get_state downstream_step in
        if bool_decide (status downstream_state = COMPLETED)
        then
          update_state downstream_step (with_status IN_PROGRESS) ;;
          update_state downstream_step (with_completed_at None) ;;
          update_state downstream_step (with_completed_by None)
        else ret tt
      else ret tt)) ;;
  get_step step.

End WorkflowService.

(** ** services/stratification_service.py *)

Module StratificationService.
Import Enums Json.

(** schemas/stratification.py: one threshold band, [min_value, max_value). *)
Record ThresholdRange : Type := mkThresholdRange {
  min_value : Q;
  max_value : Q;
}.

(** [t["min_value"] <= metric_value < t["max_value"]] *)
Definition in_band (t : ThresholdRange) (metric_value : Q) : bool :=
  Qle_bool (min_value t) metric_value && Py.Qltb metric_value (max_value t).

(** The loop over ["very_low", "low", "moderate", "high"]; a level stands
    for its name, so that [RiskLevel(level_name)] is the level itself. *)
Fixpoint assign_from (levels : list RiskLevel) (metric_value : Q)
    (thresholds : gmap string ThresholdRange) : RiskLevel :=
  match levels with
  | [] => HIGH
  | level :: rest =>
      match thresholds !! risk_level_value level with
      | Some t =>
          if in_band t metric_value then level
          else assign_from rest metric_value thresholds
      | None => assign_from rest metric_value thresholds
      end
  end.

(** Assign risk level based on threshold ranges. *)
Definition _assign_risk_level (metric_value : Q)
    (thresholds : gmap string ThresholdRange) : RiskLevel :=
  assign_from [VERY_LOW; LOW; MODERATE; HIGH] metric_value thresholds.

(** Determine eligible interventions based on WHO guidelines. *)
Definition _determine_eligible_interventions (risk_level : RiskLevel)
    (metric : StratificationMetric) (unit_data : gmap string json) : list string :=
  let eligible := [] in
  let eligible := eligible ++ ["CM"] in
  let eligible :=
    if bool_decide (risk_level ∈ [LOW; MODERATE; HIGH])
    then eligible ++ ["ITN"] else eligible in
  let eligible :=
    if bool_decide (risk_level ∈ [MODERATE; HIGH])
    then eligible ++ ["IRS"] else eligible in
  let eligible :=
    if bool_decide (risk_level <> VERY_LOW)
    then eligible ++ ["IPTp"] else eligible in
  let eligible :=
    if bool_decide (risk_level ∈ [MODERATE; HIGH])
    then (eligible ++ ["SMC"]) ++ ["VACCINE"] else eligible in
  eligible.

(** *** models/stratification.py

    The rows of the two tables; the generated ids of the result rows, the
    timestamps and the PostGIS geometry are left out. *)

Record StratificationConfig : Type := mkStratificationConfig {
  c_id : N;
  c_name : string;
  c_metric : StratificationMetric;
  c_is_active : bool;
  c_thresholds : gmap string ThresholdRange;
}.

Record StratificationResult : Type := mkStratificationResult {
  r_config_id : N;
  r_admin_unit_name : string;
  r_admin_unit_code : option string;
  r_metric_value : Q;
  r_risk_level : RiskLevel;
  r_eligible_interventions : option (list string);
  r_population : option Z;
  r_cases_annual : option Z;
  r_deaths_annual : option Z;
}.

Record Db : Type := mkDb {
  configs : gmap N StratificationConfig;
  results : list StratificationResult;
}.

Definition with_results (f : list StratificationResult -> list StratificationResult)
    (db : Db) : Db :=
  mkDb (configs db) (f (results db)).
Definition with_configs
    (f : gmap N StratificationConfig -> gmap N StratificationConfig) (db : Db) : Db :=
  mkDb (f (configs db)) (results db).

(** One item of the [data] list of [calculate_stratification], with the
    value types its docstring gives; [None] is an absent key. *)
Record UnitItem : Type := mkUnitItem {
  admin_unit_name : option string;
  admin_unit_code : option string;
  metric_value : option Q;
  population : option Z;
  cases_annual : option Z;
  deaths_annual : option Z;
}.

(** The item as the dictionary it is. *)
Definition item_dict (item : UnitItem) : gmap string json :=
  let put (k : string) (v : option json) (d : gmap string json) :=
    match v with Some j => <[k := j]> d | None => d end in
  put "admin_unit_name" (JStr <$> admin_unit_name item)
    (put "admin_unit_code" (JStr <$> admin_unit_code item)
       (put "metric_value" (JNum <$> metric_value item)
          (put "population" ((fun z => JNum (inject_Z z)) <$> population item)
             (put "cases_annual" ((fun z => JNum (inject_Z z)) <$> cases_annual item)
                (put "deaths_annual"
                   ((fun z => JNum (inject_Z z)) <$> deaths_annual item) ∅))))).

(** [item[key]] *)
Definition subscript {S A} (v : option A) (key : string) : Session.M S A :=
  match v with
  | Some a => Session.ret a
  | None => fun _ => Session.KeyError key
  end.

(** schemas/stratification.py *)
Record StratificationConfigUpdate : Type := mkStratificationConfigUpdate {
  u_name : option string;
  u_thresholds : option (gmap string ThresholdRange);
  u_is_active : option bool;
}.

Record StratificationSummaryResponse : Type := mkStratificationSummaryResponse {
  s_config_id : N;
  s_config_name : string;
  s_metric : StratificationMetric;
  total_units : nat;
  risk_distribution : gmap string nat;
  total_population : Z;
  total_cases : Z;
}.

Definition update_config (config_id : N) (data : StratificationConfigUpdate)
    : Session.M Db StratificationConfig :=
  let* cs := Session.gets configs in
  match cs !! config_id with
  | None => Session.raise "Stratification config not found"
  | Some config =>
      let config :=
        match u_name data with
        | Some n => mkStratificationConfig (c_id config) n (c_metric config)
                      (c_is_active config) (c_thresholds config)
        | None => config
        end in
      let config :=
        match u_thresholds data with
        | Some t => mkStratificationConfig (c_id config) (c_name config)
                      (c_metric config) (c_is_active config) t
        | None => config
        end in
      let config :=
        match u_is_active data with
        | Some b => mkStratificationConfig (c_id config) (c_name config)
                      (c_metric config) b (c_thresholds config)
        | None => config
        end in
      Session.modify (with_configs (fun m => <[config_id := config]> m)) ;;
      Session.ret config
  end.

(** The loop [for item in data] of [calculate_stratification]; [results]
    is the local list of the rows built so far. *)
Fixpoint calculate_rows (config_id : N) (config : StratificationConfig)
    (data : list UnitItem) (results : list StratificationResult)
    : Session.M Db (list StratificationResult) :=
  match data with
  | [] => Session.ret results
  | item :: rest =>
      let* metric_value := subscript (metric_value item) "metric_value" in
      let risk_level := _assign_risk_level metric_value (c_thresholds config) in
      let eligible :=
        _determine_eligible_interventions risk_level (c_metric config)
          (item_dict item) in
      let* admin_unit_name := subscript (admin_unit_name item) "admin_unit_name" in
      let strat_result :=
        mkStratificationResult config_id admin_unit_name (admin_unit_code item)
          metric_value risk_level (Some eligible) (population item)
          (cases_annual item) (deaths_annual item) in
      Session.modify (with_results (fun rows => rows ++ [strat_result])) ;;
      calculate_rows config_id config rest (results ++ [strat_result])
  end.

(** Calculate stratification from provided data. *)
Definition calculate_stratification (config_id : N) (data : list UnitItem)
    : Session.M Db (list StratificationResult) :=
  let* cs := Session.gets configs in
  match cs !! config_id with
  | None => Session.raise "Stratification config not found"
  | Some config =>
      Session.modify (with_results (filter (fun r => r_config_id r <> config_id))) ;;
      calculate_rows config_id config data []
  end.

(** [if r.population:] on a nullable integer column *)
Definition truthy_int (v : option Z) : bool :=
  match v with
  | Some z => negb (z =? 0)%Z
  | None => false
  end.

(** Get summary statistics for stratification results. *)
Definition get_summary (config_id : N) : Session.M Db StratificationSummaryResponse :=
  let* cs := Session.gets configs in
  match cs !! config_id with
  | None => Session.raise "Config not found"
  | Some config =>
      let* all_results := Session.gets results in
      let results := filter (fun r => r_config_id r = config_id) all_results in
      let '(risk_dist, total_pop, total_cases) :=
        fold_left
          (fun (acc : gmap string nat * Z * Z) (r : StratificationResult) =>
             let '(risk_dist, total_pop, total_cases) := acc in
             let key := risk_level_value (r_risk_level r) in
             let risk_dist := <[key := (default 0%nat (risk_dist !! key) + 1)%nat]> risk_dist in
             let total_pop :=
               if truthy_int (r_population r)
               then (total_pop + default 0 (r_population r))%Z else total_pop in
             let total_cases :=
               if truthy_int (r_cases_annual r)
               then (total_cases + default 0 (r_cases_annual r))%Z else total_cases in
             (risk_dist, total_pop, total_cases))
          results (∅, 0%Z, 0%Z) in
      Session.ret (mkStratificationSummaryResponse (c_id config) (c_name config)
                     (c_metric config) (length results) risk_dist total_pop total_cases)
  end.

End StratificationService.

(** ** models/intervention.py *)

Module Models.

(** An [InterventionScenario] row.  [interventions] is the JSON object
    {unit_code: [intervention codes]}, kept in its iteration order. *)
Record InterventionScenario : Type := mkInterventionScenario {
  sc_name : string;
  interventions : list (string * list string);
  total_cost : option Q;
  population_covered : option Q;
  estimated_cases_averted : option Q;
  estimated_deaths_averted : option Q;
}.

Definition with_interventions (v : list (string * list string))
    (sc : InterventionScenario) : InterventionScenario :=
  mkInterventionScenario (sc_name sc) v (total_cost sc) (population_covered sc)
    (estimated_cases_averted sc) (estimated_deaths_averted sc).
Definition with_total_cost (v : option Q)
    (sc : InterventionScenario) : InterventionScenario :=
  mkInterventionScenario (sc_name sc) (interventions sc) v (population_covered sc)
    (estimated_cases_averted sc) (estimated_deaths_averted sc).
Definition with_estimated_cases_averted (v : option Q)
    (sc : InterventionScenario) : InterventionScenario :=
  mkInterventionScenario (sc_name sc) (interventions sc) (total_cost sc)
    (population_covered sc) v (estimated_deaths_averted sc).
Definition with_estimated_deaths_averted (v : option Q)
    (sc : InterventionScenario) : InterventionScenario :=
  mkInterventionScenario (sc_name sc) (interventions sc) (total_cost sc)
    (population_covered sc) (estimated_cases_averted sc) v.

(** Truthiness of an optional number: neither [None] nor zero. *)
Definition truthy_num (x : option Q) : bool :=
  match x with
  | Some q => negb (Qeq_bool q 0)
  | None => false
  end.

End Models.

(** ** services/forecast_service.py *)

Module ForecastService.
Import Session Enums Models.
#[local] Open Scope Q_scope.

(** Intervention effectiveness parameters (proportion reduction in cases) *)
Definition INTERVENTION_EFFECTIVENESS : gmap string (gmap string Q) :=
  list_to_map
    [ ("itn", list_to_map [("cases_reduction", 50 # 100); ("deaths_reduction", 55 # 100)]);
      ("irs", list_to_map [("cases_reduction", 45 # 100); ("deaths_reduction", 50 # 100)]);
      ("smc", list_to_map [("cases_reduction", 75 # 100); ("deaths_reduction", 75 # 100)]);
      ("iptp", list_to_map [("cases_reduction", 10 # 100); ("deaths_reduction", 15 # 100)]);
      ("vaccine", list_to_map [("cases_reduction", 40 # 100); ("deaths_reduction", 45 # 100)]);
      ("cm", list_to_map [("cases_reduction", 20 # 100); ("deaths_reduction", 60 # 100)]);
      ("pmc", list_to_map [("cases_reduction", 30 # 100); ("deaths_reduction", 35 # 100)]);
      ("lsm", list_to_map [("cases_reduction", 10 # 100); ("deaths_reduction", 8 # 100)]) ].

Record ForecastRequest : Type := mkForecastRequest {
  model_type : string;
  projection_years : nat;
}.

(** The dictionary built by [_simple_forecast] (or the pending literal of
    [run_forecast]); an absent key and a [None] value are both [None]. *)
Record ForecastData : Type := mkForecastData {
  fd_status : ForecastStatus;
  fd_projected_cases : option (list (string * Z));
  fd_projected_deaths : option (list (string * Z));
  fd_projected_prevalence : option (list (string * Q));
  fd_cases_averted : option Q;
  fd_deaths_averted : option Q;
  fd_dalys_averted : option Q;
  fd_uncertainty : option ((Z * Z) * (Z * Z));
}.

Record ForecastResult : Type := mkForecastResult {
  scenario_id : N;
  status : ForecastStatus;
  fr_model_type : string;
  projected_cases : option (list (string * Z));
  projected_deaths : option (list (string * Z));
  projected_prevalence : option (list (string * Q));
  cases_averted : option Q;
  deaths_averted : option Q;
  dalys_averted : option Q;
  cost_per_case_averted : option Q;
  cost_per_death_averted : option Q;
  cost_per_daly_averted : option Q;
  uncertainty_bounds : option ((Z * Z) * (Z * Z));
  parameters : gmap string Q * string * nat;
}.

Record Db : Type := mkDb {
  scenarios : gmap N InterventionScenario;
  forecasts : list ForecastResult;
}.

(** [sorted(...)] on strings. *)
Definition str_le (a b : string) : Prop := String.leb a b = true.

Global Instance str_le_dec a b : Decision (str_le a b).
Proof. unfold str_le. apply _. Defined.

Definition sorted (l : list string) : list string := merge_sort str_le l.

(** [all_interventions]: the union of the codes of all units. *)
Definition all_interventions (scenario : InterventionScenario) : gset string :=
  fold_left (fun (acc : gset string) (unit : string * list string) =>
               acc ∪ list_to_set (snd unit))
            (interventions scenario) ∅.

(** Diminishing returns: each additional intervention acts on remaining cases. *)
Definition diminishing (combined eff : Q) : Q :=
  combined + (1 - combined) * eff.

(** The loop [for intervention in sorted(all_interventions)] over the pair
    (combined_case_reduction, combined_death_reduction). *)
Definition combine_step (acc : Q * Q) (intervention : string) : Q * Q :=
  let eff : gmap string Q := default ∅ (INTERVENTION_EFFECTIVENESS !! intervention) in
  let case_eff : Q := default 0%Q (eff !! "cases_reduction") in
  let death_eff : Q := default 0%Q (eff !! "deaths_reduction") in
  (diminishing (fst acc) case_eff, diminishing (snd acc) death_eff).

(** Lines 246-270 of [_simple_forecast]: the combined reductions, capped. *)
Definition combined_reduction (scenario : InterventionScenario) : Q * Q :=
  let combined :=
    fold_left combine_step (sorted (elements (all_interventions scenario))) (0%Q, 0%Q) in
  (Qmin (fst combined) (95 # 100), Qmin (snd combined) (95 # 100)).

(** The state of the year loop of [_simple_forecast]. *)
Record Projection : Type := mkProjection {
  p_cases : list (string * Z);
  p_deaths : list (string * Z);
  p_prevalence : list (string * Q);
  total_cases_averted : Q;
  total_deaths_averted : Q;
}.

Definition project_year (combined : Q * Q)
    (baseline_cases baseline_deaths baseline_prevalence : Q)
    (acc : Projection) (y : nat) : Projection :=
  let base_year := 2025%Z in
  let year := (base_year + Z.of_nat y)%Z in
  let scale_up := Qmin 1 ((5 # 10) + inject_Z (Z.of_nat y) * (25 # 100)) in
  let effective_case_reduction := fst combined * scale_up in
  let effective_death_reduction := snd combined * scale_up in
  let year_cases := Py.int (baseline_cases * (1 - effective_case_reduction)) in
  let year_deaths := Py.int (baseline_deaths * (1 - effective_death_reduction)) in
  let year_prevalence :=
    Py.round (baseline_prevalence * (1 - effective_case_reduction * (8 # 10))) 2 in
  mkProjection
    (p_cases acc ++ [(pretty year, year_cases)])
    (p_deaths acc ++ [(pretty year, year_deaths)])
    (p_prevalence acc ++ [(pretty year, year_prevalence)])
    (total_cases_averted acc + (baseline_cases - inject_Z year_cases))
    (total_deaths_averted acc + (baseline_deaths - inject_Z year_deaths)).

(** Simplified transmission model for impact forecasting. *)
Definition _simple_forecast (scenario : InterventionScenario)
    (baseline_cases baseline_deaths baseline_prevalence population : Q)
    (years : nat) : ForecastData :=
  let combined := combined_reduction scenario in
  let proj :=
    fold_left (project_year combined baseline_cases baseline_deaths baseline_prevalence)
              (seq 0 years) (mkProjection [] [] [] 0%Q 0%Q) in
  let dalys_averted :=
    total_cases_averted proj * (2 # 100) + total_deaths_averted proj * 30 in
  let uncertainty :=
    ((Py.int (total_cases_averted proj * (8 # 10)),
      Py.int (total_cases_averted proj * (12 # 10))),
     (Py.int (total_deaths_averted proj * (8 # 10)),
      Py.int (total_deaths_averted proj * (12 # 10)))) in
  mkForecastData F_COMPLETED
    (Some (p_cases proj)) (Some (p_deaths proj)) (Some (p_prevalence proj))
    (Some (total_cases_averted proj)) (Some (total_deaths_averted proj))
    (Some (Py.round dalys_averted 1)) (Some uncertainty).

(** Run impact forecast for a scenario. *)
Definition run_forecast (scenario_id : N) (request : ForecastRequest)
    (baseline_data : option (gmap string Q)) : M Db ForecastResult :=
  let* all := gets scenarios in
  match all !! scenario_id with
  | None => raise "Scenario not found"
  | Some scenario =>
      let baseline : gmap string Q := default ∅ baseline_data in
      let baseline_cases : Q := default 100000%Q (baseline !! "baseline_cases") in
      let baseline_deaths : Q := default 500%Q (baseline !! "baseline_deaths") in
      let baseline_prev : Q := default 15%Q (baseline !! "baseline_prevalence") in
      let population : Q := default 1000000%Q (baseline !! "population") in
      let years := projection_years request in
      let forecast_data :=
        if bool_decide (model_type request = "simple")
        then _simple_forecast scenario baseline_cases baseline_deaths
               baseline_prev population years
        else mkForecastData F_PENDING None None None None None None None in
      (* Calculate cost-effectiveness if cost data available *)
      let '(cost_per_case, cost_per_death, cost_per_daly) :=
        if truthy_num (total_cost scenario) && truthy_num (fd_cases_averted forecast_data)
        then
          let cost : Q := default 0%Q (total_cost scenario) in
          let cases : Q := default 0%Q (fd_cases_averted forecast_data) in
          let deaths : Q := default 0%Q (fd_deaths_averted forecast_data) in
          let dalys : Q := default 0%Q (fd_dalys_averted forecast_data) in
          (if Py.Qltb 0 cases then Some (cost / cases) else None,
           if Py.Qltb 0 deaths then Some (cost / deaths) else None,
           if Py.Qltb 0 dalys then Some (cost / dalys) else None)
        else (None, None, None) in
      let forecast :=
        mkForecastResult scenario_id (fd_status forecast_data) (model_type request)
          (fd_projected_cases forecast_data) (fd_projected_deaths forecast_data)
          (fd_projected_prevalence forecast_data)
          (fd_cases_averted forecast_data) (fd_deaths_averted forecast_data)
          (fd_dalys_averted forecast_data)
          cost_per_case cost_per_death cost_per_daly
          (fd_uncertainty forecast_data)
          (baseline, model_type request, years) in
      modify (fun db => mkDb (scenarios db) (forecasts db ++ [forecast])) ;;
      (* Update scenario with aggregate results *)
      modify (fun db =>
        mkDb (alter (fun sc =>
                       with_estimated_deaths_averted (fd_deaths_averted forecast_data)
                         (with_estimated_cases_averted (fd_cases_averted forecast_data) sc))
                    scenario_id (scenarios db))
             (forecasts db)) ;;
      ret forecast
  end.

(** *** compare_forecasts (schemas/forecast.py for the two responses) *)

Record ForecastSummaryResponse : Type := mkForecastSummaryResponse {
  fs_scenario_id : N;
  fs_scenario_name : string;
  fs_baseline_cases : Q;
  fs_baseline_deaths : Q;
  projected_cases_final_year : option Z;
  projected_deaths_final_year : option Z;
  fs_total_cases_averted : option Q;
  fs_total_deaths_averted : option Q;
  (* {"cost_per_case_averted": ..., "cost_per_death_averted": ...} *)
  cost_effectiveness : option Q * option Q;
}.

Record ForecastComparisonResponse : Type := mkForecastComparisonResponse {
  comparison_scenarios : list ForecastSummaryResponse;
  best_by_cases_averted : option N;
  best_by_cost_effectiveness : option N;
}.

#[global] Instance ForecastStatus_eq_dec : EqDecision ForecastStatus.
Proof. solve_decision. Defined.

(** The latest completed forecast of a scenario ([order_by created_at desc
    limit 1]); the rows of [forecasts] are in the order of their creation. *)
Definition latest_completed (fs : list ForecastResult) (sid : N)
    : option ForecastResult :=
  last (filter (fun f => scenario_id f = sid /\ status f = F_COMPLETED) fs).

(** [d[sorted(d.keys())[-1]]] for a non-empty dictionary [d], else [None]. *)
Definition final_year (projected : option (list (string * Z))) : option Z :=
  match projected with
  | Some d =>
      if bool_decide (d = []) then None
      else
        let years := sorted (d.*1) in
        match last years with
        | Some y => (list_to_map d : gmap string Z) !! y
        | None => None
        end
  | None => None
  end.

(** The body of [for scenario in scenarios]; the accumulator is (summaries,
    best_cases_id, best_cases_count, best_ce_id, best_ce_ratio), the ratio
    [None] standing for [float("inf")]. *)
Definition compare_step (fs : list ForecastResult)
    (acc : list ForecastSummaryResponse * option N * Q * option N * option Q)
    (row : N * InterventionScenario)
    : list ForecastSummaryResponse * option N * Q * option N * option Q :=
  let '(summaries, best_cases_id, best_cases_count, best_ce_id, best_ce_ratio) := acc in
  let '(sid, scenario) := row in
  let forecast := latest_completed fs sid in
  let cases_averted := forecast ≫= cases_averted in
  let deaths_averted := forecast ≫= deaths_averted in
  let final_year_cases := forecast ≫= (fun f => final_year (projected_cases f)) in
  let final_year_deaths := forecast ≫= (fun f => final_year (projected_deaths f)) in
  let baseline (key : string) : Q :=
    match forecast with
    | Some f => default 0 (fst (fst (parameters f)) !! key)
    | None => 0
    end in
  let summary :=
    mkForecastSummaryResponse sid (sc_name scenario)
      (baseline "baseline_cases") (baseline "baseline_deaths")
      final_year_cases final_year_deaths cases_averted deaths_averted
      (forecast ≫= cost_per_case_averted, forecast ≫= cost_per_death_averted) in
  let '(best_cases_count, best_cases_id) :=
    if truthy_num cases_averted && Py.Qltb best_cases_count (default 0 cases_averted)
    then (default 0 cases_averted, Some sid)
    else (best_cases_count, best_cases_id) in
  let '(best_ce_ratio, best_ce_id) :=
    match forecast ≫= cost_per_case_averted with
    | Some ratio =>
        if negb (Qeq_bool ratio 0) &&
           match best_ce_ratio with
           | Some best => Py.Qltb ratio best
           | None => true
           end
        then (Some ratio, Some sid)
        else (best_ce_ratio, best_ce_id)
    | None => (best_ce_ratio, best_ce_id)
    end in
  (summaries ++ [summary], best_cases_id, best_cases_count, best_ce_id, best_ce_ratio).

Section Compare.

(** The order in which the database returns the scenarios of the project
    (the query has no [order_by]). *)
Variable select_scenarios :
  gmap N InterventionScenario -> list (N * InterventionScenario).

(** Compare forecasts across all scenarios in a project. *)
Definition compare_forecasts : M Db ForecastComparisonResponse :=
  let* rows := gets (fun db => select_scenarios (scenarios db)) in
  let* fs := gets forecasts in
  let '(summaries, best_cases_id, _, best_ce_id, _) :=
    fold_left (compare_step fs) rows ([], None, 0, None, None) in
  ret (mkForecastComparisonResponse summaries best_cases_id best_ce_id).

End Compare.

End ForecastService.

(** ** services/forecast_service.py: the combined effectiveness, in binary64

    The loop of [_simple_forecast] that composes the effectiveness of the
    interventions, on IEEE 754 doubles with Python's operations in Python's
    order.  The set of codes and its sorted order are those of
    [ForecastService]. *)

Module ForecastBinary64.
Import Models.
Import PrimFloat.
#[local] Open Scope float_scope.
#[local] Set Warnings "-inexact-float".

(** Intervention effectiveness parameters (proportion reduction in cases) *)
Definition INTERVENTION_EFFECTIVENESS : gmap string (gmap string float) :=
  list_to_map
    [ ("itn", list_to_map [("cases_reduction", 0.50); ("deaths_reduction", 0.55)]);
      ("irs", list_to_map [("cases_reduction", 0.45); ("deaths_reduction", 0.50)]);
      ("smc", list_to_map [("cases_reduction", 0.75); ("deaths_reduction", 0.75)]);
      ("iptp", list_to_map [("cases_reduction", 0.10); ("deaths_reduction", 0.15)]);
      ("vaccine", list_to_map [("cases_reduction", 0.40); ("deaths_reduction", 0.45)]);
      ("cm", list_to_map [("cases_reduction", 0.20); ("deaths_reduction", 0.60)]);
      ("pmc", list_to_map [("cases_reduction", 0.30); ("deaths_reduction", 0.35)]);
      ("lsm", list_to_map [("cases_reduction", 0.10); ("deaths_reduction", 0.08)]) ].

(** Diminishing returns: each additional intervention acts on remaining cases. *)
Definition diminishing (combined eff : float) : float :=
  combined + (1 - combined) * eff.

(** [eff.get("cases_reduction", 0)] and [eff.get("deaths_reduction", 0)] for
    [eff = INTERVENTION_EFFECTIVENESS.get(intervention, {})]. *)
Definition case_eff (intervention : string) : float :=
  default 0 (default ∅ (INTERVENTION_EFFECTIVENESS !! intervention) !! "cases_reduction").
Definition death_eff (intervention : string) : float :=
  default 0 (default ∅ (INTERVENTION_EFFECTIVENESS !! intervention) !! "deaths_reduction").

(** The loop [for intervention in sorted(all_interventions)] over the pair
    (combined_case_reduction, combined_death_reduction). *)
Definition combine_step (acc : float * float) (intervention : string) : float * float :=
  let eff : gmap string float :=
    default ∅ (INTERVENTION_EFFECTIVENESS !! intervention) in
  let case_eff : float := default 0 (eff !! "cases_reduction") in
  let death_eff : float := default 0 (eff !! "deaths_reduction") in
  (diminishing (fst acc) case_eff, diminishing (snd acc) death_eff).

(** [min(a, b)]: [b] when [b < a], otherwise [a]. *)
Definition min (a b : float) : float := if b <? a then b else a.

(** Lines 246-270 of [_simple_forecast]: the combined reductions, capped. *)
Definition combined_reduction (scenario : InterventionScenario) : float * float :=
  let combined :=
    fold_left combine_step
      (ForecastService.sorted (elements (ForecastService.all_interventions scenario)))
      (0, 0) in
  (min (fst combined) 0.95, min (snd combined) 0.95).

End ForecastBinary64.

(** ** services/costing_service.py

    The unit-cost formulas and [calculate_scenario_cost], in exact
    arithmetic.  The budget optimizer, whose result depends on the rounding
    of the running sum, follows in [CostingBinary64]. *)

Module CostingService.
Import Session Enums Models.
#[local] Open Scope Q_scope.

(** Default unit costs (USD) -- can be overridden per country *)
Definition DEFAULT_UNIT_COSTS : gmap string (gmap string Q) :=
  list_to_map
    [ ("itn", list_to_map
         [ ("procurement", 250 # 100); ("distribution", 150 # 100);
           ("bcc_annual", 10 # 100); ("nets_per_capita", 5 # 10);
           ("replacement_years", 3) ]);
      ("irs", list_to_map
         [ ("insecticide_per_structure", 5); ("operations_per_structure", 350 # 100);
           ("mobilization_per_capita", 20 # 100); ("persons_per_structure", 5) ]);
      ("smc", list_to_map
         [ ("drugs_per_child_per_cycle", 50 # 100);
           ("delivery_per_child_per_cycle", 80 # 100);
           ("default_cycles", 4); ("under5_proportion", 18 # 100) ]);
      ("iptp", list_to_map
         [ ("drugs_per_pregnant_woman", 30 # 100); ("delivery_per_visit", 50 # 100);
           ("pregnant_proportion", 4 # 100); ("visits_per_pregnancy", 4) ]);
      ("vaccine", list_to_map
         [ ("vaccine_per_dose", 2); ("delivery_per_dose", 150 # 100);
           ("doses_per_child", 4); ("target_proportion", 3 # 100) ]);
      ("cm", list_to_map
         [ ("rdt_per_test", 50 # 100); ("act_per_treatment", 120 # 100);
           ("test_rate", 15 # 100); ("positivity_rate", 30 # 100) ]);
      ("pmc", list_to_map
         [ ("drugs_per_infant_per_dose", 40 # 100); ("delivery_per_dose", 50 # 100);
           ("doses", 3); ("infant_proportion", 3 # 100) ]);
      ("lsm", list_to_map
         [ ("cost_per_hectare_per_year", 150); ("hectares_per_1000_pop", 5 # 10) ]) ].

(** One item of [population_data]: a JSON object whose keys may be absent. *)
Record PopulationRow : Type := mkPopulationRow {
  admin_unit_name : option string;
  admin_unit_code : option string;
  population : option Q;
}.

(** [ic.get(key, dflt)] *)
Definition get (ic : gmap string Q) (key : string) (dflt : Q) : Q :=
  default dflt (ic !! key).

(** Calculate cost for a single intervention in a single unit, in exact
    arithmetic.  A zero divisor (ZeroDivisionError) is not represented; the
    default costs have none. *)
Definition _calculate_intervention_cost (intervention : string) (population : Q)
    (costs : gmap string (gmap string Q)) (years : Q) : Q :=
  let ic : gmap string Q := default ∅ (costs !! intervention) in
  if bool_decide (intervention = "itn") then
    let nets := population * get ic "nets_per_capita" (5 # 10) in
    let replacement := get ic "replacement_years" 3 in
    let cycles := years / replacement in
    nets * get ic "procurement" (25 # 10) * cycles
    + nets * get ic "distribution" (15 # 10) * cycles
    + population * get ic "bcc_annual" (1 # 10) * years
  else if bool_decide (intervention = "irs") then
    let structures := population / get ic "persons_per_structure" 5 in
    structures * get ic "insecticide_per_structure" 5 * years
    + structures * get ic "operations_per_structure" (35 # 10) * years
    + population * get ic "mobilization_per_capita" (2 # 10) * years
  else if bool_decide (intervention = "smc") then
    let target := population * get ic "under5_proportion" (18 # 100) in
    let cycles := get ic "default_cycles" 4 in
    target * get ic "drugs_per_child_per_cycle" (5 # 10) * cycles * years
    + target * get ic "delivery_per_child_per_cycle" (8 # 10) * cycles * years
  else if bool_decide (intervention = "iptp") then
    let target := population * get ic "pregnant_proportion" (4 # 100) in
    let visits := get ic "visits_per_pregnancy" 4 in
    target * get ic "drugs_per_pregnant_woman" (3 # 10) * visits * years
    + target * get ic "delivery_per_visit" (5 # 10) * visits * years
  else if bool_decide (intervention = "vaccine") then
    let target := population * get ic "target_proportion" (3 # 100) in
    let doses := get ic "doses_per_child" 4 in
    target * get ic "vaccine_per_dose" 2 * doses * years
    + target * get ic "delivery_per_dose" (15 # 10) * doses * years
  else if bool_decide (intervention = "cm") then
    let tests := population * get ic "test_rate" (15 # 100) in
    let treatments := tests * get ic "positivity_rate" (3 # 10) in
    tests * get ic "rdt_per_test" (5 # 10) * years
    + treatments * get ic "act_per_treatment" (12 # 10) * years
  else if bool_decide (intervention = "pmc") then
    let target := population * get ic "infant_proportion" (3 # 100) in
    let doses := get ic "doses" 3 in
    target * get ic "drugs_per_infant_per_dose" (4 # 10) * doses * years
    + target * get ic "delivery_per_dose" (5 # 10) * doses * years
  else if bool_decide (intervention = "lsm") then
    let hectares := (population / 1000) * get ic "hectares_per_1000_pop" (5 # 10) in
    hectares * get ic "cost_per_hectare_per_year" 150 * years
  else 0.

(** These are rough multipliers for cost-effectiveness ranking *)
Definition effect_rates : gmap string Q :=
  list_to_map
    [ ("itn", 5 # 100); ("irs", 4 # 100); ("smc", 6 # 100); ("cm", 3 # 100);
      ("iptp", 1 # 100); ("vaccine", 2 # 100); ("pmc", 15 # 1000);
      ("lsm", 5 # 1000) ].

(** Simplified effect estimate (cases averted) for optimization. *)
Definition _estimate_effect (intervention : string) (population : Q) : Q :=
  let rate := default (1 # 100) (effect_rates !! intervention) in
  population * rate.

(** The dictionary comprehension building [pop_map]; [None] when an item
    has no "admin_unit_name" (the subscript is evaluated for every item). *)
Fixpoint pop_map_of (population_data : list PopulationRow)
    (acc : gmap string PopulationRow) : option (gmap string PopulationRow) :=
  match population_data with
  | [] => Some acc
  | item :: rest =>
      match admin_unit_name item with
      | None => None
      | Some name => pop_map_of rest (<[default name (admin_unit_code item) := item]> acc)
      end
  end.

(** [pop_map.get(unit_key, {}).get("population", 0)] *)
Definition population_of (pop_map : gmap string PopulationRow) (key : string) : Q :=
  match pop_map !! key with
  | Some unit_info => default 0 (population unit_info)
  | None => 0
  end.

(** *** calculate_scenario_cost

    A [ScenarioCostItem] row (models/intervention.py) with the columns the
    service writes; [ci_population] and [ci_unit_costs] are the two entries
    of its [cost_details]. *)

Record ScenarioCostItem : Type := mkScenarioCostItem {
  ci_scenario_id : N;
  ci_admin_unit_name : string;
  ci_admin_unit_code : option string;
  ci_intervention_code : string;
  ci_total_cost : Q;
  ci_years : Q;
  ci_population : Q;
  ci_unit_costs : gmap string Q;
}.

(** The scenarios of a project together with their cost line items. *)
Record Store : Type := mkStore {
  scenario_rows : gmap N InterventionScenario;
  cost_items : list ScenarioCostItem;
}.

(** schemas/intervention.py *)
Record ScenarioCostSummary : Type := mkScenarioCostSummary {
  s_scenario_id : N;
  s_scenario_name : string;
  s_total_cost : Q;
  s_cost_by_intervention : list (string * Q);
  s_cost_by_unit : list (string * Q);
  s_cost_per_capita : option Q;
  s_total_population : Q;
}.

(** [d.get(key, dflt)] and [d[key] = v] on a dictionary kept in its
    insertion order. *)
Fixpoint dict_get (d : list (string * Q)) (key : string) (dflt : Q) : Q :=
  match d with
  | [] => dflt
  | (k, x) :: rest => if bool_decide (k = key) then x else dict_get rest key dflt
  end.

Fixpoint dict_put (d : list (string * Q)) (key : string) (v : Q) : list (string * Q) :=
  match d with
  | [] => [(key, v)]
  | (k, x) :: rest =>
      if bool_decide (k = key) then (k, v) :: rest else (k, x) :: dict_put rest key v
  end.

(** [pop_map.get(unit_key, {}).get("admin_unit_name", unit_key)] *)
Definition unit_name_of (pop_map : gmap string PopulationRow) (key : string) : string :=
  match pop_map !! key with
  | Some unit_info => default key (admin_unit_name unit_info)
  | None => key
  end.

(** [unit_costs or DEFAULT_UNIT_COSTS] *)
Definition costs_or_default (unit_costs : option (gmap string (gmap string Q)))
    : gmap string (gmap string Q) :=
  match unit_costs with
  | Some c => if bool_decide (c = ∅) then DEFAULT_UNIT_COSTS else c
  | None => DEFAULT_UNIT_COSTS
  end.

(** The body of [for intervention_str in interventions]; the accumulator is
    (rows added, total_cost, unit_total, cost_by_intervention). *)
Definition cost_intervention_step (scenario_id : N) (unit_key unit_name : string)
    (population : Q) (costs : gmap string (gmap string Q)) (project_years : Q)
    (acc : list ScenarioCostItem * Q * Q * list (string * Q))
    (intervention_str : string)
    : list ScenarioCostItem * Q * Q * list (string * Q) :=
  let '(added, total_cost, unit_total, cost_by_intervention) := acc in
  let intervention_cost :=
    _calculate_intervention_cost intervention_str population costs project_years in
  let cost_item :=
    mkScenarioCostItem scenario_id unit_name (Some unit_key) intervention_str
      intervention_cost project_years population
      (default ∅ (costs !! intervention_str)) in
  (added ++ [cost_item],
   total_cost + intervention_cost,
   unit_total + intervention_cost,
   dict_put cost_by_intervention intervention_str
     (dict_get cost_by_intervention intervention_str 0 + intervention_cost)).

(** The body of [for unit_key, interventions in scenario.interventions.items()];
    the accumulator is (rows added, total_cost, total_population,
    cost_by_intervention, cost_by_unit). *)
Definition cost_unit_step (scenario_id : N) (pop_map : gmap string PopulationRow)
    (costs : gmap string (gmap string Q)) (project_years : Q)
    (acc : list ScenarioCostItem * Q * Q * list (string * Q) * list (string * Q))
    (unit : string * list string)
    : list ScenarioCostItem * Q * Q * list (string * Q) * list (string * Q) :=
  let '(added, total_cost, total_population, cost_by_intervention, cost_by_unit) := acc in
  let '(unit_key, interventions) := unit in
  let population := population_of pop_map unit_key in
  let unit_name := unit_name_of pop_map unit_key in
  let total_population := total_population + population in
  let '(added, total_cost, unit_total, cost_by_intervention) :=
    fold_left
      (cost_intervention_step scenario_id unit_key unit_name population costs
         project_years)
      interventions (added, total_cost, 0, cost_by_intervention) in
  (added, total_cost, total_population, cost_by_intervention,
   dict_put cost_by_unit unit_key unit_total).

(** Calculate costs for all interventions in a scenario.  The rows handed
    to [db.add] in the loops are written to the table after them. *)
Definition calculate_scenario_cost (scenario_id : N)
    (population_data : list PopulationRow)
    (unit_costs : option (gmap string (gmap string Q))) (project_years : Q)
    : M Store ScenarioCostSummary :=
  let* all := gets scenario_rows in
  match all !! scenario_id with
  | None => raise "Scenario not found"
  | Some scenario =>
      let costs := costs_or_default unit_costs in
      modify (fun db =>
        mkStore (scenario_rows db)
          (filter (fun c => ci_scenario_id c <> scenario_id) (cost_items db))) ;;
      match pop_map_of population_data ∅ with
      | None => fun _ => KeyError "admin_unit_name"
      | Some pop_map =>
          let '(added, total_cost, total_population, cost_by_intervention,
                cost_by_unit) :=
            fold_left (cost_unit_step scenario_id pop_map costs project_years)
              (interventions scenario) ([], 0, 0, [], []) in
          let updated :=
            mkInterventionScenario (sc_name scenario) (interventions scenario)
              (Some total_cost) (Some total_population)
              (estimated_cases_averted scenario)
              (estimated_deaths_averted scenario) in
          modify (fun db =>
            mkStore (<[scenario_id := updated]> (scenario_rows db))
              (cost_items db ++ added)) ;;
          ret (mkScenarioCostSummary scenario_id (sc_name scenario) total_cost
                 cost_by_intervention cost_by_unit
                 (if Py.Qltb 0 total_population
                  then Some (total_cost / total_population) else None)
                 total_population)
      end
  end.

End CostingService.

(** ** services/costing_service.py: the budget optimizer, in binary64

    [optimize_scenario] compares a running sum of costs with the budget and
    ranks candidates by a quotient, so its result depends on the rounding of
    every operation.  Costs, effects, ratios and the budget are IEEE 754
    doubles here, with Python's operations in Python's order; an integer
    population (below 2^53) is the double of the same value, on which
    [population * x] and [population / n] give what Python gives. *)

Module CostingBinary64.
Import Session.
Import PrimFloat.
#[local] Open Scope float_scope.
#[local] Set Warnings "-inexact-float".

(** An [InterventionScenario] row (models/intervention.py). *)
Record InterventionScenario : Type := mkInterventionScenario {
  sc_name : string;
  interventions : list (string * list string);
  total_cost : option float;
  population_covered : option Z;
  estimated_cases_averted : option Z;
  estimated_deaths_averted : option Z;
}.

(** Default unit costs (USD) -- can be overridden per country *)
Definition DEFAULT_UNIT_COSTS : gmap string (gmap string float) :=
  list_to_map
    [ ("itn", list_to_map
         [ ("procurement", 2.50); ("distribution", 1.50);
           ("bcc_annual", 0.10); ("nets_per_capita", 0.5);
           ("replacement_years", 3) ]);
      ("irs", list_to_map
         [ ("insecticide_per_structure", 5.00); ("operations_per_structure", 3.50);
           ("mobilization_per_capita", 0.20); ("persons_per_structure", 5) ]);
      ("smc", list_to_map
         [ ("drugs_per_child_per_cycle", 0.50);
           ("delivery_per_child_per_cycle", 0.80);
           ("default_cycles", 4); ("under5_proportion", 0.18) ]);
      ("iptp", list_to_map
         [ ("drugs_per_pregnant_woman", 0.30); ("delivery_per_visit", 0.50);
           ("pregnant_proportion", 0.04); ("visits_per_pregnancy", 4) ]);
      ("vaccine", list_to_map
         [ ("vaccine_per_dose", 2.00); ("delivery_per_dose", 1.50);
           ("doses_per_child", 4); ("target_proportion", 0.03) ]);
      ("cm", list_to_map
         [ ("rdt_per_test", 0.50); ("act_per_treatment", 1.20);
           ("test_rate", 0.15); ("positivity_rate", 0.30) ]);
      ("pmc", list_to_map
         [ ("drugs_per_infant_per_dose", 0.40); ("delivery_per_dose", 0.50);
           ("doses", 3); ("infant_proportion", 0.03) ]);
      ("lsm", list_to_map
         [ ("cost_per_hectare_per_year", 150.00); ("hectares_per_1000_pop", 0.5) ]) ].

(** One item of [population_data]: a JSON object whose keys may be absent. *)
Record PopulationRow : Type := mkPopulationRow {
  admin_unit_name : option string;
  admin_unit_code : option string;
  population : option float;
}.

Record Db : Type := mkDb {
  scenarios : gmap N InterventionScenario;
}.

(** [ic.get(key, dflt)] *)
Definition get (ic : gmap string float) (key : string) (dflt : float) : float :=
  default dflt (ic !! key).

(** Calculate cost for a single intervention in a single unit. *)
Definition _calculate_intervention_cost (intervention : string) (population : float)
    (costs : gmap string (gmap string float)) (years : float) : float :=
  let ic : gmap string float := default ∅ (costs !! intervention) in
  if bool_decide (intervention = "itn") then
    let nets := population * get ic "nets_per_capita" 0.5 in
    let replacement := get ic "replacement_years" 3 in
    let cycles := years / replacement in
    nets * get ic "procurement" 2.5 * cycles
    + nets * get ic "distribution" 1.5 * cycles
    + population * get ic "bcc_annual" 0.1 * years
  else if bool_decide (intervention = "irs") then
    let structures := population / get ic "persons_per_structure" 5 in
    structures * get ic "insecticide_per_structure" 5 * years
    + structures * get ic "operations_per_structure" 3.5 * years
    + population * get ic "mobilization_per_capita" 0.2 * years
  else if bool_decide (intervention = "smc") then
    let target := population * get ic "under5_proportion" 0.18 in
    let cycles := get ic "default_cycles" 4 in
    target * get ic "drugs_per_child_per_cycle" 0.5 * cycles * years
    + target * get ic "delivery_per_child_per_cycle" 0.8 * cycles * years
  else if bool_decide (intervention = "iptp") then
    let target := population * get ic "pregnant_proportion" 0.04 in
    let visits := get ic "visits_per_pregnancy" 4 in
    target * get ic "drugs_per_pregnant_woman" 0.3 * visits * years
    + target * get ic "delivery_per_visit" 0.5 * visits * years
  else if bool_decide (intervention = "vaccine") then
    let target := population * get ic "target_proportion" 0.03 in
    let doses := get ic "doses_per_child" 4 in
    target * get ic "vaccine_per_dose" 2.0 * doses * years
    + target * get ic "delivery_per_dose" 1.5 * doses * years
  else if bool_decide (intervention = "cm") then
    let tests := population * get ic "test_rate" 0.15 in
    let treatments := tests * get ic "positivity_rate" 0.3 in
    tests * get ic "rdt_per_test" 0.5 * years
    + treatments * get ic "act_per_treatment" 1.2 * years
  else if bool_decide (intervention = "pmc") then
    let target := population * get ic "infant_proportion" 0.03 in
    let doses := get ic "doses" 3 in
    target * get ic "drugs_per_infant_per_dose" 0.4 * doses * years
    + target * get ic "delivery_per_dose" 0.5 * doses * years
  else if bool_decide (intervention = "lsm") then
    let hectares := (population / 1000) * get ic "hectares_per_1000_pop" 0.5 in
    hectares * get ic "cost_per_hectare_per_year" 150 * years
  else 0.

(** These are rough multipliers for cost-effectiveness ranking *)
Definition effect_rates : gmap string float :=
  list_to_map
    [ ("itn", 0.05); ("irs", 0.04); ("smc", 0.06); ("cm", 0.03);
      ("iptp", 0.01); ("vaccine", 0.02); ("pmc", 0.015); ("lsm", 0.005) ].

(** Simplified effect estimate (cases averted) for optimization. *)
Definition _estimate_effect (intervention : string) (population : float) : float :=
  let rate := default 0.01 (effect_rates !! intervention) in
  population * rate.

(** An entry of [ce_data]. *)
Record CeItem : Type := mkCeItem {
  unit_key : string;
  intervention : string;
  cost : float;
  effect : float;
  icer : float;
}.

(** [ce_data.sort(key=lambda x: x["icer"])].  [list.sort] is stable and
    compares keys with [<] only; on keys that [<] orders totally (no NaN)
    its result is that of the stable insertion below. *)
Fixpoint insert_by_icer (x : CeItem) (l : list CeItem) : list CeItem :=
  match l with
  | [] => [x]
  | y :: rest =>
      if icer y <? icer x then y :: insert_by_icer x rest
      else x :: y :: rest
  end.

Definition sort_by_icer (l : list CeItem) : list CeItem :=
  foldr insert_by_icer [] l.

(** The dictionary comprehension building [pop_map]; [None] when an item
    has no "admin_unit_name" (the subscript is evaluated for every item). *)
Fixpoint pop_map_of (population_data : list PopulationRow)
    (acc : gmap string PopulationRow) : option (gmap string PopulationRow) :=
  match population_data with
  | [] => Some acc
  | item :: rest =>
      match admin_unit_name item with
      | None => None
      | Some name => pop_map_of rest (<[default name (admin_unit_code item) := item]> acc)
      end
  end.

(** [pop_map.get(unit_key, {}).get("population", 0)] *)
Definition population_of (pop_map : gmap string PopulationRow) (key : string) : float :=
  match pop_map !! key with
  | Some unit_info => default 0 (population unit_info)
  | None => 0
  end.

(** Calculate cost-effectiveness for each unit-intervention pair *)
Definition ce_data_of (scenario : InterventionScenario)
    (pop_map : gmap string PopulationRow) : list CeItem :=
  flat_map
    (fun unit : string * list string =>
       let population := population_of pop_map (fst unit) in
       map (fun intervention =>
              let cost :=
                _calculate_intervention_cost intervention population
                  DEFAULT_UNIT_COSTS 5 in
              let effect := _estimate_effect intervention population in
              let icer := if 0 <? effect then cost / effect else infinity in
              mkCeItem (fst unit) intervention cost effect icer)
           (snd unit))
    (interventions scenario).

(** [optimized[key].append(v)], the list being created when [key] is new. *)
Fixpoint dict_append (d : list (string * list string)) (key v : string)
    : list (string * list string) :=
  match d with
  | [] => [(key, [v])]
  | (k, l) :: rest =>
      if bool_decide (k = key) then (k, l ++ [v]) :: rest
      else (k, l) :: dict_append rest key v
  end.

(** Select until budget exhausted: one step of the loop over [ce_data]. *)
Definition select_step (budget_constraint : float)
    (acc : list (string * list string) * float) (item : CeItem)
    : list (string * list string) * float :=
  let '(optimized, running_cost) := acc in
  if running_cost + cost item <=? budget_constraint
  then (dict_append optimized (unit_key item) (intervention item),
        running_cost + cost item)
  else (optimized, running_cost).

(** Optimize a scenario under a budget constraint.
    Uses a greedy approach based on cost-effectiveness. *)
Definition optimize_scenario (scenario_id : N) (budget_constraint : float)
    (population_data : list PopulationRow) : M Db InterventionScenario :=
  let* all := gets scenarios in
  match all !! scenario_id with
  | None => raise "Scenario not found"
  | Some scenario =>
      match pop_map_of population_data ∅ with
      | None => fun _ => KeyError "admin_unit_name"
      | Some pop_map =>
          let ce_data := ce_data_of scenario pop_map in
          let ce_data := sort_by_icer ce_data in
          let '(optimized, running_cost) :=
            fold_left (select_step budget_constraint) ce_data ([], 0) in
          let updated :=
            mkInterventionScenario (sc_name scenario) optimized (Some running_cost)
              (population_covered scenario) (estimated_cases_averted scenario)
              (estimated_deaths_averted scenario) in
          modify (fun db => mkDb (<[scenario_id := updated]> (scenarios db))) ;;
          ret updated
      end
  end.

End CostingBinary64.

(** ** String helpers of the quality checks *)

Module PyStr.

(** [c.lower()] on ASCII letters. *)
Definition lower_ascii (c : Ascii.ascii) : Ascii.ascii :=
  let n := Ascii.N_of_ascii c in
  if ((65 <=? n) && (n <=? 90))%N then Ascii.ascii_of_N (n + 32) else c.

Fixpoint lower (s : string) : string :=
  match s with
  | String.EmptyString => String.EmptyString
  | String.String c rest => String.String (lower_ascii c) (lower rest)
  end.

(** [sub in s] *)
Definition contains (sub s : string) : bool :=
  match String.index 0 sub s with
  | Some _ => true
  | None => false
  end.

(** [s in (a, b, ...)] *)
Definition one_of (s : string) (choices : list string) : bool :=
  bool_decide (s ∈ choices).

End PyStr.

(** ** The pandas operations the quality checks rely on *)

Module Pandas.

(** A data frame, through the operations [quality_check_service.py] applies
    to it.  Each field is named after the expression it stands for. *)
Class DataFrame (DF : Type) : Type := {
  (** [df.columns] *)
  columns : DF -> list string;
  (** [len(df)] *)
  len : DF -> nat;
  (** [df.size] *)
  size : DF -> nat;
  (** [int(df[col].isnull().sum())] *)
  isnull_sum : DF -> string -> nat;
  (** [int((df[a] > df[b]).sum())] *)
  count_gt : DF -> string -> string -> nat;
  (** [int((df[a] < (df[b] + df[c])).sum())] *)
  count_lt_sum : DF -> string -> string -> string -> nat;
  (** [df[col].dtype in [np.float64, np.int64, float, int]] *)
  is_number_dtype : DF -> string -> bool;
  (** [int(((df[col] < lo) | (df[col] > hi)).sum())] *)
  count_outside : DF -> string -> Q -> Q -> nat;
  (** [int((df[col] < x).sum())] *)
  count_below : DF -> string -> Q -> nat;
  (** [df.select_dtypes(include=[np.number]).columns] *)
  numeric_columns : DF -> list string;
  (** [df[col].quantile(q)] *)
  quantile : DF -> string -> Q -> Q;
  (** [int((~df[col].dropna().isin(values)).sum())] *)
  count_not_in : DF -> string -> list string -> nat;
  (** [int(df.duplicated().sum())] *)
  duplicated_sum : DF -> nat;
}.

(** *** A table of numeric and text columns *)

Inductive Column : Type :=
| NumCol (values : list (option Q))
| ObjCol (values : list (option string)).

(** Columns by name, in order; every column has one cell per row. *)
Definition Table : Type := list (string * Column).

Definition column_length (c : Column) : nat :=
  match c with
  | NumCol v => length v
  | ObjCol v => length v
  end.

Definition t_len (df : Table) : nat :=
  match df with
  | [] => 0
  | (_, c) :: _ => column_length c
  end.

Fixpoint t_col (df : Table) (name : string) : option Column :=
  match df with
  | [] => None
  | (n, c) :: rest => if bool_decide (n = name) then Some c else t_col rest name
  end.

Definition num_values (df : Table) (name : string) : list (option Q) :=
  match t_col df name with
  | Some (NumCol v) => v
  | _ => []
  end.

Definition count_true (l : list bool) : nat := length (filter (fun b => b = true) l).

Definition t_isnull_sum (df : Table) (name : string) : nat :=
  match t_col df name with
  | Some (NumCol v) => count_true ((fun x => bool_decide (x = None)) <$> v)
  | Some (ObjCol v) => count_true ((fun x => bool_decide (x = None)) <$> v)
  | None => 0
  end.

(** A comparison with a missing value (NaN) is false. *)
Definition cell_lt (a b : option Q) : bool :=
  match a, b with
  | Some x, Some y => Py.Qltb x y
  | _, _ => false
  end.

Definition cell_add (a b : option Q) : option Q :=
  match a, b with
  | Some x, Some y => Some (x + y)%Q
  | _, _ => None
  end.

Definition t_count_gt (df : Table) (a b : string) : nat :=
  count_true (zip_with (fun x y => cell_lt y x) (num_values df a) (num_values df b)).

Definition t_count_lt_sum (df : Table) (a b c : string) : nat :=
  count_true (zip_with cell_lt (num_values df a)
                (zip_with cell_add (num_values df b) (num_values df c))).

Definition t_is_number (df : Table) (name : string) : bool :=
  match t_col df name with
  | Some (NumCol _) => true
  | _ => false
  end.

Definition t_count_outside (df : Table) (name : string) (lo hi : Q) : nat :=
  count_true ((fun x => cell_lt x (Some lo) || cell_lt (Some hi) x) <$> num_values df name).

Definition t_count_below (df : Table) (name : string) (x : Q) : nat :=
  count_true ((fun v => cell_lt v (Some x)) <$> num_values df name).

Definition is_num_col (c : Column) : bool :=
  match c with
  | NumCol _ => true
  | ObjCol _ => false
  end.

Definition t_numeric_columns (df : Table) : list string :=
  fst <$> filter (fun nc => is_num_col (snd nc) = true) df.

Global Instance Qle_dec (a b : Q) : Decision (a <= b)%Q.
Proof. destruct (Qlt_le_dec b a) as [H|H]; [right|left]; [by apply Qlt_not_le|done]. Defined.

(** Linear interpolation between the order statistics (pandas' default);
    0 stands for the NaN of an empty column. *)
Definition t_quantile (df : Table) (name : string) (q : Q) : Q :=
  let present := merge_sort Qle (omap id (num_values df name)) in
  match present with
  | [] => 0%Q
  | first :: _ =>
      let pos := (inject_Z (Z.of_nat (length present - 1)) * q)%Q in
      let lo := Z.to_nat (Qfloor pos) in
      let frac := (pos - inject_Z (Qfloor pos))%Q in
      let v_lo := default first (present !! lo) in
      let v_hi := default v_lo (present !! S lo) in
      (v_lo + (v_hi - v_lo) * frac)%Q
  end.

Definition t_count_not_in (df : Table) (name : string) (values : list string) : nat :=
  match t_col df name with
  | Some (ObjCol v) =>
      count_true ((fun s => negb (bool_decide (s ∈ values))) <$> omap id v)
  | Some (NumCol v) => length (omap id v)
  | None => 0
  end.

Definition cell_eqb (a b : option Q) : bool :=
  match a, b with
  | Some x, Some y => Qeq_bool x y
  | None, None => true
  | _, _ => false
  end.

(** Is row [i] equal to row [j], column by column? *)
Definition row_eqb (df : Table) (i j : nat) : bool :=
  forallb (fun nc =>
             match snd nc with
             | NumCol v => cell_eqb (v !!! i) (v !!! j)
             | ObjCol v => bool_decide (v !!! i = v !!! j)
             end) df.

(** Rows that repeat an earlier row. *)
Definition t_duplicated_sum (df : Table) : nat :=
  count_true ((fun i => existsb (fun j => row_eqb df j i) (seq 0 i)) <$> seq 0 (t_len df)).

Global Instance Table_DataFrame : DataFrame Table := {|
  columns := fun df => fst <$> df;
  len := t_len;
  size := fun df => (t_len df * length df)%nat;
  isnull_sum := t_isnull_sum;
  count_gt := t_count_gt;
  count_lt_sum := t_count_lt_sum;
  is_number_dtype := t_is_number;
  count_outside := t_count_outside;
  count_below := t_count_below;
  numeric_columns := t_numeric_columns;
  quantile := t_quantile;
  count_not_in := t_count_not_in;
  duplicated_sum := t_duplicated_sum;
|}.

End Pandas.

(** ** services/quality_check_service.py *)

Module QualityCheckService.
Import Session Enums Json Pandas.
#[local] Open Scope Q_scope.

Definition status_value (s : QualityCheckStatus) : string :=
  match s with
  | QC_PENDING => "pending"
  | QC_RUNNING => "running"
  | QC_PASSED => "passed"
  | QC_WARNING => "warning"
  | QC_FAILED => "failed"
  end.

(** models/data_source.py *)
Record DataSource : Type := mkDataSource {
  ds_id : N;
  ds_name : string;
  file_path : option string;
  file_format : string;
  disaggregation : option (gmap string json);
}.

Record DataQualityCheck : Type := mkDataQualityCheck {
  data_source_id : N;
  check_type : string;
  status : string;
  score : option Q;
  issues_found : nat;
  message : string;
  details : list (string * json);
}.

(** schemas/data_source.py *)
Record QualityReportResponse : Type := mkQualityReportResponse {
  r_data_source_id : N;
  r_data_source_name : string;
  overall_score : option Q;
  checks : list DataQualityCheck;
  recommendations : list string;
}.

Definition jnat (n : nat) : json := JNum (inject_Z (Z.of_nat n)).
Definition qnat (n : nat) : Q := inject_Z (Z.of_nat n).

(** [details[key] = value] *)
Fixpoint dict_set (d : list (string * json)) (key : string) (value : json)
    : list (string * json) :=
  match d with
  | [] => [(key, value)]
  | (k, v) :: rest =>
      if bool_decide (k = key) then (k, value) :: rest
      else (k, v) :: dict_set rest key value
  end.

Section Checks.

Context {DF : Type} `{DataFrame DF}.

(** The files under [settings.UPLOAD_DIR] that pandas reads into a frame,
    by path, and the stored checks of the data source. *)
Record Db : Type := mkDb {
  files : gmap string DF;
  quality_checks : list DataQualityCheck;
}.

(** Load data from file into a DataFrame. *)
Definition _load_data (data_source : DataSource) (db : Db) : option DF :=
  match file_path data_source with
  | None => None
  | Some path =>
      if bool_decide (path = "") then None
      else if PyStr.one_of (file_format data_source) ["csv"; "xlsx"; "xls"; "geojson"; "json"]
      then files db !! path
      else None
  end.

(** Check for missing values and completeness. *)
Definition _check_completeness (df : DF) (data_source : DataSource)
    : Q * nat * string * list (string * json) :=
  let total_cells := size df in
  let missing_cells := sum_list ((isnull_sum df) <$> columns df) in
  let missing_pct :=
    if bool_decide (0 < total_cells)%nat
    then qnat missing_cells / qnat total_cells * 100 else 0 in
  let '(issues, column_missing) :=
    fold_left
      (fun (acc : list string * list (string * json)) (col : string) =>
         let '(issues, column_missing) := acc in
         let col_missing := isnull_sum df col in
         if bool_decide (0 < col_missing)%nat then
           let col_pct := qnat col_missing / qnat (len df) * 100 in
           let column_missing :=
             dict_set column_missing col
               (JObj [("missing_count", jnat col_missing);
                      ("missing_pct", JNum (Py.round col_pct 1))]) in
           if Py.Qltb 10 col_pct
           then (issues ++ [col +:+ ": " +:+ Py.format_f 1 col_pct +:+ "% missing"],
                 column_missing)
           else (issues, column_missing)
         else (issues, column_missing))
      (columns df) ([], []) in
  let score := Qmax 0 (1 - missing_pct / 100) in
  let message := Py.format_f 1 missing_pct +:+ "% of data cells are missing" in
  (Py.round score 3, length issues, message,
   [("overall_missing_pct", JNum (Py.round missing_pct 1));
    ("columns", JObj column_missing)]).

(** The loop over [coverage_cols] / [count_cols] of [_check_consistency]. *)
Definition numeric_rule (df : DF) (cols : list string)
    (count_of : string -> nat) (issue : string -> nat -> string)
    (detail_key : string -> string)
    (acc : list string * list (string * json)) : list string * list (string * json) :=
  fold_left
    (fun (acc : list string * list (string * json)) (col : string) =>
       let '(issues, details) := acc in
       if is_number_dtype df col then
         let count := count_of col in
         if bool_decide (0 < count)%nat
         then (issues ++ [issue col count], dict_set details (detail_key col) (jnat count))
         else (issues, details)
       else (issues, details))
    cols acc.

(** Check logical consistency of data. *)
Definition _check_consistency (df : DF) (data_source : DataSource)
    : Q * nat * string * list (string * json) :=
  let issues : list string := [] in
  let details : list (string * json) := [] in
  (* Check deaths <= cases *)
  let '(issues, details) :=
    if bool_decide ("cases" ∈ columns df) && bool_decide ("deaths" ∈ columns df) then
      let count := count_gt df "deaths" "cases" in
      if bool_decide (0 < count)%nat
      then (issues ++ ["Deaths > cases in " +:+ pretty count +:+ " rows"],
            dict_set details "deaths_gt_cases" (jnat count))
      else (issues, details)
    else (issues, details) in
  (* Check confirmed + presumed <= total *)
  let '(issues, details) :=
    if forallb (fun c => bool_decide (c ∈ columns df))
               ["total_cases"; "confirmed_cases"; "presumed_cases"] then
      let count := count_lt_sum df "total_cases" "confirmed_cases" "presumed_cases" in
      if bool_decide (0 < count)%nat
      then (issues ++ ["Total < confirmed + presumed in " +:+ pretty count +:+ " rows"],
            dict_set details "total_lt_sum" (jnat count))
      else (issues, details)
    else (issues, details) in
  (* Check coverage 0-100% *)
  let coverage_cols :=
    filter (fun c => PyStr.contains "coverage" (PyStr.lower c) = true) (columns df) in
  let '(issues, details) :=
    numeric_rule df coverage_cols
      (fun col => count_outside df col 0 100)
      (fun col count => col +:+ ": " +:+ pretty count +:+ " values outside 0-100%")
      (fun col => "invalid_" +:+ col)
      (issues, details) in
  (* Check negative values in count columns *)
  let count_cols :=
    filter (fun c => existsb (fun kw => PyStr.contains kw (PyStr.lower c))
                             ["cases"; "deaths"; "population"; "tests"] = true)
           (columns df) in
  let '(issues, details) :=
    numeric_rule df count_cols
      (fun col => count_below df col 0)
      (fun col count => col +:+ ": " +:+ pretty count +:+ " negative values")
      (fun col => "negative_" +:+ col)
      (issues, details) in
  let score := Qmax 0 (1 - qnat (length issues) * (15 # 100)) in
  let message :=
    if bool_decide (issues <> [])
    then pretty (length issues) +:+ " consistency issues found"
    else "No consistency issues found" in
  (Py.round score 3, length issues, message, details).

(** Detect statistical outliers using IQR method. *)
Definition _check_outliers (df : DF) (data_source : DataSource)
    : Q * nat * string * list (string * json) :=
  let exclude_cols := ["id"; "year"; "month"; "day"; "date"; "code"] in
  let '(issues, details) :=
    fold_left
      (fun (acc : list string * list (string * json)) (col : string) =>
         let '(issues, details) := acc in
         if PyStr.one_of (PyStr.lower col) exclude_cols then (issues, details)
         else
           let q1 := quantile df col (25 # 100) in
           let q3 := quantile df col (75 # 100) in
           let iqr := q3 - q1 in
           if Qeq_bool iqr 0 then (issues, details)
           else
             let outlier_count := count_outside df col (q1 - 3 * iqr) (q3 + 3 * iqr) in
             if bool_decide (0 < outlier_count)%nat then
               let outlier_pct := qnat outlier_count / qnat (len df) * 100 in
               let issues :=
                 if Py.Qltb 5 outlier_pct
                 then issues ++ [col +:+ ": " +:+ pretty outlier_count +:+ " outliers ("
                                   +:+ Py.format_f 1 outlier_pct +:+ "%)"]
                 else issues in
               (issues,
                dict_set details col
                  (JObj [("outlier_count", jnat outlier_count);
                         ("outlier_pct", JNum (Py.round outlier_pct 1));
                         ("q1", JNum (Py.round q1 2));
                         ("q3", JNum (Py.round q3 2));
                         ("iqr", JNum (Py.round iqr 2))]))
             else (issues, details))
      (numeric_columns df) ([], []) in
  let score := Qmax 0 (1 - qnat (length issues) * (1 # 10)) in
  let message :=
    if bool_decide (issues <> [])
    then pretty (length issues) +:+ " columns with significant outliers"
    else "No significant outliers detected" in
  (Py.round score 3, length issues, message, details).

(** Check data disaggregation by age, sex, geography. *)
Definition _check_disaggregation (df : DF) (data_source : DataSource)
    : Q * nat * string * list (string * json) :=
  let issues : list string := [] in
  let details : list (string * json) :=
    [("has_age", JBool false); ("has_sex", JBool false); ("has_geography", JBool false)] in
  let expected : gmap string json := default ∅ (disaggregation data_source) in
  (* Check age disaggregation *)
  let age_cols := filter (fun c => PyStr.contains "age" (PyStr.lower c) = true) (columns df) in
  let '(issues, details) :=
    if bool_decide (age_cols <> []) then (issues, dict_set details "has_age" (JBool true))
    else if get_truthy expected "age"
    then (issues ++ ["Expected age disaggregation not found"], details)
    else (issues, details) in
  (* Check sex disaggregation *)
  let sex_cols :=
    filter (fun c => PyStr.one_of (PyStr.lower c) ["sex"; "gender"] = true) (columns df) in
  let '(issues, details) :=
    if bool_decide (sex_cols <> []) then
      fold_left
        (fun (acc : list string * list (string * json)) (col : string) =>
           let '(issues, details) := acc in
           let valid_values := ["Male"; "Female"; "M"; "F"; "male"; "female"] in
           let count := count_not_in df col valid_values in
           if bool_decide (0 < count)%nat
           then (issues ++ ["Invalid " +:+ col +:+ " values in " +:+ pretty count +:+ " rows"],
                 dict_set details "invalid_sex_values" (jnat count))
           else (issues, details))
        sex_cols (issues, dict_set details "has_sex" (JBool true))
    else if get_truthy expected "sex"
    then (issues ++ ["Expected sex disaggregation not found"], details)
    else (issues, details) in
  (* Check geographic disaggregation *)
  let geo_cols :=
    filter (fun c => PyStr.one_of (PyStr.lower c)
                       ["district"; "region"; "province"; "admin1"; "admin2"] = true)
           (columns df) in
  let '(issues, details) :=
    if bool_decide (geo_cols <> [])
    then (issues, dict_set details "has_geography" (JBool true))
    else if get_truthy expected "geography"
    then (issues ++ ["Expected geographic disaggregation not found"], details)
    else (issues, details) in
  let score := Qmax 0 (1 - qnat (length issues) * (2 # 10)) in
  let message :=
    if bool_decide (issues <> [])
    then pretty (length issues) +:+ " disaggregation issues found"
    else "Disaggregation checks passed" in
  (Py.round score 3, length issues, message, details).

(** Check for duplicate rows. *)
Definition _check_duplicates (df : DF) (data_source : DataSource)
    : Q * nat * string * list (string * json) :=
  let dup_count := duplicated_sum df in
  let total_rows := len df in
  let dup_pct :=
    if bool_decide (0 < total_rows)%nat
    then qnat dup_count / qnat total_rows * 100 else 0 in
  let score := Qmax 0 (1 - dup_pct / 50) in
  let message :=
    pretty dup_count +:+ " duplicate rows found (" +:+ Py.format_f 1 dup_pct +:+ "%)" in
  (Py.round score 3,
   if bool_decide (0 < dup_count)%nat then 1%nat else 0%nat,
   message,
   [("duplicate_count", jnat dup_count); ("duplicate_pct", JNum (Py.round dup_pct 1))]).

Definition checks_to_run
    : list (QualityCheckType
            * (DF -> DataSource -> Q * nat * string * list (string * json))) :=
  [ (COMPLETENESS, _check_completeness);
    (CONSISTENCY, _check_consistency);
    (OUTLIERS, _check_outliers);
    (DISAGGREGATION, _check_disaggregation);
    (DUPLICATES, _check_duplicates) ].

(** Run all quality checks and return a report. *)
Definition run_all_checks (data_source : DataSource) : M Db QualityReportResponse :=
  (* Delete existing checks for this data source *)
  modify (fun db =>
    mkDb (files db)
         (filter (fun c => data_source_id c <> ds_id data_source) (quality_checks db))) ;;
  (* Load data *)
  let* loaded := gets (_load_data data_source) in
  match loaded with
  | None =>
      ret (mkQualityReportResponse (ds_id data_source) (ds_name data_source) None []
             ["Could not load data file for quality checks"])
  | Some df =>
      let '(check_records, scores) :=
        fold_left
          (fun (acc : list DataQualityCheck * list Q)
               (check : QualityCheckType
                        * (DF -> DataSource -> Q * nat * string * list (string * json))) =>
             let '(check_records, scores) := acc in
             let '(check_type, check_fn) := check in
             let '(score, issues_found, message, details) := check_fn df data_source in
             let status :=
               if Py.Qltb score (5 # 10) then QC_FAILED
               else if Py.Qltb score (8 # 10) then QC_WARNING
               else QC_PASSED in
             let record :=
               mkDataQualityCheck (ds_id data_source) (check_type_value check_type)
                 (status_value status) (Some score) issues_found message details in
             (check_records ++ [record], scores ++ [score]))
          checks_to_run ([], []) in
      modify (fun db => mkDb (files db) (quality_checks db ++ check_records)) ;;
      let overall_score :=
        if bool_decide (scores <> [])
        then fold_left Qplus scores 0 / qnat (length scores) else 0 in
      let recommendations :=
        fold_left
          (fun (recommendations : list string) (rec : DataQualityCheck) =>
             match score rec with
             | Some s =>
                 if Py.Qltb s (7 # 10)
                 then recommendations ++
                        ["Improve " +:+ check_type rec +:+ ": score is "
                           +:+ Py.format_pct 0 s]
                 else recommendations
             | None => recommendations
             end)
          check_records [] in
      ret (mkQualityReportResponse (ds_id data_source) (ds_name data_source)
             (Some overall_score) check_records recommendations)
  end.

End Checks.

End QualityCheckService.

(** ** services/data_source_service.py (the stored report's recommendations) *)

Module DataSourceService.
Import QualityCheckService.
#[local] Open Scope Q_scope.

Definition _generate_recommendations (checks : list DataQualityCheck) : list string :=
  fold_left
    (fun (recommendations : list string) (check : DataQualityCheck) =>
       let recommendations :=
         match score check with
         | Some s =>
             if Py.Qltb s (7 # 10)
             then recommendations ++
                    ["Improve " +:+ check_type check +:+ ": score is "
                       +:+ Py.format_pct 0 s]
             else recommendations
         | None => recommendations
         end in
       if bool_decide (0 < issues_found check)%nat
       then recommendations ++
              ["Review " +:+ pretty (issues_found check) +:+ " issues in "
                 +:+ check_type check +:+ " check"]
       else recommendations)
    checks [].

End DataSourceService.

(* ===================================================================== *)
(** * Properties *)
(* ===================================================================== *)

#[local] Set Warnings "-clear-no-such-hyp".

(** ** Python runtime helpers *)

Module PyFacts.

Lemma Qltb_spec (a b : Q) : Py.Qltb a b = true <-> (a < b)%Q.
Proof.
  unfold Py.Qltb. rewrite negb_true_iff. split.
  - intros H. apply Qnot_le_lt. intros Hle. apply Qle_bool_iff in Hle. congruence.
  - intros H. destruct (Qle_bool b a) eqn:E; [|done].
    apply Qle_bool_iff in E. exfalso. by apply (Qlt_not_le _ _ H).
Qed.

Example format_f_rounds_half_even :
  Py.format_f 0 (25 # 2) = "12" /\ Py.format_f 0 (27 # 2) = "14" /\
  Py.format_f 1 (1234 # 100) = "12.3" /\ Py.format_pct 0 (45 # 100) = "45%".
Proof. vm_compute. repeat split; reflexivity. Qed.

Example join_commas : Py.join ", " ["a"; "b"; "c"] = "a, b, c".
Proof. reflexivity. Qed.

Example int_truncates :
  Py.int (725 # 2) = 362%Z /\ Py.int (- (725 # 2)) = (-362)%Z.
Proof. vm_compute. split; reflexivity. Qed.

End PyFacts.

(** ** The order of binary64 values *)

Module Binary64Facts.
Import PrimFloat SpecFloat FloatOps FloatAxioms.

(** The order of binary64 values, through their specification
    [SFcompare]. *)
Lemma SFleb_trans (x y z : spec_float) :
  SFleb x y = true -> SFleb y z = true -> SFleb x z = true.
Proof.
  unfold SFleb, SFcompare.
  destruct x as [sx|sx| |sx mx ex], y as [sy|sy| |sy my ey], z as [sz|sz| |sz mz ez];
    try done;
    repeat match goal with s : bool |- _ => destruct s end; try done;
    change (Pos.compare_cont Eq) with Pos.compare;
    destruct (Z.compare_spec ex ey), (Z.compare_spec ey ez), (Z.compare_spec ex ez);
    try done; try lia; subst;
    destruct (Pos.compare_spec mx my), (Pos.compare_spec my mz),
      (Pos.compare_spec mx mz); try done; try lia.
Qed.

Lemma SFleb_total (x y : spec_float) :
  x <> S754_nan -> y <> S754_nan -> SFleb x y = true \/ SFleb y x = true.
Proof.
  unfold SFleb, SFcompare.
  destruct x as [sx|sx| |sx mx ex], y as [sy|sy| |sy my ey]; try done;
    repeat match goal with s : bool |- _ => destruct s end; auto;
    change (Pos.compare_cont Eq) with Pos.compare; intros _ _;
    destruct (Z.compare_spec ex ey), (Z.compare_spec ey ex); auto; try lia; subst;
    destruct (Pos.compare_spec mx my), (Pos.compare_spec my mx); auto; lia.
Qed.

Lemma SFltb_leb (x y : spec_float) : SFltb x y = true -> SFleb x y = true.
Proof. unfold SFltb, SFleb. by destruct (SFcompare x y) as [[]|]. Qed.

Lemma SFltb_not_leb (x y : spec_float) : SFltb x y = true -> SFleb y x = false.
Proof.
  unfold SFltb, SFleb, SFcompare.
  destruct x as [sx|sx| |sx mx ex], y as [sy|sy| |sy my ey]; try done;
    repeat match goal with s : bool |- _ => destruct s end; try done;
    change (Pos.compare_cont Eq) with Pos.compare;
    destruct (Z.compare_spec ex ey), (Z.compare_spec ey ex); try done; try lia; subst;
    destruct (Pos.compare_spec mx my), (Pos.compare_spec my mx); try done; lia.
Qed.

Lemma SFleb_infinity (y : spec_float) :
  SFleb (S754_infinity false) y = true -> y = S754_infinity false.
Proof. by destruct y as [[]|[]| |[] ? ?]. Qed.

Lemma not_nan (x : float) : is_nan x = false -> Prim2SF x <> S754_nan.
Proof.
  unfold is_nan. intros H Hnan. apply negb_false_iff in H.
  rewrite FloatAxioms.eqb_spec, Hnan in H. discriminate.
Qed.

Lemma leb_trans (x y z : float) :
  (x <=? y)%float = true -> (y <=? z)%float = true -> (x <=? z)%float = true.
Proof. rewrite !FloatAxioms.leb_spec. apply SFleb_trans. Qed.

Lemma leb_total (x y : float) :
  is_nan x = false -> is_nan y = false ->
  (x <=? y)%float = true \/ (y <=? x)%float = true.
Proof. intros Hx Hy. rewrite !FloatAxioms.leb_spec. by apply SFleb_total; apply not_nan. Qed.

Lemma ltb_leb (x y : float) : (x <? y)%float = true -> (x <=? y)%float = true.
Proof. rewrite FloatAxioms.ltb_spec, FloatAxioms.leb_spec. apply SFltb_leb. Qed.

Lemma ltb_not_leb (x y : float) : (x <? y)%float = true -> (y <=? x)%float = false.
Proof. rewrite FloatAxioms.ltb_spec, FloatAxioms.leb_spec. apply SFltb_not_leb. Qed.

(** [not (y < x)] is [x <= y] when neither is NaN. *)
Lemma not_ltb_leb (x y : float) :
  is_nan x = false -> is_nan y = false ->
  (y <? x)%float = false -> (x <=? y)%float = true.
Proof.
  intros Hx Hy. rewrite FloatAxioms.ltb_spec, FloatAxioms.leb_spec.
  apply not_nan in Hx, Hy. revert Hx Hy.
  unfold SFltb, SFleb, SFcompare.
  destruct (Prim2SF x) as [sx|sx| |sx mx ex], (Prim2SF y) as [sy|sy| |sy my ey];
    try done;
    repeat match goal with s : bool |- _ => destruct s end; try done;
    change (Pos.compare_cont Eq) with Pos.compare; intros _ _;
    destruct (Z.compare_spec ex ey), (Z.compare_spec ey ex); try done; try lia; subst;
    destruct (Pos.compare_spec mx my), (Pos.compare_spec my mx); try done; lia.
Qed.

Lemma leb_infinity (y : float) : (infinity <=? y)%float = true -> y = infinity.
Proof.
  rewrite FloatAxioms.leb_spec. intros H. apply Prim2SF_inj.
  change (Prim2SF infinity) with (S754_infinity false) in *.
  by apply SFleb_infinity.
Qed.

Lemma leb_not_nan (x y : float) :
  (x <=? y)%float = true -> is_nan x = false /\ is_nan y = false.
Proof.
  rewrite FloatAxioms.leb_spec. unfold is_nan. rewrite !FloatAxioms.eqb_spec.
  unfold SFleb, SFeqb, SFcompare.
  destruct (Prim2SF x) as [sx|sx| |sx mx ex], (Prim2SF y) as [sy|sy| |sy my ey];
    try done;
    repeat match goal with s : bool |- _ => destruct s end; try done;
    change (Pos.compare_cont Eq) with Pos.compare; intros _;
    rewrite ?Z.compare_refl, ?Pos.compare_refl; by split.
Qed.

End Binary64Facts.

(** ** Workflow state machine *)

Module WorkflowFacts.
Import Session Enums Json WorkflowService.

Definition initialized (db : Db) : Prop := forall s, is_Some (workflow_states db !! s).
Definition reopened (st : WorkflowState) : WorkflowState :=
  with_completed_by None (with_completed_at None (with_status IN_PROGRESS st)).

Definition cascade_inner (step downstream_step : WorkflowStep)
    (prereq : WorkflowStep * PrerequisiteType) : M Db unit :=
  let '(prereq_step, prereq_type) := prereq in
  if bool_decide (prereq_step = step) && bool_decide (prereq_type = BLOCKING)
  then
    let* downstream_state := _get_state downstream_step in
    if bool_decide (status downstream_state = COMPLETED)
    then
      update_state downstream_step (with_status IN_PROGRESS) ;;
      update_state downstream_step (with_completed_at None) ;;
      update_state downstream_step (with_completed_by None)
    else ret tt
  else ret tt.

Definition reset_if (ps : list (WorkflowStep * PrerequisiteType)) (s : WorkflowStep)
    (st : WorkflowState) : WorkflowState :=
  if bool_decide ((s, BLOCKING) ∈ ps) && bool_decide (status st = COMPLETED)
  then reopened st else st.

Lemma set_states_id db : set_states (fun m => m) db = db.
Proof. by destruct db. Qed.

Lemma set_states_compose f g db : set_states f (set_states g db) = set_states (f ∘ g) db.
Proof. by destruct db. Qed.

Lemma get_state_ok db s st :
  workflow_states db !! s = Some st -> _get_state s db = Ok st db.
Proof. intros H. unfold _get_state, bind, gets. rewrite H. reflexivity. Qed.

Lemma alter_reopened t (m : gmap WorkflowStep WorkflowState) :
  alter (with_completed_by None) t
    (alter (with_completed_at None) t (alter (with_status IN_PROGRESS) t m))
  = alter reopened t m.
Proof. rewrite !alter_alter_eq. reflexivity. Qed.

Lemma reopen_updates_ok t db :
  (update_state t (with_status IN_PROGRESS) ;;
   update_state t (with_completed_at None) ;;
   update_state t (with_completed_by None)) db
  = Ok tt (set_states (alter reopened t) db).
Proof.
  unfold update_state, bind, modify. rewrite !set_states_compose.
  destruct db; unfold set_states; simpl. by rewrite alter_reopened.
Qed.

Lemma set_states_alter_ext f g t db st :
  workflow_states db !! t = Some st -> f st = g st ->
  set_states (alter f t) db = set_states (alter g t) db.
Proof.
  intros Hst Hfg. destruct db as [m a b c]; unfold set_states; simpl in *. f_equal.
  apply alter_ext. intros x Hx. congruence.
Qed.

Lemma reset_if_nil s st : reset_if [] s st = st.
Proof. unfold reset_if. rewrite bool_decide_eq_false_2; [done | apply not_elem_of_nil]. Qed.

Lemma reset_if_reopened ps s st : reset_if ps s (reopened st) = reopened st.
Proof. unfold reset_if. simpl. by rewrite andb_false_r. Qed.

Lemma cascade_inner_loop s t ps : forall db st,
  workflow_states db !! t = Some st ->
  for_each ps (cascade_inner s t) db = Ok tt (set_states (alter (reset_if ps s) t) db).
Proof.
  induction ps as [|[p ty] ps IH]; intros db st Hst.
  - simpl. unfold ret. f_equal.
    rewrite (set_states_alter_ext _ id t db st Hst (reset_if_nil s st)).
    destruct db; unfold set_states; simpl. f_equal. symmetry. by apply alter_id.
  - cbn [for_each]. unfold bind at 1. unfold cascade_inner at 1.
    destruct (bool_decide (p = s) && bool_decide (ty = BLOCKING)) eqn:Hm.
    + apply andb_true_iff in Hm as [Hp Hty].
      apply bool_decide_eq_true_1 in Hp, Hty. subst p ty.
      unfold bind at 1. rewrite (get_state_ok _ _ _ Hst).
      destruct (bool_decide (status st = COMPLETED)) eqn:Hc.
      * rewrite reopen_updates_ok.
        rewrite (IH _ (reopened st)).
        2:{ destruct db; simpl in *. rewrite lookup_alter_eq, Hst. done. }
        f_equal. rewrite set_states_compose. 
        destruct db as [m a b c]; unfold set_states; simpl in *. f_equal.
        rewrite alter_alter_eq. apply alter_ext. intros x Hx.
        assert (x = st) as -> by congruence. simpl.
        rewrite reset_if_reopened. unfold reset_if.
        rewrite Hc, bool_decide_eq_true_2; [done | apply list_elem_of_here].
      * unfold ret. rewrite (IH _ st Hst). f_equal.
        apply (set_states_alter_ext _ _ _ _ st Hst).
        unfold reset_if. by rewrite Hc, !andb_false_r.
    + unfold ret. rewrite (IH _ st Hst). f_equal.
      apply (set_states_alter_ext _ _ _ _ st Hst).
      unfold reset_if.
      assert (bool_decide ((s, BLOCKING) ∈ ps) = bool_decide ((s, BLOCKING) ∈ (p, ty) :: ps))
        as ->; [|done].
      apply bool_decide_ext. rewrite elem_of_cons.
      split; [tauto|]. intros [Heq | ?]; [|done].
      inversion Heq; subst. rewrite !bool_decide_eq_true_2 in Hm by done. done.
Qed.

Lemma cascade_loop s l : forall db,
  (forall t, t ∈ l -> is_Some (workflow_states db !! t)) ->
  for_each l (fun t => for_each (PREREQUISITES t) (cascade_inner s t)) db
  = Ok tt (set_states (fun m => foldl (fun m t => alter (reset_if (PREREQUISITES t) s) t m) m l) db).
Proof.
  induction l as [|t l IH]; intros db Hall.
  - simpl. unfold ret. by rewrite set_states_id.
  - cbn [for_each]. unfold bind at 1.
    destruct (Hall t) as [st Hst]; [apply list_elem_of_here|].
    rewrite (cascade_inner_loop s t _ db st Hst).
    rewrite IH.
    + by rewrite set_states_compose.
    + intros u Hu. destruct db; simpl. rewrite lookup_alter_is_Some.
      apply Hall. by apply list_elem_of_further.
Qed.

Lemma lookup_cascade s l : forall (m : gmap WorkflowStep WorkflowState) u,
  NoDup l ->
  foldl (fun m t => alter (reset_if (PREREQUISITES t) s) t m) m l !! u
  = if bool_decide (u ∈ l) then reset_if (PREREQUISITES u) s <$> m !! u else m !! u.
Proof.
  induction l as [|t l IH]; intros m u Hnd.
  - cbn [foldl]. rewrite bool_decide_eq_false_2; [done | apply not_elem_of_nil].
  - apply NoDup_cons in Hnd as [Hnt Hnd]. cbn [foldl]. rewrite IH by done.
    destruct (decide (u = t)) as [->|Hne].
    + rewrite (bool_decide_eq_false_2 (t ∈ l)) by done.
      rewrite bool_decide_eq_true_2 by apply list_elem_of_here.
      by rewrite lookup_alter_eq.
    + rewrite lookup_alter_ne by done.
      assert (bool_decide (u ∈ l) = bool_decide (u ∈ t :: l)) as ->; [|done].
      apply bool_decide_ext. rewrite elem_of_cons. split; [tauto|]. intros [?|?]; [congruence|done].
Qed.

Definition reopen_map (s : WorkflowStep) (m : gmap WorkflowStep WorkflowState)
    : gmap WorkflowStep WorkflowState :=
  foldl (fun m t => alter (reset_if (PREREQUISITES t) s) t m)
        (alter reopened s m) WORKFLOW_STEP_ORDER.

Lemma WORKFLOW_STEP_ORDER_complete s : s ∈ WORKFLOW_STEP_ORDER.
Proof. destruct s; unfold WORKFLOW_STEP_ORDER; set_solver. Qed.

Lemma WORKFLOW_STEP_ORDER_NoDup : NoDup WORKFLOW_STEP_ORDER.
Proof.
  unfold WORKFLOW_STEP_ORDER.
  repeat (apply NoDup_cons; split; [set_solver|]). apply NoDup_nil_2.
Qed.

Lemma no_self_prerequisite s ty : (s, ty) ∉ PREREQUISITES s.
Proof. destruct s; simpl; set_solver. Qed.

Lemma lookup_reopen_map s m u :
  reopen_map s m !! u =
  if decide (u = s) then reopened <$> m !! s
  else reset_if (PREREQUISITES u) s <$> m !! u.
Proof.
  unfold reopen_map. rewrite lookup_cascade by apply WORKFLOW_STEP_ORDER_NoDup.
  rewrite bool_decide_eq_true_2 by apply WORKFLOW_STEP_ORDER_complete.
  destruct (decide (u = s)) as [->|Hne].
  - rewrite lookup_alter_eq. destruct (m !! s) as [st|]; [|done]. simpl. f_equal.
    apply reset_if_reopened.
  - by rewrite lookup_alter_ne.
Qed.

Lemma get_step_ok db s st :
  workflow_states db !! s = Some st ->
  exists resp, get_step s db = Ok resp db /\
    r_status resp = status st /\ r_completed_at resp = completed_at st /\
    r_completion_percentage resp = completion_percentage st.
Proof.
  intros Hst. unfold get_step, _get_all_states, bind, gets. rewrite Hst.
  destruct (_get_prerequisite_status s (workflow_states db)) as [b nb].
  eexists. split; [reflexivity|]. simpl. done.
Qed.

Lemma reopen_step_unfold s :
  reopen_step s =
  (let* state := _get_state s in
   (update_state s (with_status IN_PROGRESS) ;;
    update_state s (with_completed_at None) ;;
    update_state s (with_completed_by None)) ;;
   for_each WORKFLOW_STEP_ORDER
     (fun t => for_each (PREREQUISITES t) (cascade_inner s t)) ;;
   get_step s).
Proof. reflexivity. Qed.

Lemma initialized_set_states db f :
  (forall m u, is_Some (f m !! u) <-> is_Some (m !! u)) ->
  initialized db -> initialized (set_states f db).
Proof. intros Hf Hi u. destruct db; simpl in *. apply Hf, Hi. Qed.

Lemma reopen_step_run db s :
  initialized db ->
  reopen_step s db = get_step s (set_states (reopen_map s) db).
Proof.
  intros Hi. destruct (Hi s) as [st Hst].
  rewrite reopen_step_unfold. unfold bind at 1. rewrite (get_state_ok _ _ _ Hst).
  unfold bind at 1. rewrite reopen_updates_ok.
  unfold bind at 1. rewrite cascade_loop.
  - by rewrite set_states_compose.
  - intros t _. apply initialized_set_states; [|done].
    intros m u. apply lookup_alter_is_Some.
Qed.

Lemma is_Some_reopen_map s m u : is_Some (reopen_map s m !! u) <-> is_Some (m !! u).
Proof.
  rewrite lookup_reopen_map. destruct (decide (u = s)) as [->|]; by rewrite fmap_is_Some.
Qed.

Lemma reopen_map_idemp s m : reopen_map s (reopen_map s m) = reopen_map s m.
Proof.
  apply map_eq. intros u. rewrite !lookup_reopen_map.
  destruct (decide (u = s)) as [->|Hne].
  - rewrite decide_True by done. destruct (m !! s); [|done]. simpl. done.
  - destruct (m !! u) as [st|]; [|done]. simpl. f_equal.
    unfold reset_if. destruct (bool_decide (_ ∈ _)); [|done]. simpl.
    destruct (bool_decide (status st = COMPLETED)) eqn:Hc; [done|]. by rewrite Hc.
Qed.

Definition reopened_row (st : WorkflowState) : WorkflowState :=
  mkWorkflowState IN_PROGRESS (completion_percentage st) (notes st) (data st)
    (validation_errors st) None None.

Lemma prerequisite_index a ty u :
  (a, ty) ∈ PREREQUISITES u -> step_index u = S (step_index a).
Proof.
  destruct u; simpl; intros H;
    try (apply list_elem_of_singleton in H; injection H as -> ->; reflexivity).
  by apply not_elem_of_nil in H.
Qed.

(** *** Sample projects *)

Definition fresh_state : WorkflowState :=
  mkWorkflowState NOT_STARTED 0 None None None None None.

Definition done_state (at_time : Z) : WorkflowState :=
  mkWorkflowState COMPLETED 100 None None None (Some at_time) (Some 1%N).

(** A project right after its creation. *)
Definition new_project : Db :=
  mkDb (list_to_map ((fun s => (s, fresh_state)) <$> WORKFLOW_STEP_ORDER)) [] [] [].

(** A project whose first three steps are completed. *)
Definition three_completed : Db :=
  mkDb (<[PLANNING_PREPAREDNESS := done_state 10]>
          (<[DATA_ASSEMBLY := done_state 20]>
             (<[SITUATION_ANALYSIS := done_state 30]> (workflow_states new_project))))
       [] [] [].

Example initialize_workflow_new_project :
  initialize_workflow (mkDb ∅ [] [] []) = Ok tt new_project.
Proof. vm_compute. reflexivity. Qed.

Lemma new_project_initialized : initialized new_project.
Proof. intros s. destruct s; vm_compute; eauto. Qed.

(** The states exist from the creation of the project on: the operations
    below keep every row. *)
Lemma initialize_workflow_initialized db :
  exists db', initialize_workflow db = Ok tt db' /\ initialized db'.
Proof.
  eexists. split; [reflexivity|]. intros s. destruct db as [m a b c]. simpl.
  destruct s; rewrite ?lookup_insert_eq, ?lookup_insert_ne by done;
    try (by eexists); rewrite lookup_insert_eq; by eexists.
Qed.

(** C2: reopen_step cascades exactly one level.  The target step goes back
    to in_progress with its completion timestamp and completer cleared; a
    step other than the target is reset in the same way exactly when its
    prerequisite list names the target as BLOCKING and it is completed, and
    is left as it was otherwise; in particular a dependent of a dependent
    keeps its state (a completed one stays completed). *)
Theorem reopen_step_cascades_one_level (db : Db) (s : WorkflowStep) :
  initialized db ->
  exists resp db',
    reopen_step s db = Ok resp db' /\
    (forall st, workflow_states db !! s = Some st ->
       workflow_states db' !! s = Some (reopened_row st)) /\
    (forall t st, t <> s -> workflow_states db !! t = Some st ->
       workflow_states db' !! t =
         Some (if bool_decide ((s, BLOCKING) ∈ PREREQUISITES t)
                  && bool_decide (status st = COMPLETED)
               then reopened_row st else st)) /\
    (forall t u st,
       (s, BLOCKING) ∈ PREREQUISITES t -> (t, BLOCKING) ∈ PREREQUISITES u ->
       workflow_states db !! u = Some st ->
       workflow_states db' !! u = Some st) /\
    data_sources db' = data_sources db /\
    strat_configs db' = strat_configs db /\
    strat_results db' = strat_results db.
Proof.
  intros Hi. rewrite (reopen_step_run db s Hi).
  destruct (Hi s) as [st0 Hst0].
  destruct (get_step_ok (set_states (reopen_map s) db) s (reopened st0)) as (resp & Hg & _).
  { destruct db; simpl in *. rewrite lookup_reopen_map, decide_True by done. by rewrite Hst0. }
  exists resp, (set_states (reopen_map s) db). split; [done|].
  assert (Hother : forall t st, t <> s -> workflow_states db !! t = Some st ->
       workflow_states (set_states (reopen_map s) db) !! t =
         Some (if bool_decide ((s, BLOCKING) ∈ PREREQUISITES t)
                  && bool_decide (status st = COMPLETED)
               then reopened_row st else st)).
  { intros t st Hne Hst. destruct db; simpl in *.
    rewrite lookup_reopen_map, decide_False by done. by rewrite Hst. }
  split; [|split; [exact Hother|split; [|by destruct db]]].
  - intros st Hst. destruct db; simpl in *.
    rewrite lookup_reopen_map, decide_True by done. by rewrite Hst.
  - intros t u st Hst Htu Hu.
    apply prerequisite_index in Hst as Hi1. apply prerequisite_index in Htu as Hi2.
    rewrite (Hother u st); [|intros ->; lia|done].
    rewrite bool_decide_eq_false_2; [done|].
    intros Hsu. apply prerequisite_index in Hsu. lia.
Qed.

(** C9: reopen_step has no precondition on the stored status of the target:
    whatever that status is (not_started included) the call raises no error,
    sets the step to in_progress, clears its completion timestamp and
    completer, and resets the completed direct blocking dependents. *)
Theorem reopen_step_no_status_precondition (db : Db) (s : WorkflowStep)
    (st : WorkflowState) :
  initialized db ->
  workflow_states db !! s = Some st ->
  exists resp db',
    reopen_step s db = Ok resp db' /\
    r_status resp = IN_PROGRESS /\
    r_completed_at resp = None /\
    workflow_states db' !! s = Some (reopened_row st) /\
    (forall t st_t,
       (s, BLOCKING) ∈ PREREQUISITES t ->
       workflow_states db !! t = Some st_t ->
       status st_t = COMPLETED ->
       workflow_states db' !! t = Some (reopened_row st_t)).
Proof.
  intros Hi Hst. rewrite (reopen_step_run db s Hi).
  destruct (get_step_ok (set_states (reopen_map s) db) s (reopened st))
    as (resp & Hg & Hs & Hc & _).
  { destruct db; simpl in *. rewrite lookup_reopen_map, decide_True by done. by rewrite Hst. }
  exists resp, (set_states (reopen_map s) db).
  split; [done|]. split; [done|]. split; [done|]. split.
  - destruct db; simpl in *. rewrite lookup_reopen_map, decide_True by done. by rewrite Hst.
  - intros t st_t Hdep Ht Hcomp. destruct db; simpl in *.
    rewrite lookup_reopen_map, decide_False.
    + rewrite Ht. simpl. unfold reset_if.
      by rewrite !bool_decide_eq_true_2.
    + intros ->. by apply no_self_prerequisite in Hdep.
Qed.

(** C8: reopen_step is idempotent.  Applying it twice gives the same
    workflow state (and the same response) as applying it once; applied to
    a step that is already in_progress it leaves the step in_progress with
    cleared completion metadata and changes no step other than direct
    blocking dependents. *)
Theorem reopen_step_idempotent (db : Db) (s : WorkflowStep) :
  initialized db ->
  exists resp db',
    reopen_step s db = Ok resp db' /\
    reopen_step s db' = Ok resp db' /\
    (forall st,
       workflow_states db !! s = Some st -> status st = IN_PROGRESS ->
       workflow_states db' !! s = Some (reopened_row st) /\
       (forall t, t <> s -> (s, BLOCKING) ∉ PREREQUISITES t ->
          workflow_states db' !! t = workflow_states db !! t)).
Proof.
  intros Hi.
  assert (Hi' : initialized (set_states (reopen_map s) db)).
  { apply initialized_set_states; [|done]. intros m u. apply is_Some_reopen_map. }
  rewrite (reopen_step_run db s Hi).
  destruct (Hi s) as [st0 Hst0].
  destruct (get_step_ok (set_states (reopen_map s) db) s (reopened st0)) as (resp & Hg & _).
  { destruct db; simpl in *. rewrite lookup_reopen_map, decide_True by done. by rewrite Hst0. }
  exists resp, (set_states (reopen_map s) db). split; [done|]. split.
  - rewrite (reopen_step_run _ s Hi'). rewrite set_states_compose.
    assert (set_states (reopen_map s ∘ reopen_map s) db = set_states (reopen_map s) db) as ->; [|done].
    destruct db; unfold set_states; simpl. f_equal. apply reopen_map_idemp.
  - intros st Hst _. split.
    + destruct db; simpl in *. rewrite lookup_reopen_map, decide_True by done. by rewrite Hst.
    + intros t Hne Hdep. destruct db; simpl in *.
      rewrite lookup_reopen_map, decide_False by done.
      destruct (_ !! t) as [x|]; [|done]. simpl. unfold reset_if.
      by rewrite bool_decide_eq_false_2.
Qed.

Lemma reopen_step_cascades_one_level_witness :
  exists resp db',
    reopen_step PLANNING_PREPAREDNESS three_completed = Ok resp db' /\
    status <$> workflow_states db' !! PLANNING_PREPAREDNESS = Some IN_PROGRESS /\
    status <$> workflow_states db' !! DATA_ASSEMBLY = Some IN_PROGRESS /\
    status <$> workflow_states db' !! SITUATION_ANALYSIS = Some COMPLETED.
Proof.
  destruct (reopen_step_cascades_one_level three_completed PLANNING_PREPAREDNESS)
    as (resp & db' & Hrun & Hs & Ht & Hu & _).
  - intros s. destruct s; vm_compute; eauto.
  - exists resp, db'. split; [exact Hrun|]. split; [|split].
    + rewrite (Hs (done_state 10)) by reflexivity. reflexivity.
    + rewrite (Ht DATA_ASSEMBLY (done_state 20)) by (done || reflexivity). reflexivity.
    + rewrite (Hu DATA_ASSEMBLY SITUATION_ANALYSIS (done_state 30)).
      * reflexivity.
      * apply list_elem_of_here.
      * apply list_elem_of_here.
      * reflexivity.
Defined.

Lemma reopen_step_no_status_precondition_witness :
  exists resp db',
    reopen_step STRATIFICATION new_project = Ok resp db' /\
    r_status resp = IN_PROGRESS /\
    status <$> workflow_states db' !! STRATIFICATION = Some IN_PROGRESS.
Proof.
  destruct (reopen_step_no_status_precondition new_project STRATIFICATION fresh_state)
    as (resp & db' & Hrun & Hst & _ & Hs & _).
  - intros s. destruct s; vm_compute; eauto.
  - reflexivity.
  - exists resp, db'. split; [exact Hrun|]. split; [exact Hst|].
    rewrite Hs. reflexivity.
Defined.

Lemma reopen_step_idempotent_witness :
  exists resp db',
    reopen_step DATA_ASSEMBLY three_completed = Ok resp db' /\
    reopen_step DATA_ASSEMBLY db' = Ok resp db'.
Proof.
  destruct (reopen_step_idempotent three_completed DATA_ASSEMBLY)
    as (resp & db' & Hrun & Hagain & _).
  - intros s. destruct s; vm_compute; eauto.
  - exists resp, db'. split; [exact Hrun|exact Hagain].
Defined.

(** The cascade is shallow: reopening the first step of a project whose
    first three steps are completed resets the second and keeps the third. *)
Example reopen_step_shallow :
  exists resp db',
    reopen_step PLANNING_PREPAREDNESS three_completed = Ok resp db' /\
    workflow_states db' !! PLANNING_PREPAREDNESS
      = Some (mkWorkflowState IN_PROGRESS 100 None None None None None) /\
    workflow_states db' !! DATA_ASSEMBLY
      = Some (mkWorkflowState IN_PROGRESS 100 None None None None None) /\
    workflow_states db' !! SITUATION_ANALYSIS = Some (done_state 30) /\
    workflow_states db' !! STRATIFICATION = Some fresh_state.
Proof.
  vm_compute. eexists _, _. split; [reflexivity|]. repeat split; reflexivity.
Qed.

Section CompleteStep.
Variable set_iteration : gset string -> list string.

Lemma validators_ok db step st :
  workflow_states db !! step = Some st ->
  exists errs warns, validators set_iteration step step db = Ok (errs, warns) db.
Proof.
  intros Hst.
  destruct step; unfold validators;
    unfold _validate_planning, _validate_data_assembly, _validate_situation_analysis,
      _validate_stratification, _validate_generic;
    unfold bind at 1; try rewrite (get_state_ok _ _ _ Hst);
    unfold gets, bind, ret;
    repeat match goal with |- context [if ?b then _ else _] => destruct b end;
    eauto.
Qed.

Definition completed_row (warns : list string) (user_id : N) (now : Z)
    (st : WorkflowState) : WorkflowState :=
  mkWorkflowState COMPLETED 100 (notes st) (data st) (Some ([], warns))
    (Some now) (Some user_id).

Lemma validate_step_run db step st errs warns :
  workflow_states db !! step = Some st ->
  validators set_iteration step step db = Ok (errs, warns) db ->
  validate_step set_iteration step db =
    Ok (mkStepValidationResponse step (bool_decide (length errs = 0%nat)) errs warns)
       (set_states (alter (with_validation_errors (Some (errs, warns))) step) db).
Proof.
  intros Hst Hv. unfold validate_step. unfold bind at 1. rewrite Hv.
  unfold bind at 1. rewrite (get_state_ok _ _ _ Hst).
  reflexivity.
Qed.

(** C1: complete_step is a strict gate.  It re-runs validate_step and
    succeeds if and only if the validator returned no error; on success the
    step is completed, at 100 percent, with the timestamp and the actor
    recorded; on failure it raises an error whose message joins all the
    validator's error strings.  With no data source, completing the data
    assembly step fails with "No data sources uploaded". *)
Theorem complete_step_strict_gate (db : Db) (step : WorkflowStep)
    (user_id : N) (now : Z) :
  initialized db ->
  exists validation db1,
    validate_step set_iteration step db = Ok validation db1 /\
    validators set_iteration step step db
      = Ok (errors validation, warnings validation) db /\
    (is_valid validation = true <-> errors validation = []) /\
    ((exists resp db', complete_step set_iteration step user_id now db = Ok resp db')
       <-> errors validation = []) /\
    (errors validation = [] ->
     exists resp db',
       complete_step set_iteration step user_id now db = Ok resp db' /\
       r_status resp = COMPLETED /\
       r_completion_percentage resp = 100%Q /\
       r_completed_at resp = Some now /\
       (forall st, workflow_states db !! step = Some st ->
          workflow_states db' !! step =
            Some (completed_row (warnings validation) user_id now st)) /\
       (forall t, t <> step -> workflow_states db' !! t = workflow_states db !! t)) /\
    (errors validation <> [] ->
     complete_step set_iteration step user_id now db =
       ValueError ("Step cannot be completed: " +:+ Py.join ", " (errors validation))) /\
    (step = DATA_ASSEMBLY -> data_sources db = [] ->
     complete_step set_iteration step user_id now db =
       ValueError "Step cannot be completed: No data sources uploaded").
Proof.
  intros Hi. destruct (Hi step) as [st Hst].
  destruct (validators_ok db step st Hst) as (errs & warns & Hv).
  pose proof (validate_step_run db step st errs warns Hst Hv) as Hrun.
  eexists _, _. split; [exact Hrun|]. cbn [is_valid errors warnings].
  split; [exact Hv|].
  assert (Hvalid : bool_decide (length errs = 0%nat) = true <-> errs = []).
  { rewrite bool_decide_eq_true. apply length_zero_iff_nil. }
  set (db1 := set_states (alter (with_validation_errors (Some (errs, warns))) step) db) in *.
  assert (Hst1 : workflow_states db1 !! step
                 = Some (with_validation_errors (Some (errs, warns)) st)).
  { subst db1. destruct db; simpl in *. by rewrite lookup_alter_eq, Hst. }
  assert (Hfail : errs <> [] ->
     complete_step set_iteration step user_id now db =
       ValueError ("Step cannot be completed: " +:+ Py.join ", " errs)).
  { intros Hne. unfold complete_step. unfold bind at 1. rewrite Hrun.
    cbn [is_valid errors]. rewrite bool_decide_eq_false_2; [done|].
    intros Hl. by apply length_zero_iff_nil in Hl. }
  assert (Hok : errs = [] ->
     exists resp db',
       complete_step set_iteration step user_id now db = Ok resp db' /\
       r_status resp = COMPLETED /\
       r_completion_percentage resp = 100%Q /\
       r_completed_at resp = Some now /\
       (forall st, workflow_states db !! step = Some st ->
          workflow_states db' !! step = Some (completed_row warns user_id now st)) /\
       (forall t, t <> step -> workflow_states db' !! t = workflow_states db !! t)).
  { intros ->. unfold complete_step. unfold bind at 1. rewrite Hrun.
    cbn [is_valid errors negb bool_decide length]. 
    rewrite bool_decide_eq_true_2 by done. cbn [negb].
    unfold bind at 1. rewrite (get_state_ok _ _ _ Hst1).
    unfold bind at 1 2 3 4. unfold update_state, modify.
    rewrite !set_states_compose.
    set (db2 := set_states _ db1).
    assert (Hst2 : workflow_states db2 !! step = Some (completed_row warns user_id now st)).
    { subst db2 db1. rewrite set_states_compose. destruct db; simpl in *.
      rewrite !lookup_alter_eq, Hst. done. }
    destruct (get_step_ok db2 step _ Hst2) as (resp & Hg & Hs & Hc & Hp).
    exists resp, db2. split; [done|]. split; [done|]. split; [done|]. split; [done|].
    split.
    - intros st' Hst'. rewrite Hst2. congruence.
    - intros t Hne. subst db2 db1. rewrite set_states_compose. destruct db; simpl in *.
      by rewrite !lookup_alter_ne. }
  split; [done|]. split; [|split; [done|split; [done|]]].
  - split.
    + intros (resp & db' & Hc). destruct errs as [|e errs']; [done|].
      rewrite Hfail in Hc by done. discriminate.
    + intros ->. destruct Hok as (resp & db' & Hc & _); eauto.
  - intros -> Hds. 
    assert (errs = ["No data sources uploaded"]) as ->.
    { unfold validators, _validate_data_assembly, bind, gets in Hv. rewrite Hds in Hv.
      simpl in Hv. unfold ret in Hv. congruence. }
    rewrite Hfail by done. reflexivity.
Qed.
End CompleteStep.

(** A planning payload that satisfies the planning validator. *)
Definition planned_project : Db :=
  set_states
    (alter (with_data (Some {[ "scope_of_work" := JStr "x";
                               "operational_unit" := JStr "y" ]}))
           PLANNING_PREPAREDNESS)
    new_project.

Lemma complete_step_strict_gate_witness :
  exists resp db',
    complete_step elements PLANNING_PREPAREDNESS 1%N 50 planned_project = Ok resp db' /\
    r_status resp = COMPLETED /\
    complete_step elements DATA_ASSEMBLY 1%N 60 db'
      = ValueError "Step cannot be completed: No data sources uploaded".
Proof.
  destruct (complete_step_strict_gate elements planned_project PLANNING_PREPAREDNESS 1%N 50)
    as (validation & db1 & Hv & _ & _ & _ & Hok & _).
  - intros s. destruct s; vm_compute; eauto.
  - destruct Hok as (resp & db' & Hrun & Hst & _).
    + vm_compute in Hv. by injection Hv as <- <-.
    + exists resp, db'. split; [exact Hrun|]. split; [exact Hst|].
      vm_compute in Hrun. injection Hrun as <- <-. vm_compute. reflexivity.
Defined.

(** On a new project: planning without its payload is refused with both
    messages; with the payload it completes; data assembly is then refused
    for want of data sources. *)
Example complete_step_on_new_project :
  complete_step elements PLANNING_PREPAREDNESS 1%N 50 new_project
    = ValueError ("Step cannot be completed: Scope of work not documented, "
                  +:+ "Operational unit (district/region) not defined") /\
  complete_step elements DATA_ASSEMBLY 1%N 50 new_project
    = ValueError "Step cannot be completed: No data sources uploaded" /\
  exists resp db',
    complete_step elements PLANNING_PREPAREDNESS 1%N 50 planned_project = Ok resp db' /\
    workflow_states db' !! PLANNING_PREPAREDNESS
      = Some (mkWorkflowState COMPLETED 100 None
                (Some {[ "scope_of_work" := JStr "x"; "operational_unit" := JStr "y" ]})
                (Some ([], ["Timeline not yet created"])) (Some 50%Z) (Some 1%N)).
Proof.
  vm_compute. split; [reflexivity|]. split; [reflexivity|].
  eexists _, _. split; reflexivity.
Qed.


End WorkflowFacts.

(** ** Stratification engine *)

Module StratificationFacts.
Import Enums Json StratificationService.

(** The fixed order very_low < low < moderate < high. *)
Definition risk_rank (r : RiskLevel) : nat :=
  match r with VERY_LOW => 0 | LOW => 1 | MODERATE => 2 | HIGH => 3 end.

(** The bands that are present, taken in the fixed order, form a chain
    from [lo] to [hi]: each starts where the previous one ends. *)
Fixpoint chain_from (lo : Q) (levels : list RiskLevel)
    (thresholds : gmap string ThresholdRange) (hi : Q) : Prop :=
  match levels with
  | [] => lo == hi
  | level :: rest =>
      match thresholds !! risk_level_value level with
      | Some t => min_value t == lo /\ chain_from (max_value t) rest thresholds hi
      | None => chain_from lo rest thresholds hi
      end
  end.

(** The bands cover [0, 100) contiguously. *)
Definition contiguous_cover (thresholds : gmap string ThresholdRange) : Prop :=
  chain_from 0 [VERY_LOW; LOW; MODERATE; HIGH] thresholds 100.

Definition standard_bands : gmap string ThresholdRange :=
  list_to_map [ ("very_low", mkThresholdRange 0 1);
                ("low", mkThresholdRange 1 10);
                ("moderate", mkThresholdRange 10 30);
                ("high", mkThresholdRange 30 100) ].

(** [RiskLevel(level.value)] is the level: the loop over the four names is
    a loop over the four levels. *)
Lemma RiskLevel_of_value (r : RiskLevel) : RiskLevel_of (risk_level_value r) = Some r.
Proof. by destruct r. Qed.

Lemma in_band_spec t v :
  in_band t v = true <-> (min_value t <= v /\ v < max_value t)%Q.
Proof.
  unfold in_band. by rewrite andb_true_iff, PyFacts.Qltb_spec, Qle_bool_iff.
Qed.

Lemma risk_rank_le_HIGH r : risk_rank r <= 3.
Proof. destruct r; simpl; lia. Qed.

Lemma assign_from_lower_bound levels v th n :
  n <= 3 ->
  Forall (fun l => n <= risk_rank l) levels ->
  n <= risk_rank (assign_from levels v th).
Proof.
  intros Hn. induction 1 as [|l levels Hl _ IH]; simpl; [done|].
  destruct (th !! risk_level_value l) as [t|]; [|done].
  by destruct (in_band t v).
Qed.

Lemma assign_from_monotone levels th hi : forall lo v w,
  StronglySorted (fun a b => risk_rank a < risk_rank b) levels ->
  chain_from lo levels th hi ->
  (lo <= v)%Q -> (v <= w)%Q ->
  risk_rank (assign_from levels v th) <= risk_rank (assign_from levels w th).
Proof.
  induction levels as [|l levels IH]; intros lo v w Hs Hc Hlo Hvw; simpl; [done|].
  apply StronglySorted_inv in Hs as [Hs Hl]. simpl in Hc.
  destruct (th !! risk_level_value l) as [t|] eqn:Ht; [|by eapply IH].
  destruct Hc as [Hmin Hc].
  destruct (in_band t v) eqn:Hv.
  - destruct (in_band t w); [done|].
    apply assign_from_lower_bound; [apply risk_rank_le_HIGH|].
    eapply Forall_impl; [exact Hl|]. simpl. lia.
  - assert (Hge : (max_value t <= v)%Q).
    { apply Qnot_lt_le. intros Hlt.
      assert (in_band t v = true); [|congruence].
      apply in_band_spec. split; [by rewrite Hmin|done]. }
    assert (in_band t w = false) as ->.
    { destruct (in_band t w) eqn:Hw; [|done]. apply in_band_spec in Hw as [_ Hw].
      exfalso. apply (Qlt_not_le _ _ Hw). by apply Qle_trans with v. }
    by eapply IH.
Qed.

Lemma assign_from_covered levels th hi : forall lo v,
  chain_from lo levels th hi ->
  (lo <= v)%Q -> (v < hi)%Q ->
  exists t, th !! risk_level_value (assign_from levels v th) = Some t /\
            in_band t v = true.
Proof.
  induction levels as [|l levels IH]; intros lo v Hc Hlo Hhi; simpl in *.
  - exfalso. apply (Qlt_not_le _ _ Hhi). by rewrite <- Hc.
  - destruct (th !! risk_level_value l) as [t|] eqn:Ht; [|by eapply IH].
    destruct Hc as [Hmin Hc].
    destruct (in_band t v) eqn:Hv; [by eauto|].
    eapply IH; [done| |done].
    apply Qnot_lt_le. intros Hlt.
    assert (in_band t v = true); [|congruence].
    apply in_band_spec. split; [by rewrite Hmin|done].
Qed.

Lemma assign_from_first_match levels v th :
  (exists pre l post t,
     levels = pre ++ l :: post /\
     assign_from levels v th = l /\
     th !! risk_level_value l = Some t /\ in_band t v = true /\
     Forall (fun l' => forall t', th !! risk_level_value l' = Some t' ->
                                   in_band t' v = false) pre)
  \/ (assign_from levels v th = HIGH /\
      Forall (fun l' => forall t', th !! risk_level_value l' = Some t' ->
                                    in_band t' v = false) levels).
Proof.
  induction levels as [|l levels IH]; simpl.
  - right. split; [done | constructor].
  - destruct (th !! risk_level_value l) as [t|] eqn:Ht.
    + destruct (in_band t v) eqn:Hv.
      * left. exists [], l, levels, t. repeat split; try done. 
      * destruct IH as [(pre & l' & post & t' & -> & Ha & Ht' & Hin & Hpre) | [Ha Hall]].
        -- left. exists (l :: pre), l', post, t'. repeat split; try done.
           constructor; [|done]. intros t0 Ht0. congruence.
        -- right. split; [done|]. constructor; [|done]. intros t0 Ht0. congruence.
    + destruct IH as [(pre & l' & post & t' & -> & Ha & Ht' & Hin & Hpre) | [Ha Hall]].
      * left. exists (l :: pre), l', post, t'. repeat split; try done.
        constructor; [|done]. intros t0 Ht0. congruence.
      * right. split; [done|]. constructor; [|done]. intros t0 Ht0. congruence.
Qed.

Lemma LEVELS_sorted :
  StronglySorted (fun a b => risk_rank a < risk_rank b) [VERY_LOW; LOW; MODERATE; HIGH].
Proof. repeat constructor; simpl; lia. Qed.

Lemma standard_bands_cover : contiguous_cover standard_bands.
Proof. vm_compute. repeat split; reflexivity. Qed.

(** C5 (as stated) fails below the covered range: a negative value matches
    no band and defaults to [HIGH], above the level of the value 0. *)
Lemma assign_risk_level_not_monotone_below_zero :
  ~ (forall (th : gmap string ThresholdRange) (v w : Q),
       contiguous_cover th -> (v <= w)%Q ->
       risk_rank (_assign_risk_level v th) <= risk_rank (_assign_risk_level w th)).
Proof.
  intros H.
  specialize (H standard_bands (-1)%Q 0%Q standard_bands_cover).
  assert (Hle : (-1 <= 0)%Q) by (vm_compute; discriminate).
  specialize (H Hle). vm_compute in H. lia.
Qed.

(** C5 (amended): for bands that cover [0, 100) contiguously in the fixed
    order and every metric value v >= 0, [_assign_risk_level] returns one of
    the four levels, namely the first band in the order very_low, low,
    moderate, high whose half-open interval contains v (a real band whenever
    v < 100, [HIGH] by default when no band matches), and the level does not
    decrease when v increases. *)
Theorem assign_risk_level_first_band_monotone
    (th : gmap string ThresholdRange) (v w : Q) :
  contiguous_cover th -> (0 <= v)%Q -> (v <= w)%Q ->
  _assign_risk_level v th ∈ [VERY_LOW; LOW; MODERATE; HIGH] /\
  ((exists pre l post t,
      [VERY_LOW; LOW; MODERATE; HIGH] = pre ++ l :: post /\
      _assign_risk_level v th = l /\
      th !! risk_level_value l = Some t /\ in_band t v = true /\
      Forall (fun l' => forall t', th !! risk_level_value l' = Some t' ->
                                    in_band t' v = false) pre)
   \/ (_assign_risk_level v th = HIGH /\
       Forall (fun l' => forall t', th !! risk_level_value l' = Some t' ->
                                     in_band t' v = false)
              [VERY_LOW; LOW; MODERATE; HIGH])) /\
  ((v < 100)%Q ->
   exists t, th !! risk_level_value (_assign_risk_level v th) = Some t /\
             in_band t v = true) /\
  risk_rank (_assign_risk_level v th) <= risk_rank (_assign_risk_level w th).
Proof.
  intros Hc Hv Hvw. split; [|split; [|split]].
  - destruct (_assign_risk_level v th); set_solver.
  - apply assign_from_first_match.
  - intros Hlt. by eapply assign_from_covered.
  - eapply assign_from_monotone; [apply LEVELS_sorted|exact Hc|done|done].
Qed.

Lemma assign_risk_level_first_band_monotone_witness :
  _assign_risk_level 5 standard_bands ∈ [VERY_LOW; LOW; MODERATE; HIGH] /\
  ((exists pre l post t,
      [VERY_LOW; LOW; MODERATE; HIGH] = pre ++ l :: post /\
      _assign_risk_level 5 standard_bands = l /\
      standard_bands !! risk_level_value l = Some t /\ in_band t 5 = true /\
      Forall (fun l' => forall t', standard_bands !! risk_level_value l' = Some t' ->
                                    in_band t' 5 = false) pre)
   \/ (_assign_risk_level 5 standard_bands = HIGH /\
       Forall (fun l' => forall t', standard_bands !! risk_level_value l' = Some t' ->
                                     in_band t' 5 = false)
              [VERY_LOW; LOW; MODERATE; HIGH])) /\
  ((5 < 100)%Q ->
   exists t, standard_bands !! risk_level_value (_assign_risk_level 5 standard_bands) = Some t /\
             in_band t 5 = true) /\
  risk_rank (_assign_risk_level 5 standard_bands)
    <= risk_rank (_assign_risk_level 20 standard_bands).
Proof.
  apply (assign_risk_level_first_band_monotone standard_bands 5 20).
  - vm_compute. repeat split; reflexivity.
  - vm_compute. discriminate.
  - vm_compute. discriminate.
Defined.

Example assign_risk_level_standard :
  _assign_risk_level (1 # 2) standard_bands = VERY_LOW /\
  _assign_risk_level 1 standard_bands = LOW /\
  _assign_risk_level 25 standard_bands = MODERATE /\
  _assign_risk_level 30 standard_bands = HIGH /\
  _assign_risk_level 250 standard_bands = HIGH /\
  _assign_risk_level (-1) standard_bands = HIGH.
Proof. vm_compute. repeat split; reflexivity. Qed.

(** C10: the eligible set depends only on the risk level, contains "CM" at
    every level, and grows with the level: very_low -> {CM}, low -> {CM, ITN,
    IPTp}, moderate and high -> {CM, ITN, IRS, IPTp, SMC, VACCINE}. *)
Theorem eligible_interventions_by_risk_level :
  (forall metric unit_data,
     _determine_eligible_interventions VERY_LOW metric unit_data = ["CM"]) /\
  (forall metric unit_data,
     _determine_eligible_interventions LOW metric unit_data = ["CM"; "ITN"; "IPTp"]) /\
  (forall metric unit_data,
     _determine_eligible_interventions MODERATE metric unit_data
     = ["CM"; "ITN"; "IRS"; "IPTp"; "SMC"; "VACCINE"]) /\
  (forall metric unit_data,
     _determine_eligible_interventions HIGH metric unit_data
     = ["CM"; "ITN"; "IRS"; "IPTp"; "SMC"; "VACCINE"]) /\
  (forall r metric unit_data,
     "CM" ∈ _determine_eligible_interventions r metric unit_data) /\
  (forall r r' metric unit_data metric' unit_data',
     risk_rank r <= risk_rank r' ->
     _determine_eligible_interventions r metric unit_data
       ⊆ _determine_eligible_interventions r' metric' unit_data') /\
  (forall r metric unit_data metric' unit_data',
     _determine_eligible_interventions r metric unit_data
     = _determine_eligible_interventions r metric' unit_data').
Proof.
  repeat split.
  - intros r m u. destruct r; vm_compute; apply list_elem_of_here.
  - intros r r' m u m' u' Hr.
    destruct r, r'; simpl in Hr; try lia;
      change (_determine_eligible_interventions ?a m u)
        with (_determine_eligible_interventions a PFPR ∅);
      change (_determine_eligible_interventions ?a m' u')
        with (_determine_eligible_interventions a PFPR ∅);
      set_solver.
Qed.

End StratificationFacts.

(** ** Forecast engine *)

Module ForecastFacts.
Import Session Enums Models ForecastService.
#[local] Open Scope Q_scope.

(** The case and death effectiveness the loop reads for an intervention. *)
Definition case_eff (intervention : string) : Q :=
  default 0 (default ∅ (INTERVENTION_EFFECTIVENESS !! intervention) !! "cases_reduction").
Definition death_eff (intervention : string) : Q :=
  default 0 (default ∅ (INTERVENTION_EFFECTIVENESS !! intervention) !! "deaths_reduction").

(** Successive composition of a list of effects, starting from [c]. *)
Definition compose_all (effs : list Q) (c : Q) : Q := fold_left diminishing effs c.

Definition scenario_of (assignment : list (string * list string)) (cost : option Q)
    : InterventionScenario :=
  mkInterventionScenario "scenario" assignment cost None None None.

Definition itn_then_irs : InterventionScenario :=
  scenario_of [("u1", ["itn"; "irs"])] None.
Definition irs_then_itn : InterventionScenario :=
  scenario_of [("u1", ["irs"; "itn"])] None.
Definition irs_itn_two_units : InterventionScenario :=
  scenario_of [("u2", ["irs"]); ("u1", ["itn"; "irs"])] None.

Global Instance diminishing_proper : Proper (Qeq ==> Qeq ==> Qeq) diminishing.
Proof. intros a a' Ha b b' Hb. unfold diminishing. by rewrite Ha, Hb. Qed.

Lemma diminishing_swap c a b :
  diminishing (diminishing c a) b == diminishing (diminishing c b) a.
Proof. unfold diminishing. ring. Qed.

Lemma compose_all_proper effs : forall c c',
  c == c' -> compose_all effs c == compose_all effs c'.
Proof.
  induction effs as [|e effs IH]; intros c c' Hc; simpl; [done|].
  apply IH. by rewrite Hc.
Qed.

Lemma compose_all_perm effs effs' :
  effs ≡ₚ effs' -> forall c, compose_all effs c == compose_all effs' c.
Proof.
  induction 1 as [|e l l' _ IH|a b l|l1 l2 l3 _ IH1 _ IH2]; intros c; simpl.
  - reflexivity.
  - apply IH.
  - apply compose_all_proper, diminishing_swap.
  - by rewrite IH1.
Qed.

Lemma fold_combine_step codes : forall c d,
  fold_left combine_step codes (c, d)
  = (compose_all (case_eff <$> codes) c, compose_all (death_eff <$> codes) d).
Proof.
  induction codes as [|x codes IH]; intros c d; simpl; [done|].
  unfold combine_step at 2. simpl. by rewrite IH.
Qed.

Lemma Qmin_proper_l a a' b : a == a' -> Qmin a b == Qmin a' b.
Proof. intros H. by rewrite H. Qed.

Global Instance str_le_total : Total str_le.
Proof.
  intros a b. unfold str_le, String.leb.
  destruct (String.compare a b) eqn:E; auto.
  right. rewrite String.compare_antisym, E. reflexivity.
Qed.

Lemma sorted_perm (l : list string) : sorted l ≡ₚ l.
Proof. apply merge_sort_Permutation. Qed.










End ForecastFacts.

(** ** The combined effectiveness in binary64 arithmetic

    The code composes the codes in sorted order; on doubles the composition
    depends on that order in the last place, and the result for ITN with
    IRS is the double next above 0.725. *)

Module ForecastBinary64Facts.
Import Session Enums Models ForecastBinary64.
Import PrimFloat SpecFloat FloatOps FloatAxioms.
#[local] Set Warnings "-inexact-float".

(** *** The order of [sorted] *)

Lemma str_le_alt (a b : string) :
  ForecastService.str_le a b <-> a = b \/ OrderedTypeEx.String_as_OT.lt a b.
Proof.
  unfold ForecastService.str_le, String.leb.
  destruct (String.compare a b) eqn:E.
  - apply OrderedTypeEx.String_as_OT.cmp_eq in E. tauto.
  - apply OrderedTypeEx.String_as_OT.cmp_lt in E. tauto.
  - split; [done|]. intros [->|Hlt].
    + assert (String.compare b b = Eq) as Hb
        by (by apply OrderedTypeEx.String_as_OT.cmp_eq).
      congruence.
    + apply OrderedTypeEx.String_as_OT.cmp_lt in Hlt.
      unfold OrderedTypeEx.String_as_OT.cmp in Hlt. congruence.
Qed.

#[local] Instance str_le_trans : Transitive ForecastService.str_le.
Proof.
  intros a b c Hab Hbc. apply str_le_alt in Hab, Hbc. apply str_le_alt.
  destruct Hab as [->|Hab]; [done|]. destruct Hbc as [<-|Hbc]; [by right|].
  right. by apply (OrderedTypeEx.String_as_OT.lt_trans a b c).
Qed.

#[local] Instance str_le_antisym : AntiSymm (=) ForecastService.str_le.
Proof.
  intros a b Hab Hba. apply str_le_alt in Hab, Hba.
  destruct Hab as [->|Hab]; [done|]. destruct Hba as [->|Hba]; [done|].
  exfalso. apply (OrderedTypeEx.String_as_OT.lt_not_eq a a); [|done].
  by apply (OrderedTypeEx.String_as_OT.lt_trans a b a).
Qed.

Lemma StronglySorted_filter {A} (R : relation A) (P : A -> Prop)
    `{!forall x, Decision (P x)} (l : list A) :
  StronglySorted R l -> StronglySorted R (filter P l).
Proof.
  induction 1 as [|x l Hl IH Hx]; [constructor|].
  destruct (decide (P x)).
  - rewrite filter_cons_True by done. constructor; [done|].
    apply Forall_forall. intros y Hy. apply list_elem_of_filter in Hy as [_ Hy].
    by eapply Forall_forall in Hx.
  - by rewrite filter_cons_False.
Qed.

(** *** The union of the codes of all units *)

Definition listed (sc : InterventionScenario) (code : string) : Prop :=
  exists unit codes, (unit, codes) ∈ interventions sc /\ code ∈ codes.

Lemma elem_of_union_fold (l : list (string * list string)) : forall (acc : gset string) code,
  code ∈ fold_left (fun (acc : gset string) (unit : string * list string) =>
                      acc ∪ list_to_set (snd unit)) l acc
  <-> code ∈ acc \/ exists unit codes, (unit, codes) ∈ l /\ code ∈ codes.
Proof.
  induction l as [|[u cs] l IH]; intros acc code; simpl.
  - split; [by left|]. intros [?|(?&?&Hin&_)]; [done|]. by apply elem_of_nil in Hin.
  - rewrite IH, elem_of_union, elem_of_list_to_set. split.
    + intros [[?|?]|(u'&cs'&Hin&?)]; [by left| |].
      * right. exists u, cs. split; [left|done].
      * right. exists u', cs'. split; [by right|done].
    + intros [?|(u'&cs'&Hin&?)]; [by left; left|].
      apply elem_of_cons in Hin as [[= -> ->]|Hin]; [by left; right|].
      right. by exists u', cs'.
Qed.

Lemma elem_of_all_interventions sc code :
  code ∈ ForecastService.all_interventions sc <-> listed sc code.
Proof.
  unfold ForecastService.all_interventions. rewrite elem_of_union_fold.
  split; [intros [H|H]; [set_solver|done] | by right].
Qed.

(** *** The codes of the effectiveness table, in sorted order *)

Definition known_codes : list string :=
  ["cm"; "iptp"; "irs"; "itn"; "lsm"; "pmc"; "smc"; "vaccine"].

Lemma known_codes_sorted : StronglySorted ForecastService.str_le known_codes.
Proof.
  unfold known_codes.
  repeat (apply SSorted_cons; [|repeat (apply Forall_cons; split; [reflexivity|]);
                                  apply Forall_nil_2]).
  apply SSorted_nil.
Qed.

Lemma unknown_code_effectiveness code :
  code ∉ known_codes -> INTERVENTION_EFFECTIVENESS !! code = None.
Proof.
  intros Hnot. apply not_elem_of_list_to_map_1. cbn.
  intros Hin. apply Hnot. unfold known_codes.
  repeat (apply elem_of_cons in Hin as [->|Hin]; [set_solver|]).
  by apply elem_of_nil in Hin.
Qed.

(** All sublists of a list. *)
Fixpoint sublists {A} (l : list A) : list (list A) :=
  match l with
  | [] => [[]]
  | x :: l => sublists l ++ (cons x <$> sublists l)
  end.

Lemma elem_of_sublists {A} (p l : list A) : p `sublist_of` l -> p ∈ sublists l.
Proof.
  induction 1 as [|x p l _ IH|x p l _ IH]; simpl.
  - by apply list_elem_of_singleton.
  - apply elem_of_app. right. apply list_elem_of_fmap. by exists p.
  - apply elem_of_app. by left.
Qed.

Definition compose (codes : list string) : float * float :=
  fold_left combine_step codes (0%float, 0%float).

Definition cap (c : float * float) : float * float :=
  (min (fst c) 0.95, min (snd c) 0.95).

Lemma forallb_sublists {A} (check : list A -> bool) (l p : list A) :
  forallb check (sublists l) = true -> p `sublist_of` l -> check p = true.
Proof.
  intros Hall Hp. rewrite forallb_forall in Hall. apply Hall.
  apply list_elem_of_In. by apply elem_of_sublists.
Qed.

(** An intervention without an entry leaves the value composed so far as
    it is: [c + (1 - c) * 0 = c] for every value the loop can reach. *)
Lemma unknown_code_neutral (p : list string) (code : string) :
  p `sublist_of` known_codes -> code ∉ known_codes ->
  combine_step (compose p) code = compose p.
Proof.
  intros Hp Hcode. unfold combine_step.
  rewrite (unknown_code_effectiveness code Hcode). cbn [default].
  rewrite !lookup_empty. cbn [default].
  pose proof (forallb_sublists
    (fun p => Leibniz.eqb (diminishing (fst (compose p)) 0) (fst (compose p))
              && Leibniz.eqb (diminishing (snd (compose p)) 0) (snd (compose p)))
    known_codes p) as Hcheck.
  cbv beta in Hcheck. specialize (Hcheck ltac:(vm_compute; reflexivity) Hp).
  apply andb_prop in Hcheck as [H1 H2].
  apply Leibniz.eqb_spec in H1, H2. rewrite H1, H2. by destruct (compose p).
Qed.

Lemma compose_known (l : list string) : forall p,
  (p ++ filter (.∈ known_codes) l) `sublist_of` known_codes ->
  fold_left combine_step l (compose p)
  = fold_left combine_step (filter (.∈ known_codes) l) (compose p).
Proof.
  induction l as [|x l IH]; intros p Hp; [done|].
  destruct (decide (x ∈ known_codes)) as [Hx|Hx].
  - rewrite filter_cons_True in Hp |- * by done. simpl.
    assert (Hstep : combine_step (compose p) x = compose (p ++ [x])).
    { unfold compose. by rewrite fold_left_app. }
    rewrite Hstep. apply IH. by rewrite <- app_assoc.
  - rewrite filter_cons_False in Hp |- * by done. simpl.
    rewrite unknown_code_neutral; [by apply IH| |done].
    etrans; [|exact Hp]. by apply sublist_inserts_r.
Qed.

Lemma sorted_known_codes (A : gset string) :
  filter (.∈ known_codes) (ForecastService.sorted (elements A))
  = filter (.∈ A) known_codes.
Proof.
  apply (StronglySorted_unique ForecastService.str_le).
  - apply StronglySorted_filter, StronglySorted_merge_sort; apply _.
  - apply StronglySorted_filter, known_codes_sorted.
  - apply NoDup_Permutation.
    + apply NoDup_filter. unfold ForecastService.sorted.
      rewrite merge_sort_Permutation. apply NoDup_elements.
    + apply NoDup_filter.
      apply (bool_decide_unpack (NoDup known_codes)). vm_compute. exact I.
    + intros x. rewrite !list_elem_of_filter. unfold ForecastService.sorted.
      rewrite merge_sort_Permutation, elem_of_elements. tauto.
Qed.

(** The loop over the sorted union only depends on the known codes of the
    scenario, taken in sorted order. *)
Lemma combined_reduction_known (sc : InterventionScenario) :
  combined_reduction sc
  = cap (compose (filter (.∈ ForecastService.all_interventions sc) known_codes)).
Proof.
  unfold combined_reduction, cap. rewrite <- sorted_known_codes.
  change (0%float, 0%float) with (compose []).
  rewrite compose_known; [done|]. simpl. rewrite sorted_known_codes.
  apply sublist_filter.
Qed.

Lemma compose_pair (codes : list string) : forall c d,
  fold_left combine_step codes (c, d)
  = (fold_left diminishing (case_eff <$> codes) c,
     fold_left diminishing (death_eff <$> codes) d).
Proof.
  induction codes as [|x codes IH]; intros c d; simpl; [done|].
  unfold combine_step at 2. simpl. by rewrite IH.
Qed.

Lemma combined_reduction_same_codes (sc sc' : InterventionScenario) :
  (forall code, listed sc code <-> listed sc' code) ->
  combined_reduction sc = combined_reduction sc'.
Proof.
  intros Hsame.
  assert (ForecastService.all_interventions sc = ForecastService.all_interventions sc')
    as Heq.
  { apply set_eq. intros code. by rewrite !elem_of_all_interventions. }
  unfold combined_reduction. by rewrite Heq.
Qed.

(** In binary64 the capped reductions stay within [0, 0.95]. *)
Definition in_range (r : float * float) : bool :=
  ((0 <=? fst r) && (fst r <=? 0.95) && (0 <=? snd r) && (snd r <=? 0.95))%float.

Lemma combined_reduction_in_range (sc : InterventionScenario) :
  in_range (combined_reduction sc) = true.
Proof.
  rewrite combined_reduction_known.
  apply (forallb_sublists (fun p => in_range (cap (compose p))) known_codes).
  - vm_compute. reflexivity.
  - apply sublist_filter.
Qed.

(** *** The exact value of a double

    [to_Q x] is the rational number a finite double stands for. *)
Definition SF2Q (f : spec_float) : Q :=
  match f with
  | S754_finite s m e => (if s then -1 else 1) * inject_Z (Zpos m) * Qpower 2 e
  | _ => 0
  end%Q.

Definition to_Q (x : float) : Q := SF2Q (Prim2SF x).

(** The composition of [ForecastService] in exact arithmetic. *)
Definition exact (codes : list string) : Q * Q :=
  (Qmin (ForecastFacts.compose_all (ForecastFacts.case_eff <$> codes) 0) (95 # 100),
   Qmin (ForecastFacts.compose_all (ForecastFacts.death_eff <$> codes) 0) (95 # 100)).

(** One unit in the last place of a double in [0.5, 1). *)
Definition ulp : Q := 1 # 4503599627370496.

Definition close (r : float * float) (q : Q * Q) : bool :=
  Qle_bool (Qabs (to_Q (fst r) - fst q)) ulp
  && Qle_bool (Qabs (to_Q (snd r) - snd q)) ulp.

Lemma exact_unknown_code code :
  code ∉ known_codes ->
  ForecastFacts.case_eff code = 0%Q /\ ForecastFacts.death_eff code = 0%Q.
Proof.
  intros Hnot. unfold ForecastFacts.case_eff, ForecastFacts.death_eff.
  assert (ForecastService.INTERVENTION_EFFECTIVENESS !! code = None) as ->; [|done].
  apply not_elem_of_list_to_map_1. cbn.
  intros Hin. apply Hnot. unfold known_codes.
  repeat (apply elem_of_cons in Hin as [->|Hin]; [set_solver|]).
  by apply elem_of_nil in Hin.
Qed.

Lemma exact_known (eff : string -> Q) (l : list string) :
  (forall code, code ∉ known_codes -> eff code = 0%Q) ->
  forall c,
    (ForecastFacts.compose_all (eff <$> l) c
     == ForecastFacts.compose_all (eff <$> filter (.∈ known_codes) l) c)%Q.
Proof.
  intros Heff. induction l as [|x l IH]; intros c; [reflexivity|].
  destruct (decide (x ∈ known_codes)) as [Hx|Hx].
  - rewrite filter_cons_True by done. simpl. apply IH.
  - rewrite filter_cons_False by done. simpl. rewrite <- IH, (Heff x Hx).
    apply ForecastFacts.compose_all_proper. unfold ForecastService.diminishing. ring.
Qed.

Lemma exact_combined_reduction (sc : InterventionScenario) :
  let q := exact (filter (.∈ ForecastService.all_interventions sc) known_codes) in
  (fst (ForecastService.combined_reduction sc) == fst q)%Q /\
  (snd (ForecastService.combined_reduction sc) == snd q)%Q.
Proof.
  unfold ForecastService.combined_reduction, exact.
  rewrite ForecastFacts.fold_combine_step. cbn [fst snd].
  rewrite <- sorted_known_codes.
  split; apply ForecastFacts.Qmin_proper_l, exact_known; intros code Hcode;
    by destruct (exact_unknown_code code Hcode).
Qed.

Lemma Qabs_diff_proper (a x y : Q) : (x == y)%Q -> (Qabs (a - x) == Qabs (a - y))%Q.
Proof. intros H. by rewrite H. Qed.

Lemma combined_reduction_close (sc : InterventionScenario) :
  (Qabs (to_Q (fst (combined_reduction sc)) - fst (ForecastService.combined_reduction sc))
     <= ulp)%Q /\
  (Qabs (to_Q (snd (combined_reduction sc)) - snd (ForecastService.combined_reduction sc))
     <= ulp)%Q.
Proof.
  destruct (exact_combined_reduction sc) as [H1 H2]. cbv zeta in H1, H2.
  rewrite (Qabs_diff_proper _ _ _ H1), (Qabs_diff_proper _ _ _ H2).
  rewrite combined_reduction_known.
  pose proof (forallb_sublists (fun p => close (cap (compose p)) (exact p)) known_codes
    (filter (.∈ ForecastService.all_interventions sc) known_codes)) as Hcheck.
  cbv beta in Hcheck.
  specialize (Hcheck ltac:(vm_compute; reflexivity) ltac:(apply sublist_filter)).
  apply andb_prop in Hcheck as [Hc Hd].
  split; by apply Qle_bool_iff.
Qed.

(** C6 (as stated) fails in binary64: the composition is not invariant
    under permutation, and the combined case reduction of ITN with IRS is
    not 0.725.  The code composes in sorted order, IRS first, and returns
    0.7250000000000001 (0x1.7333333333334p-1); composing ITN first gives the
    double 0.725. *)
Lemma combined_case_reduction_itn_irs_not_0725 :
  ~ (forall codes codes' : list string, codes ≡ₚ codes' ->
       fold_left diminishing (case_eff <$> codes) 0%float
       = fold_left diminishing (case_eff <$> codes') 0%float) /\
  ~ (fst (combined_reduction ForecastFacts.itn_then_irs) =? 0.725)%float = true /\
  fst (combined_reduction ForecastFacts.itn_then_irs) <> 0.725%float /\
  fst (combined_reduction ForecastFacts.itn_then_irs) = 0x1.7333333333334p-1%float /\
  fold_left diminishing (case_eff <$> ["irs"; "itn"]) 0%float
    = 0x1.7333333333334p-1%float /\
  fold_left diminishing (case_eff <$> ["itn"; "irs"]) 0%float = 0.725%float.
Proof.
  assert (Hne : forall x : float, (x =? 0.725)%float = false -> x <> 0.725%float).
  { intros x Hx ->. vm_compute in Hx. discriminate. }
  split; [|split; [|split; [|split; [|split]]]].
  - intros Hperm. specialize (Hperm ["irs"; "itn"] ["itn"; "irs"] (perm_swap _ _ _)).
    revert Hperm. apply Hne. vm_compute. reflexivity.
  - vm_compute. discriminate.
  - apply Hne. vm_compute. reflexivity.
  - vm_compute. reflexivity.
  - vm_compute. reflexivity.
  - vm_compute. reflexivity.
Qed.

(** C6 (amended): the codes composed are the union of the codes of all
    units; the code composes them in sorted order by
    combined + (1 - combined) * effect, for cases and deaths independently,
    in binary64, and caps the result at 0.95.  The result depends only on
    the set of codes of the scenario, not on the order in which units or
    codes are listed; it lies in [0, 0.95]; and it is within 2^-52 of the
    value of the composition in exact arithmetic, which is the same for
    every order of composition and is 0.725 for ITN with IRS. *)
Theorem combined_reduction_binary64 :
  (forall sc code, code ∈ ForecastService.all_interventions sc <-> listed sc code) /\
  (forall sc,
     let codes := ForecastService.sorted (elements (ForecastService.all_interventions sc)) in
     combined_reduction sc
     = (min (fold_left diminishing (case_eff <$> codes) 0) 0.95,
        min (fold_left diminishing (death_eff <$> codes) 0) 0.95)%float) /\
  (forall sc sc', (forall code, listed sc code <-> listed sc' code) ->
     combined_reduction sc = combined_reduction sc') /\
  (forall sc,
     (0 <=? fst (combined_reduction sc))%float = true /\
     (fst (combined_reduction sc) <=? 0.95)%float = true /\
     (0 <=? snd (combined_reduction sc))%float = true /\
     (snd (combined_reduction sc) <=? 0.95)%float = true) /\
  (forall sc,
     (Qabs (to_Q (fst (combined_reduction sc))
            - fst (ForecastService.combined_reduction sc)) <= 1 # 4503599627370496)%Q /\
     (Qabs (to_Q (snd (combined_reduction sc))
            - snd (ForecastService.combined_reduction sc)) <= 1 # 4503599627370496)%Q) /\
  (forall sc codes,
     codes ≡ₚ elements (ForecastService.all_interventions sc) ->
     (Qmin (ForecastFacts.compose_all (ForecastFacts.case_eff <$> codes) 0) (95 # 100)
      == fst (ForecastService.combined_reduction sc))%Q /\
     (Qmin (ForecastFacts.compose_all (ForecastFacts.death_eff <$> codes) 0) (95 # 100)
      == snd (ForecastService.combined_reduction sc))%Q) /\
  (fst (ForecastService.combined_reduction ForecastFacts.itn_then_irs) == 725 # 1000)%Q /\
  fst (combined_reduction ForecastFacts.itn_then_irs) = 0x1.7333333333334p-1%float /\
  (to_Q 0x1.7333333333334p-1 - to_Q 0.725 == 1 # 9007199254740992)%Q.
Proof.
  split; [exact elem_of_all_interventions|].
  split; [intros sc codes; unfold combined_reduction; by rewrite compose_pair|].
  split; [exact combined_reduction_same_codes|].
  split.
  { intros sc. pose proof (combined_reduction_in_range sc) as H.
    unfold in_range in H.
    apply andb_prop in H as [H H4]. apply andb_prop in H as [H H3].
    apply andb_prop in H as [H1 H2]. done. }
  split; [exact combined_reduction_close|].
  split.
  { intros sc codes Hp. unfold ForecastService.combined_reduction.
    rewrite ForecastFacts.fold_combine_step. cbn [fst snd].
    assert (Hs : codes
              ≡ₚ ForecastService.sorted (elements (ForecastService.all_interventions sc))).
    { by rewrite ForecastFacts.sorted_perm. }
    split; apply ForecastFacts.Qmin_proper_l, ForecastFacts.compose_all_perm;
      by apply fmap_Permutation. }
  repeat split; vm_compute; reflexivity.
Qed.

(** Two scenarios that list the same codes differently. *)
Lemma combined_reduction_binary64_witness :
  combined_reduction ForecastFacts.itn_then_irs
  = combined_reduction ForecastFacts.irs_itn_two_units.
Proof.
  destruct combined_reduction_binary64 as (Hpin & _ & Hsame & _).
  apply Hsame. intros code. rewrite <- !Hpin. vm_compute. tauto.
Defined.


End ForecastBinary64Facts.

(** ** Costing engine: the greedy budget optimizer *)

Module CostingFacts.
Import Session CostingBinary64 Binary64Facts.
Import PrimFloat SpecFloat FloatOps FloatAxioms.
#[local] Set Warnings "-inexact-float".

(** [a] ranks no later than [b]. *)
Definition ranks_before (a b : CeItem) : Prop := (icer a <=? icer b)%float = true.

(** The (unit, intervention) pairs of an assignment, in its order. *)
Definition pairs (d : list (string * list string)) : list (string * string) :=
  flat_map (fun unit : string * list string => (fun i => (fst unit, i)) <$> snd unit) d.

(** The greedy rule in the words of the specification: going through the
    ranked candidates, one is accepted when the cumulative cost with it stays
    within the budget, and passed over otherwise. *)
Inductive greedy (budget : float) : list CeItem -> float -> list CeItem -> float -> Prop :=
| greedy_done running :
    greedy budget [] running [] running
| greedy_accept item rest running selected total :
    (running + cost item <=? budget)%float = true ->
    greedy budget rest (running + cost item)%float selected total ->
    greedy budget (item :: rest) running (item :: selected) total
| greedy_pass item rest running selected total :
    (running + cost item <=? budget)%float = false ->
    greedy budget rest running selected total ->
    greedy budget (item :: rest) running selected total.

(** The assignment built from a list of selected candidates. *)
Definition group_into (d : list (string * list string)) (selected : list CeItem)
    : list (string * list string) :=
  fold_left (fun d item => dict_append d (unit_key item) (intervention item)) selected d.

(** Intervention [i] is assigned to unit [u]. *)
Definition assigned (d : list (string * list string)) (u i : string) : Prop :=
  exists l, (u, l) ∈ d /\ i ∈ l.

(** The cumulative cost of the selected candidates, added up in their
    order as the loop does. *)
Definition total_cost_of (selected : list CeItem) : float :=
  fold_left (fun running item => (running + cost item)%float) selected 0%float.

Definition no_nan (l : list CeItem) : Prop :=
  Forall (fun c => is_nan (icer c) = false) l.

Lemma insert_by_icer_perm x l : insert_by_icer x l ≡ₚ x :: l.
Proof.
  induction l as [|y l IH]; simpl; [done|].
  destruct (icer y <? icer x)%float; [|done].
  rewrite IH. apply perm_swap.
Qed.

Lemma sort_by_icer_perm l : sort_by_icer l ≡ₚ l.
Proof.
  induction l as [|x l IH]; simpl; [done|].
  by rewrite insert_by_icer_perm, IH.
Qed.

Lemma insert_by_icer_sorted x l :
  is_nan (icer x) = false -> no_nan l ->
  StronglySorted ranks_before l -> StronglySorted ranks_before (insert_by_icer x l).
Proof.
  intros Hx Hl Hs. induction Hs as [|y l Hs IH Hy]; simpl.
  - repeat constructor.
  - apply Forall_cons in Hl as [Hny Hl].
    destruct (icer y <? icer x)%float eqn:E.
    + constructor; [by apply IH|].
      rewrite insert_by_icer_perm. constructor; [|done]. by apply ltb_leb.
    + assert (ranks_before x y) as Hxy by (by apply not_ltb_leb).
      constructor; [by constructor|]. constructor; [done|].
      eapply Forall_impl; [exact Hy|]. intros z Hz. by eapply leb_trans.
Qed.

Lemma sort_by_icer_sorted l :
  no_nan l -> StronglySorted ranks_before (sort_by_icer l).
Proof.
  induction l as [|x l IH]; intros Hl; simpl; [constructor|].
  apply Forall_cons in Hl as [Hx Hl].
  apply insert_by_icer_sorted; [done| |by apply IH].
  unfold no_nan. by rewrite sort_by_icer_perm.
Qed.

(** Stability: candidates of equal ratio keep their order. *)
Lemma ltb_not_both_eqb (x y k : float) :
  (y <? x)%float = true -> (x =? k)%float = true -> (y =? k)%float = true -> False.
Proof.
  rewrite FloatAxioms.ltb_spec, !FloatAxioms.eqb_spec.
  unfold SFltb, SFeqb, SFcompare.
  destruct (Prim2SF x) as [sx|sx| |sx mx ex], (Prim2SF y) as [sy|sy| |sy my ey],
    (Prim2SF k) as [sk|sk| |sk mk ek]; try done;
    repeat match goal with s : bool |- _ => destruct s end; try done;
    change (Pos.compare_cont Eq) with Pos.compare;
    destruct (Z.compare_spec ey ex), (Z.compare_spec ex ek), (Z.compare_spec ey ek);
    try done; try lia; subst;
    destruct (Pos.compare_spec my mx), (Pos.compare_spec mx mk),
      (Pos.compare_spec my mk); try done; lia.
Qed.

Lemma insert_by_icer_stable (k : float) x l :
  filter (fun c => (icer c =? k)%float = true) (insert_by_icer x l)
  = filter (fun c => (icer c =? k)%float = true) (x :: l).
Proof.
  induction l as [|y l IH]; simpl; [done|].
  destruct (icer y <? icer x)%float eqn:E; [|done].
  destruct (decide ((icer y =? k)%float = true)) as [Hy|Hy].
  - rewrite (filter_cons_True _ y) by done. rewrite IH.
    assert (Hx : ~ (icer x =? k)%float = true).
    { intros Hx. by apply (ltb_not_both_eqb _ _ _ E Hx Hy). }
    rewrite !(filter_cons_False _ x) by done. by rewrite filter_cons_True.
  - rewrite (filter_cons_False _ y) by done. rewrite IH.
    destruct (decide ((icer x =? k)%float = true)) as [Hx|Hx].
    + rewrite !(filter_cons_True _ x) by done. by rewrite filter_cons_False.
    + rewrite !(filter_cons_False _ x) by done. by rewrite filter_cons_False.
Qed.

Lemma sort_by_icer_stable (k : float) l :
  filter (fun c => (icer c =? k)%float = true) (sort_by_icer l)
  = filter (fun c => (icer c =? k)%float = true) l.
Proof.
  induction l as [|x l IH]; simpl; [done|].
  rewrite insert_by_icer_stable.
  destruct (decide ((icer x =? k)%float = true)).
  - rewrite !filter_cons_True by done. by rewrite IH.
  - rewrite !filter_cons_False by done. by rewrite IH.
Qed.

Lemma sorted_infinite_last l i j a b :
  StronglySorted ranks_before l ->
  l !! i = Some a -> l !! j = Some b -> (i < j)%nat ->
  icer a = infinity -> icer b = infinity.
Proof.
  intros Hs. revert i j. induction Hs as [|x l Hs IH Hx]; intros i j Hi Hj Hij Ha.
  - by rewrite lookup_nil in Hi.
  - destruct j as [|j]; [lia|]. simpl in Hj. destruct i as [|i]; simpl in Hi.
    + injection Hi as ->. rewrite Forall_forall in Hx.
      specialize (Hx b (list_elem_of_lookup_2 _ _ _ Hj)).
      unfold ranks_before in Hx. rewrite Ha in Hx. by apply leb_infinity.
    + eapply (IH i j); eauto. lia.
Qed.

Lemma assigned_dict_append d k v u i :
  assigned (dict_append d k v) u i <-> assigned d u i \/ (u = k /\ i = v).
Proof.
  unfold assigned. induction d as [|[k' l'] d IH]; simpl.
  - split.
    + intros (l & Hl & Hi). apply list_elem_of_singleton in Hl. injection Hl as -> ->.
      apply list_elem_of_singleton in Hi. auto.
    + intros [(l & Hl & _)|[-> ->]]; [by apply not_elem_of_nil in Hl|].
      exists [v]. split; apply list_elem_of_here.
  - destruct (bool_decide (k' = k)) eqn:E.
    + apply bool_decide_eq_true_1 in E. subst k'. split.
      * intros (l & Hl & Hi). apply elem_of_cons in Hl as [Hl|Hl].
        -- injection Hl as -> ->. apply elem_of_app in Hi as [Hi|Hi].
           ++ left. exists l'. split; [apply list_elem_of_here|done].
           ++ apply list_elem_of_singleton in Hi. auto.
        -- left. exists l. split; [by apply list_elem_of_further|done].
      * intros [(l & Hl & Hi)|[-> ->]].
        -- apply elem_of_cons in Hl as [Hl|Hl].
           ++ injection Hl as -> ->. exists (l' ++ [v]).
              split; [apply list_elem_of_here|]. apply elem_of_app. auto.
           ++ exists l. split; [by apply list_elem_of_further|done].
        -- exists (l' ++ [v]). split; [apply list_elem_of_here|].
           apply elem_of_app. right. apply list_elem_of_here.
    + split.
      * intros (l & Hl & Hi). apply elem_of_cons in Hl as [Hl|Hl].
        -- injection Hl as -> ->. left. exists l'. split; [apply list_elem_of_here|done].
        -- destruct (proj1 IH) as [(l2 & Hl2 & Hi2)|?]; [by eauto| |by auto].
           left. exists l2. split; [by apply list_elem_of_further|done].
      * intros [(l & Hl & Hi)|Heq].
        -- apply elem_of_cons in Hl as [Hl|Hl].
           ++ injection Hl as -> ->. exists l'. split; [apply list_elem_of_here|done].
           ++ destruct (proj2 IH) as (l2 & Hl2 & Hi2); [by left; eauto|].
              exists l2. split; [by apply list_elem_of_further|done].
        -- destruct (proj2 IH) as (l2 & Hl2 & Hi2); [by right|].
           exists l2. split; [by apply list_elem_of_further|done].
Qed.

Lemma assigned_group_into selected : forall d u i,
  assigned (group_into d selected) u i <->
  assigned d u i \/ exists item, item ∈ selected /\ unit_key item = u /\ intervention item = i.
Proof.
  induction selected as [|x selected IH]; intros d u i; simpl.
  - split; [auto|]. intros [?|(item & H & _)]; [done|]. by apply not_elem_of_nil in H.
  - unfold group_into in *. simpl. rewrite IH, assigned_dict_append. split.
    + intros [[?|[-> ->]]|(item & H & ?)]; [auto| |].
      * right. exists x. split; [apply list_elem_of_here|done].
      * right. exists item. split; [by apply list_elem_of_further|done].
    + intros [?|(item & H & Hu & Hi)]; [auto|].
      apply elem_of_cons in H as [->|H]; [auto|].
      right. exists item. auto.
Qed.

Lemma select_step_greedy budget l : forall d running,
  exists selected total,
    fold_left (select_step budget) l (d, running) = (group_into d selected, total) /\
    greedy budget l running selected total.
Proof.
  induction l as [|x l IH]; intros d running; simpl.
  - exists [], running. split; [done|constructor].
  - destruct (running + cost x <=? budget)%float eqn:E.
    + destruct (IH (dict_append d (unit_key x) (intervention x))
                   (running + cost x)%float)
        as (sel & total & Hf & Hg).
      exists (x :: sel), total. split; [done|]. by apply greedy_accept.
    + destruct (IH d running) as (sel & total & Hf & Hg).
      exists sel, total. split; [done|]. by apply greedy_pass.
Qed.

Lemma greedy_within_budget budget l running selected total :
  greedy budget l running selected total ->
  (running <=? budget)%float = true -> (total <=? budget)%float = true.
Proof. induction 1; auto. Qed.

Lemma greedy_total budget l running selected total :
  greedy budget l running selected total ->
  total = fold_left (fun running item => (running + cost item)%float) selected running.
Proof. induction 1; simpl; done. Qed.

Lemma greedy_sublist budget l running selected total :
  greedy budget l running selected total -> sublist selected l.
Proof. induction 1; by constructor. Qed.

Lemma ce_data_pairs sc pop_map :
  (fun c => (unit_key c, intervention c)) <$> ce_data_of sc pop_map
  = pairs (interventions sc).
Proof.
  unfold ce_data_of, pairs. induction (interventions sc) as [|[u l] d IH]; [done|].
  simpl. rewrite fmap_app, IH. f_equal.
  rewrite <- list_fmap_compose. by apply list_fmap_ext.
Qed.

Lemma elem_of_pairs d u i : (u, i) ∈ pairs d <-> assigned d u i.
Proof.
  unfold pairs, assigned. rewrite list_elem_of_In, in_flat_map. split.
  - intros ([u' l] & Hin & Hi). apply list_elem_of_In in Hin, Hi.
    apply list_elem_of_fmap in Hi as (i' & [= -> ->] & Hi). by exists l.
  - intros (l & Hin & Hi). exists (u, l). split; [by apply list_elem_of_In|].
    apply list_elem_of_In, list_elem_of_fmap. by exists i.
Qed.

Definition two_district_scenario : InterventionScenario :=
  mkInterventionScenario "plan"
    [("D1", ["itn"; "irs"]); ("D2", ["smc"; "lsm"]); ("D3", ["cm"])]
    None None None None.

Definition two_district_population : list PopulationRow :=
  [ mkPopulationRow (Some "District 1") (Some "D1") (Some 1000%float);
    mkPopulationRow (Some "District 2") (Some "D2") (Some 2000%float) ].

Definition two_district_db : Db := mkDb {[ 7%N := two_district_scenario ]}.

(** Two districts with bed nets only, of 1000 and 50000 people. *)
Definition itn_scenario : InterventionScenario :=
  mkInterventionScenario "nets" [("D1", ["itn"]); ("D2", ["itn"])] None None None None.

Definition itn_population : list PopulationRow :=
  [ mkPopulationRow (Some "District 1") (Some "D1") (Some 1000%float);
    mkPopulationRow (Some "District 2") (Some "D2") (Some 50000%float) ].

(** C7: optimize_scenario ranks the (unit, intervention) candidates of the
    scenario's assignment by cost/effect in ascending order, where
    effect = population x a fixed rate per intervention and a candidate
    whose effect is not positive gets the ratio +infinity and comes last; it
    accepts candidates greedily while the cumulative cost stays within the
    budget, and stores exactly the selected candidates as the scenario's
    assignment, with their cumulative cost.  For a budget >= 0 the stored
    total cost is at most the budget.  All numbers are binary64 values and
    the cumulative cost is the rounded running sum of the code; the ranking
    is stated for ratios none of which is NaN. *)
Theorem optimize_scenario_greedy_within_budget (db : Db) (sid : N) (budget : float)
    (population_data : list PopulationRow) (sc : InterventionScenario)
    (pop_map : gmap string PopulationRow) :
  scenarios db !! sid = Some sc ->
  pop_map_of population_data ∅ = Some pop_map ->
  (0 <=? budget)%float = true ->
  Forall (fun c => is_nan (icer c) = false) (ce_data_of sc pop_map) ->
  exists sc' db' ranked selected total,
    optimize_scenario sid budget population_data db = Ok sc' db' /\
    scenarios db' = <[sid := sc']> (scenarios db) /\
    (fun c => (unit_key c, intervention c)) <$> ce_data_of sc pop_map
      = pairs (interventions sc) /\
    Forall (fun c =>
              effect c = (population_of pop_map (unit_key c)
                          * default 0.01 (effect_rates !! intervention c))%float /\
              cost c = _calculate_intervention_cost (intervention c)
                         (population_of pop_map (unit_key c)) DEFAULT_UNIT_COSTS 5 /\
              icer c = (if 0 <? effect c then cost c / effect c else infinity)%float)
           (ce_data_of sc pop_map) /\
    ranked ≡ₚ ce_data_of sc pop_map /\
    StronglySorted ranks_before ranked /\
    (forall k, filter (fun c => (icer c =? k)%float = true) ranked
               = filter (fun c => (icer c =? k)%float = true) (ce_data_of sc pop_map)) /\
    (forall i j a b, ranked !! i = Some a -> ranked !! j = Some b -> (i < j)%nat ->
                     icer a = infinity -> icer b = infinity) /\
    greedy budget ranked 0 selected total /\
    sublist selected ranked /\
    (forall u i, assigned (interventions sc') u i <->
                 exists c, c ∈ selected /\ unit_key c = u /\ intervention c = i) /\
    (forall u i, assigned (interventions sc') u i -> assigned (interventions sc) u i) /\
    total_cost sc' = Some total /\
    total = total_cost_of selected /\
    (total <=? budget)%float = true.
Proof.
  intros Hsc Hpop Hb Hnan.
  unfold optimize_scenario, bind, gets, modify, ret. rewrite Hsc, Hpop.
  destruct (select_step_greedy budget (sort_by_icer (ce_data_of sc pop_map)) [] 0%float)
    as (selected & total & Hf & Hg).
  rewrite Hf.
  assert (Hassigned : forall u i,
    assigned (group_into [] selected) u i <->
    exists c, c ∈ selected /\ unit_key c = u /\ intervention c = i).
  { intros u i. rewrite assigned_group_into. split; [|auto].
    intros [(l & Hl & _)|?]; [|done]. by apply not_elem_of_nil in Hl. }
  eexists _, _, (sort_by_icer (ce_data_of sc pop_map)), selected, total.
  split; [reflexivity|]. split; [reflexivity|].
  split; [apply ce_data_pairs|].
  split.
  { unfold ce_data_of. apply Forall_flat_map, Forall_forall. intros [u l] _.
    apply Forall_fmap, Forall_forall. intros i _. simpl. done. }
  split; [apply sort_by_icer_perm|].
  split; [by apply sort_by_icer_sorted|].
  split; [intros k; apply sort_by_icer_stable|].
  split; [intros i j a b; by apply sorted_infinite_last, sort_by_icer_sorted|].
  split; [done|]. split; [by eapply greedy_sublist|].
  split; [exact Hassigned|].
  split.
  { intros u i Hui. apply Hassigned in Hui as (c & Hc & <- & <-).
    apply elem_of_pairs. rewrite <- (ce_data_pairs sc pop_map).
    apply list_elem_of_fmap. exists c. split; [done|].
    rewrite <- (sort_by_icer_perm (ce_data_of sc pop_map)).
    eapply sublist_subseteq; [by eapply greedy_sublist|done]. }
  split; [done|]. split.
  - by rewrite (greedy_total _ _ _ _ _ Hg).
  - by eapply greedy_within_budget.
Qed.

Lemma optimize_scenario_greedy_within_budget_witness :
  exists sc' db' total,
    optimize_scenario 7%N 10000 two_district_population two_district_db = Ok sc' db' /\
    total_cost sc' = Some total /\ (total <=? 10000)%float = true.
Proof.
  destruct (optimize_scenario_greedy_within_budget two_district_db 7%N 10000
              two_district_population two_district_scenario
              (<["D2" := mkPopulationRow (Some "District 2") (Some "D2") (Some 2000%float)]>
                 (<["D1" := mkPopulationRow (Some "District 1") (Some "D1")
                              (Some 1000%float)]> ∅)))
    as (sc' & db' & ranked & selected & total & Hrun & _ & _ & _ & _ & _ & _ & _ & _
        & _ & _ & _ & Hcost & _ & Hle).
  - reflexivity.
  - reflexivity.
  - reflexivity.
  - vm_compute. repeat constructor.
  - exists sc', db', total. split; [exact Hrun|]. split; [exact Hcost|exact Hle].
Defined.

(** The optimizer on a concrete plan: the candidates that do not fit (smc,
    irs) are passed over and a later one that fits (cm, of ratio +infinity,
    ranked last) is still accepted. *)
Example optimize_two_districts :
  exists sc' db',
    optimize_scenario 7%N 10000 two_district_population two_district_db = Ok sc' db' /\
    (intervention <$> sort_by_icer (ce_data_of two_district_scenario
       (default ∅ (pop_map_of two_district_population ∅))))
      = ["lsm"; "itn"; "smc"; "irs"; "cm"] /\
    interventions sc' = [("D2", ["lsm"]); ("D1", ["itn"]); ("D3", ["cm"])] /\
    total_cost sc' = Some 4583.3333333333339%float.
Proof.
  vm_compute. eexists _, _. split; [reflexivity|].
  split; [reflexivity|]. split; reflexivity.
Qed.

(** The cumulative cost is a rounded sum.  Bed nets for 1000 and for 50000
    people cost 3833.3333333333335 and 191666.66666666669; their exact
    costs add up to 195500, but the sum of the two doubles is
    195500.00000000003, so with a budget of 195500 the second district is
    passed over. *)
Example optimize_budget_of_exact_total :
  exists sc' db',
    optimize_scenario 1%N 195500 itn_population (mkDb {[ 1%N := itn_scenario ]})
      = Ok sc' db' /\
    (cost <$> ce_data_of itn_scenario (default ∅ (pop_map_of itn_population ∅)))
      = [3833.3333333333335%float; 191666.66666666669%float] /\
    (3833.3333333333335 + 191666.66666666669 <=? 195500)%float = false /\
    interventions sc' = [("D1", ["itn"])] /\
    total_cost sc' = Some 3833.3333333333335%float.
Proof.
  vm_compute. eexists _, _. split; [reflexivity|].
  split; [reflexivity|]. split; [reflexivity|]. split; reflexivity.
Qed.

End CostingFacts.

(** ** Quality check engine *)

Module QualityFacts.
Import Session Enums Json Pandas QualityCheckService DataSourceService.
#[local] Open Scope Q_scope.

(** Two rows; in the second one deaths exceed cases. *)
Definition deaths_exceed_cases : Table :=
  [ ("cases", NumCol [Some 10; Some 5]);
    ("deaths", NumCol [Some 1; Some 7]) ].

Definition survey : DataSource :=
  mkDataSource 3%N "survey" (Some "survey.csv") "csv" None.

Definition survey_db : Db :=
  mkDb {[ "survey.csv" := deaths_exceed_cases ]} [].

(** The text of the recommendation of a check that scores below 0.7. *)
Definition improve_text (c : DataQualityCheck) : list string :=
  match score c with
  | Some s =>
      if Py.Qltb s (7 # 10)
      then ["Improve " +:+ check_type c +:+ ": score is " +:+ Py.format_pct 0 s]
      else []
  | None => []
  end.

Lemma recommendations_fold (records : list DataQualityCheck) : forall acc,
  fold_left
    (fun (recommendations : list string) (rec : DataQualityCheck) =>
       match score rec with
       | Some s =>
           if Py.Qltb s (7 # 10)
           then recommendations ++
                  ["Improve " +:+ check_type rec +:+ ": score is " +:+ Py.format_pct 0 s]
           else recommendations
       | None => recommendations
       end)
    records acc
  = acc ++ flat_map improve_text records.
Proof.
  induction records as [|r records IH]; intros acc; simpl.
  - by rewrite app_nil_r.
  - rewrite IH. unfold improve_text at 2.
    destruct (score r) as [s|]; [|done].
    destruct (Py.Qltb s (7 # 10)); [|done]. by rewrite <- app_assoc.
Qed.

(** What run_all_checks does: a recommendation for each check that scores
    below 0.7, whatever its number of issues. *)
Lemma run_all_checks_recommends_on_score_only {DF : Type} `{DataFrame DF}
    (ds : DataSource) (db : Db) (df : DF) :
  _load_data ds (mkDb (files db)
                   (filter (fun c => data_source_id c <> ds_id ds) (quality_checks db)))
    = Some df ->
  exists report db',
    run_all_checks ds db = Ok report db' /\
    recommendations report = flat_map improve_text (checks report).
Proof.
  intros Hload. unfold run_all_checks, bind, modify, gets, ret. rewrite Hload.
  destruct (fold_left _ checks_to_run _) as [records scores].
  eexists _, _. split; [reflexivity|]. simpl. by rewrite recommendations_fold.
Qed.

(** C4 at a table with one inconsistent row: the consistency check finds
    one issue and scores 0.85, and the report of run_all_checks carries no
    recommendation, while [_generate_recommendations] asks to review it. *)
Theorem run_all_checks_omits_issue_recommendations :
  exists report db',
    run_all_checks survey survey_db = Ok report db' /\
    (exists c s, c ∈ checks report /\ check_type c = "consistency" /\
                 issues_found c = 1%nat /\ score c = Some s /\ s == 85 # 100) /\
    recommendations report = [] /\
    _generate_recommendations (checks report)
      = ["Review 1 issues in consistency check"].
Proof.
  vm_compute. eexists _, _. split; [reflexivity|]. split.
  - eexists _, _. split; [apply list_elem_of_further, list_elem_of_here|].
    repeat split; reflexivity.
  - split; reflexivity.
Qed.

End QualityFacts.

(** ** Workflow: views, updates and completion criteria *)

Module WorkflowLaws.
Import Session Enums Json WorkflowService WorkflowFacts.

(** The status of [p] in [m] is not "completed" (a missing row counts). *)
Definition incomplete (m : gmap WorkflowStep WorkflowState) (p : WorkflowStep) : bool :=
  match m !! p with
  | None => true
  | Some st => negb (bool_decide (status st = COMPLETED))
  end.

(** Labels of the prerequisites of type [ty] in [ps] that are not completed. *)
Definition unmet (m : gmap WorkflowStep WorkflowState) (ty : PrerequisiteType)
    (ps : list (WorkflowStep * PrerequisiteType)) : list string :=
  (fun p : WorkflowStep * PrerequisiteType => WORKFLOW_STEP_LABELS p.1)
    <$> filter (fun p : WorkflowStep * PrerequisiteType =>
                  p.2 = ty /\ incomplete m p.1 = true) ps.

Definition prerequisite_scan (m : gmap WorkflowStep WorkflowState)
    (acc : list string * list string) (prereq : WorkflowStep * PrerequisiteType)
    : list string * list string :=
  let '(blocking, non_blocking) := acc in
  let '(prereq_step, prereq_type) := prereq in
  let incomplete :=
    match m !! prereq_step with
    | None => true
    | Some prereq_state => negb (bool_decide (status prereq_state = COMPLETED))
    end in
  if incomplete then
    let label := WORKFLOW_STEP_LABELS prereq_step in
    if bool_decide (prereq_type = BLOCKING)
    then (blocking ++ [label], non_blocking)
    else (blocking, non_blocking ++ [label])
  else (blocking, non_blocking).

Lemma prerequisite_scan_spec m ps : forall b nb,
  fold_left (prerequisite_scan m) ps (b, nb)
  = (b ++ unmet m BLOCKING ps, nb ++ unmet m NON_BLOCKING ps).
Proof.
  induction ps as [|[p ty] ps IH]; intros b nb.
  - unfold unmet. simpl. by rewrite !app_nil_r.
  - cbn [fold_left]. unfold prerequisite_scan at 2. fold (incomplete m p).
    unfold unmet. rewrite !filter_cons. cbn [fst snd].
    destruct (incomplete m p) eqn:Hi.
    + destruct ty.
      * rewrite bool_decide_eq_true_2 by done. rewrite IH.
        rewrite decide_True by done. rewrite decide_False by (intros [? _]; done).
        unfold unmet. cbn [fmap list_fmap]. by rewrite <- app_assoc.
      * rewrite bool_decide_eq_false_2 by done. rewrite IH.
        rewrite decide_False by (intros [? _]; done). rewrite decide_True by done.
        unfold unmet. cbn [fmap list_fmap]. by rewrite <- app_assoc.
    + rewrite IH. rewrite !decide_False by (intros [_ ?]; done). done.
Qed.

Lemma get_prerequisite_status_spec s m :
  _get_prerequisite_status s m
  = (unmet m BLOCKING (PREREQUISITES s), unmet m NON_BLOCKING (PREREQUISITES s)).
Proof.
  change (_get_prerequisite_status s m)
    with (fold_left (prerequisite_scan m) (PREREQUISITES s) ([], [])).
  by rewrite prerequisite_scan_spec.
Qed.

Lemma unmet_nil_iff m ty ps :
  unmet m ty ps = [] <->
  forall p, (p, ty) ∈ ps -> exists st, m !! p = Some st /\ status st = COMPLETED.
Proof.
  unfold unmet. split.
  - intros Hnil p Hp. apply fmap_nil_inv in Hnil.
    destruct (incomplete m p) eqn:Hi.
    + exfalso. by apply (filter_nil_not_elem_of _ _ (p, ty) Hnil).
    + unfold incomplete in Hi. destruct (m !! p) as [st|]; [|done].
      exists st. split; [done|]. apply negb_false_iff in Hi.
      by apply bool_decide_eq_true_1 in Hi.
  - intros Hall.
    destruct (filter _ ps) as [|[p ty'] l] eqn:E; [done|]. exfalso.
    assert ((p, ty') ∈ filter
      (fun p : WorkflowStep * PrerequisiteType => p.2 = ty /\ incomplete m p.1 = true) ps)
      as Hin by (rewrite E; apply list_elem_of_here).
    apply list_elem_of_filter in Hin as [[Hty Hi] Hin]. simpl in *. subst ty'.
    destruct (Hall p Hin) as (st & Hst & Hc). unfold incomplete in Hi.
    rewrite Hst in Hi. rewrite bool_decide_eq_true_2 in Hi by done. done.
Qed.

(** The response that [get_step] and [get_workflow_state] build for a row. *)
Definition step_response (m : gmap WorkflowStep WorkflowState) (step : WorkflowStep)
    (state : WorkflowState) : StepStatusResponse :=
  mkStepStatusResponse step (WORKFLOW_STEP_LABELS step) (status state)
    (completion_percentage state)
    (bool_decide (length (unmet m BLOCKING (PREREQUISITES step)) = 0%nat))
    (unmet m BLOCKING (PREREQUISITES step))
    (unmet m NON_BLOCKING (PREREQUISITES step))
    (notes state) (completed_at state) (data state) (validation_errors state).

Lemma get_step_response db s :
  get_step s db =
  match workflow_states db !! s with
  | Some st => Ok (step_response (workflow_states db) s st) db
  | None => ValueError ("Step " +:+ step_value s +:+ " not found")
  end.
Proof.
  unfold get_step, _get_all_states, bind, gets.
  destruct (workflow_states db !! s) as [st|]; [|done].
  by rewrite get_prerequisite_status_spec.
Qed.

Lemma accessible_iff m s :
  bool_decide (length (unmet m BLOCKING (PREREQUISITES s)) = 0%nat) = true <->
  forall p, (p, BLOCKING) ∈ PREREQUISITES s ->
    exists st, m !! p = Some st /\ status st = COMPLETED.
Proof.
  rewrite bool_decide_eq_true, length_zero_iff_nil. apply unmet_nil_iff.
Qed.

(** X1: get_step reports a step as accessible exactly when every
    blocking prerequisite of the step has a row whose status is completed
    (equivalently, when its list of blocking prerequisites is empty).  The
    two lists of the response hold the labels of the blocking and of the
    non-blocking prerequisites that are not completed, a prerequisite
    without a row counting as not completed.  Without a row for the step
    itself the call raises "Step <value> not found"; the store is never
    changed. *)
Theorem get_step_accessible_iff_blocking_completed (db : Db) (s : WorkflowStep) :
  match workflow_states db !! s with
  | None => get_step s db = ValueError ("Step " +:+ step_value s +:+ " not found")
  | Some st =>
      exists resp,
        get_step s db = Ok resp db /\
        r_status resp = status st /\
        (r_is_accessible resp = true <-> r_blocking_prerequisites resp = []) /\
        (r_is_accessible resp = true <->
         forall p, (p, BLOCKING) ∈ PREREQUISITES s ->
           exists st_p, workflow_states db !! p = Some st_p /\ status st_p = COMPLETED) /\
        (forall label, label ∈ r_blocking_prerequisites resp <->
           exists p, (p, BLOCKING) ∈ PREREQUISITES s /\
                     incomplete (workflow_states db) p = true /\
                     label = WORKFLOW_STEP_LABELS p) /\
        (forall label, label ∈ r_non_blocking_prerequisites resp <->
           exists p, (p, NON_BLOCKING) ∈ PREREQUISITES s /\
                     incomplete (workflow_states db) p = true /\
                     label = WORKFLOW_STEP_LABELS p)
  end.
Proof.
  rewrite get_step_response. destruct (workflow_states db !! s) as [st|]; [|done].
  eexists. split; [reflexivity|]. cbn [r_status r_is_accessible r_blocking_prerequisites
    r_non_blocking_prerequisites step_response].
  split; [done|]. split; [|split; [|split]].
  - by rewrite bool_decide_eq_true, length_zero_iff_nil.
  - apply accessible_iff.
  - intros label. unfold unmet. rewrite list_elem_of_fmap. split.
    + intros ([p ty] & -> & Hin). apply list_elem_of_filter in Hin as [[Hty Hi] Hin].
      simpl in *. subst ty. eauto.
    + intros (p & Hin & Hi & ->). exists (p, BLOCKING). split; [done|].
      apply list_elem_of_filter. done.
  - intros label. unfold unmet. rewrite list_elem_of_fmap. split.
    + intros ([p ty] & -> & Hin). apply list_elem_of_filter in Hin as [[Hty Hi] Hin].
      simpl in *. subst ty. eauto.
    + intros (p & Hin & Hi & ->). exists (p, NON_BLOCKING). split; [done|].
      apply list_elem_of_filter. done.
Qed.

(** *** get_workflow_state *)

Definition state_scan (m : gmap WorkflowStep WorkflowState)
    (acc : list StepStatusResponse * nat * option WorkflowStep)
    (step : WorkflowStep) : list StepStatusResponse * nat * option WorkflowStep :=
  let '(steps, completed_count, current_step) := acc in
  match m !! step with
  | None => acc
  | Some state =>
      let '(blocking, non_blocking) := _get_prerequisite_status step m in
      let is_accessible := bool_decide (length blocking = 0%nat) in
      let '(completed_count, current_step) :=
        if bool_decide (status state = COMPLETED)
        then (S completed_count, current_step)
        else if bool_decide (current_step = None) && is_accessible
             then (completed_count, Some step)
             else (completed_count, current_step) in
      (steps ++ [mkStepStatusResponse step (WORKFLOW_STEP_LABELS step)
                   (status state) (completion_percentage state)
                   is_accessible blocking non_blocking (notes state)
                   (completed_at state) (data state)
                   (validation_errors state)],
       completed_count, current_step)
  end.

Definition is_completed (m : gmap WorkflowStep WorkflowState) (s : WorkflowStep) : bool :=
  match m !! s with
  | Some st => bool_decide (status st = COMPLETED)
  | None => false
  end.

Definition is_accessible (m : gmap WorkflowStep WorkflowState) (s : WorkflowStep) : bool :=
  bool_decide (length (unmet m BLOCKING (PREREQUISITES s)) = 0%nat).

(** A stored step that is not completed and whose blocking prerequisites are. *)
Definition candidate (m : gmap WorkflowStep WorkflowState) (s : WorkflowStep) : bool :=
  match m !! s with
  | Some st => negb (bool_decide (status st = COMPLETED)) && is_accessible m s
  | None => false
  end.

Definition progress_of (completed_count : nat) : Q :=
  (inject_Z (Z.of_nat completed_count)
     / inject_Z (Z.of_nat (length WORKFLOW_STEP_ORDER)) * 100)%Q.

Lemma get_workflow_state_unfold db :
  get_workflow_state db =
  (let '(steps, completed_count, current_step) :=
     fold_left (state_scan (workflow_states db)) WORKFLOW_STEP_ORDER ([], 0%nat, None) in
   ret (mkWorkflowStateResponse steps (progress_of completed_count) current_step)) db.
Proof. reflexivity. Qed.

Lemma state_scan_spec m l : forall steps c cur,
  fold_left (state_scan m) l (steps, c, cur)
  = (steps ++ omap (fun s => step_response m s <$> m !! s) l,
     (c + length (filter (fun s => is_completed m s = true) l))%nat,
     match cur with Some x => Some x | None => find (candidate m) l end).
Proof.
  induction l as [|s l IH]; intros steps c cur.
  - simpl. rewrite app_nil_r, Nat.add_0_r. by destruct cur.
  - cbn [fold_left]. unfold state_scan at 2.
    cbn [omap list_omap find].
    assert (Hcompl : is_completed m s =
              match m !! s with
              | Some st => bool_decide (status st = COMPLETED) | None => false end)
      by reflexivity.
    assert (Hcand : candidate m s =
              match m !! s with
              | Some st => negb (bool_decide (status st = COMPLETED)) && is_accessible m s
              | None => false end)
      by reflexivity.
    destruct (m !! s) as [st|].
    + rewrite get_prerequisite_status_spec. cbn [fmap option_fmap option_map].
      unfold step_response. fold (is_accessible m s). rewrite Hcand.
      destruct (bool_decide (status st = COMPLETED)) eqn:Hc.
      * rewrite IH. rewrite filter_cons_True by done. cbn [length negb andb].
        rewrite <- app_assoc. cbn [app]. rewrite Nat.add_succ_comm. reflexivity.
      * rewrite filter_cons_False by (rewrite Hcompl; done). cbn [negb andb].
        destruct cur as [x|].
        -- rewrite bool_decide_eq_false_2 by done. cbn [andb]. rewrite IH.
           rewrite <- app_assoc. reflexivity.
        -- rewrite bool_decide_eq_true_2 by done. cbn [andb].
           destruct (is_accessible m s) eqn:Ha.
           ++ rewrite IH. rewrite <- app_assoc. reflexivity.
           ++ rewrite IH. rewrite <- app_assoc. reflexivity.
    + rewrite IH. rewrite filter_cons_False by (rewrite Hcompl; done).
      rewrite Hcand. done.
Qed.

Lemma elem_of_omap_responses m (l : list WorkflowStep) r :
  r ∈ omap (fun s => step_response m s <$> m !! s) l <->
  exists s st, s ∈ l /\ m !! s = Some st /\ r = step_response m s st.
Proof.
  rewrite list_elem_of_omap. split.
  - intros (s & Hin & Hr). destruct (m !! s) as [st|] eqn:Hs; [|done].
    simpl in Hr. injection Hr as <-. eauto.
  - intros (s & st & Hin & Hs & ->). exists s. split; [done|]. by rewrite Hs.
Qed.

Lemma fmap_omap_responses m (l : list WorkflowStep) :
  r_step <$> omap (fun s => step_response m s <$> m !! s) l
  = filter (fun s => is_Some (m !! s)) l.
Proof.
  induction l as [|s l IH]; [done|].
  cbn [omap list_omap]. rewrite filter_cons.
  destruct (m !! s) as [st|] eqn:Hs.
  - cbn [fmap option_fmap option_map]. rewrite decide_True by eauto.
    cbn [list_fmap]. rewrite <- IH. done.
  - cbn [fmap option_fmap option_map]. rewrite decide_False by (by intros [? ?]). done.
Qed.

(** X2: get_workflow_state never fails and never changes the store.
    Its list has one entry for each step that has a row, in workflow order
    (a step without a row is skipped), and an entry is in the list exactly
    when it is the response that get_step gives for its step. *)
Theorem get_workflow_state_lists_stored_steps (db : Db) :
  exists resp,
    get_workflow_state db = Ok resp db /\
    r_step <$> steps resp
      = filter (fun s => is_Some (workflow_states db !! s)) WORKFLOW_STEP_ORDER /\
    (forall r, r ∈ steps resp <-> get_step (r_step r) db = Ok r db).
Proof.
  rewrite get_workflow_state_unfold, state_scan_spec. cbn [app].
  eexists. split; [reflexivity|]. cbn [steps]. split.
  - apply fmap_omap_responses.
  - intros r. rewrite elem_of_omap_responses. rewrite get_step_response. split.
    + intros (s & st & _ & Hs & ->). cbn [r_step step_response]. by rewrite Hs.
    + intros Hg. destruct (workflow_states db !! r_step r) as [st|] eqn:Hs; [|done].
      injection Hg as <-. exists (r_step r), st.
      split; [apply WORKFLOW_STEP_ORDER_complete|]. done.
Qed.

Lemma filter_all {A} (P : A -> Prop) `{forall x, Decision (P x)} (l : list A) :
  (forall x, P x) -> filter P l = l.
Proof.
  intros HP. induction l as [|x l IH]; [done|].
  rewrite filter_cons_True by done. by rewrite IH.
Qed.

Lemma find_in_order (f : WorkflowStep -> bool) :
  match find f WORKFLOW_STEP_ORDER with
  | Some s => f s = true /\ forall t, (step_index t < step_index s)%nat -> f t = false
  | None => forall t, f t = false
  end.
Proof.
  unfold WORKFLOW_STEP_ORDER. cbn [find].
  repeat (match goal with |- context [if f ?s then _ else _] =>
            destruct (f s) eqn:?;
            [split; [done | intros t Ht; destruct t; cbn in Ht; (done || lia)] |]
          end).
  intros t. by destruct t.
Qed.

Lemma order_lookup_index s : WORKFLOW_STEP_ORDER !! step_index s = Some s.
Proof. by destruct s. Qed.

Lemma first_candidate_is_first_incomplete m :
  (forall s, is_Some (m !! s)) ->
  forall l1 l2, WORKFLOW_STEP_ORDER = l1 ++ l2 ->
    (forall t, t ∈ l1 -> is_completed m t = true) ->
    find (candidate m) l2 = find (fun s => negb (is_completed m s)) l2.
Proof.
  intros Hall l1 l2. revert l1. induction l2 as [|s l2 IH]; intros l1 Heq Hl1; [done|].
  cbn [find]. unfold candidate at 1, is_completed at 1.
  destruct (Hall s) as [st Hs]. rewrite Hs.
  destruct (bool_decide (status st = COMPLETED)) eqn:Hc; cbn [negb andb].
  - apply (IH (l1 ++ [s])).
    + by rewrite <- app_assoc.
    + intros t [Ht | Ht%list_elem_of_singleton]%elem_of_app; [by apply Hl1|].
      subst t. unfold is_completed. by rewrite Hs.
  - assert (is_accessible m s = true) as ->; [|done].
    apply accessible_iff. intros p Hp.
    assert (step_index s = length l1) as Hidx.
    { pose proof (order_lookup_index s) as H1.
      assert (WORKFLOW_STEP_ORDER !! length l1 = Some s) as H2.
      { rewrite Heq. by rewrite list_lookup_middle. }
      eapply NoDup_lookup; [apply WORKFLOW_STEP_ORDER_NoDup|done..]. }
    apply prerequisite_index in Hp.
    assert (p ∈ l1) as Hin.
    { pose proof (order_lookup_index p) as H1. rewrite Heq in H1.
      rewrite lookup_app_l in H1 by lia. by eapply list_elem_of_lookup_2. }
    specialize (Hl1 p Hin). unfold is_completed in Hl1.
    destruct (m !! p) as [stp|]; [|done]. exists stp. split; [done|].
    by apply bool_decide_eq_true_1 in Hl1.
Qed.

Lemma progress_of_tenfold n : (progress_of n == inject_Z (10 * Z.of_nat n))%Q.
Proof.
  unfold progress_of. change (length WORKFLOW_STEP_ORDER) with 10%nat.
  change (inject_Z (Z.of_nat 10)) with (10 # 1)%Q.
  rewrite inject_Z_mult. change (inject_Z 10) with (10 # 1)%Q. field.
Qed.

(** X3: On a project that has its ten rows, the current step of
    get_workflow_state is the first step, in workflow order, that is not
    completed: every earlier step is completed, and get_step reports the
    step as accessible.  There is no current step exactly when all ten
    steps are completed.  The list has the ten steps in order, and the
    overall progress is ten times the number of completed steps (in exact
    arithmetic; the binary64 quotient can differ in the last place). *)
Theorem get_workflow_state_current_step_first_incomplete (db : Db) :
  initialized db ->
  exists resp,
    get_workflow_state db = Ok resp db /\
    r_step <$> steps resp = WORKFLOW_STEP_ORDER /\
    match current_step resp with
    | Some s =>
        status <$> workflow_states db !! s <> Some COMPLETED /\
        (forall t, (step_index t < step_index s)%nat ->
           status <$> workflow_states db !! t = Some COMPLETED) /\
        (exists r, get_step s db = Ok r db /\ r_is_accessible r = true)
    | None => forall t, status <$> workflow_states db !! t = Some COMPLETED
    end /\
    (overall_progress resp ==
       inject_Z (10 * Z.of_nat (length
         (filter (fun s => status <$> workflow_states db !! s = Some COMPLETED)
                 WORKFLOW_STEP_ORDER))))%Q.
Proof.
  intros Hi.
  assert (Hcompl : forall t, is_completed (workflow_states db) t = true <->
                     status <$> workflow_states db !! t = Some COMPLETED).
  { intros t. unfold is_completed. destruct (workflow_states db !! t) as [st|]; [|done].
    simpl. rewrite bool_decide_eq_true. split; congruence. }
  rewrite get_workflow_state_unfold, state_scan_spec. cbn [app].
  eexists. split; [reflexivity|]. cbn [steps current_step overall_progress].
  split; [|split].
  - rewrite fmap_omap_responses. apply filter_all. intros s. apply Hi.
  - assert (Hfind : find (candidate (workflow_states db)) WORKFLOW_STEP_ORDER
              = find (fun s => negb (is_completed (workflow_states db) s))
                  WORKFLOW_STEP_ORDER).
    { apply (first_candidate_is_first_incomplete (workflow_states db) Hi []); [done|].
      intros t Ht. by apply not_elem_of_nil in Ht. }
    pose proof (find_in_order (fun s => negb (is_completed (workflow_states db) s))) as Hf.
    pose proof (find_some (candidate (workflow_states db)) WORKFLOW_STEP_ORDER) as Hsome.
    rewrite Hfind in Hsome |- *.
    destruct (find (fun s => negb (is_completed (workflow_states db) s))
                WORKFLOW_STEP_ORDER) as [s|].
    + destruct Hf as [Hs Hbefore]. split; [|split].
      * intros Hc. apply Hcompl in Hc. rewrite Hc in Hs. done.
      * intros t Ht. apply Hcompl. specialize (Hbefore t Ht).
        by apply negb_false_iff in Hbefore.
      * rewrite get_step_response. destruct (Hi s) as [st Hst]. rewrite Hst.
        eexists. split; [reflexivity|]. cbn [r_is_accessible step_response].
        destruct (Hsome s eq_refl) as [_ Hcand]. unfold candidate in Hcand.
        rewrite Hst in Hcand. apply andb_true_iff in Hcand as [_ Hacc]. exact Hacc.
    + intros t. apply Hcompl. specialize (Hf t). by apply negb_false_iff in Hf.
  - rewrite progress_of_tenfold. 
    assert (filter (fun s => is_completed (workflow_states db) s = true) WORKFLOW_STEP_ORDER
            = filter (fun s => status <$> workflow_states db !! s = Some COMPLETED)
                WORKFLOW_STEP_ORDER) as ->; [|reflexivity].
    apply list_filter_iff. intros t. apply Hcompl.
Qed.

(** *** update_step *)

Definition updated_row (req : StepUpdateRequest) (st : WorkflowState) : WorkflowState :=
  mkWorkflowState
    (if bool_decide (status st = NOT_STARTED) then IN_PROGRESS else status st)
    (match u_completion_percentage req with
     | Some pct => pct | None => completion_percentage st end)
    (match u_notes req with Some n => Some n | None => notes st end)
    (match u_data req with Some d => Some d | None => data st end)
    (validation_errors st) (completed_at st) (completed_by st).

Lemma set_states_alter_insert db s f st :
  workflow_states db !! s = Some st ->
  set_states (alter f s) db = set_states (fun m => <[s := f st]> m) db.
Proof.
  intros Hst. destruct db as [m a b c]; unfold set_states; simpl in *. f_equal.
  apply map_eq. intros t. destruct (decide (t = s)) as [->|Hne].
  - by rewrite lookup_alter_eq, lookup_insert_eq, Hst.
  - by rewrite lookup_alter_ne, lookup_insert_ne.
Qed.

Lemma update_step_run db s req st :
  workflow_states db !! s = Some st ->
  update_step s req db
  = get_step s (set_states (fun m => <[s := updated_row req st]> m) db).
Proof.
  intros Hst. unfold update_step. unfold bind at 1. rewrite (get_state_ok _ _ _ Hst).
  destruct (bool_decide (status st = NOT_STARTED)) eqn:Hns;
    destruct (u_notes req) as [n|] eqn:Hn;
    destruct (u_completion_percentage req) as [p|] eqn:Hp;
    destruct (u_data req) as [d|] eqn:Hd;
    unfold bind, when, update_state, modify, ret;
    rewrite ?set_states_compose; f_equal;
    destruct db as [m a b c]; unfold set_states; simpl in *; f_equal;
    apply map_eq; intros t; destruct (decide (t = s)) as [->|Hne];
    rewrite ?lookup_alter_eq, ?lookup_alter_ne, ?lookup_insert_eq, ?lookup_insert_ne by done;
    rewrite ?Hst; try done;
    unfold updated_row; rewrite Hns, Hn, Hp, Hd; simpl; try done;
    destruct st; reflexivity.
Qed.

(** X4: update_step on a step without a row raises "Workflow state for
    step <value> not found".  Otherwise it succeeds and rewrites that row
    only: a not_started step becomes in_progress and any other status is
    kept (a completed step stays completed, whatever percentage is
    written); notes, completion percentage and data are replaced when the
    request gives them and kept when it does not; the completion timestamp,
    the completer and the validation snapshot are kept; no other row and no
    other table changes. *)
Theorem update_step_effect (db : Db) (s : WorkflowStep) (req : StepUpdateRequest) :
  match workflow_states db !! s with
  | None =>
      update_step s req db
      = ValueError ("Workflow state for step " +:+ step_value s +:+ " not found")
  | Some st =>
      exists resp db',
        update_step s req db = Ok resp db' /\
        workflow_states db' = <[s := updated_row req st]> (workflow_states db) /\
        data_sources db' = data_sources db /\
        strat_configs db' = strat_configs db /\
        strat_results db' = strat_results db /\
        r_status resp
          = (if bool_decide (status st = NOT_STARTED) then IN_PROGRESS else status st) /\
        (status st = COMPLETED -> r_status resp = COMPLETED) /\
        r_completed_at resp = completed_at st /\
        r_validation_errors resp = validation_errors st /\
        (u_notes req = None -> r_notes resp = notes st) /\
        (u_completion_percentage req = None ->
           r_completion_percentage resp = completion_percentage st) /\
        (u_data req = None -> r_data resp = data st)
  end.
Proof.
  destruct (workflow_states db !! s) as [st|] eqn:Hst.
  - rewrite (update_step_run db s req st Hst). rewrite get_step_response.
    destruct db as [m a b c]; cbn [workflow_states set_states data_sources strat_configs
      strat_results] in *.
    rewrite lookup_insert_eq. eexists _, _. split; [reflexivity|].
    cbn [workflow_states data_sources strat_configs strat_results
         r_status r_completed_at r_validation_errors r_notes r_completion_percentage
         r_data step_response updated_row status completed_at validation_errors notes
         completion_percentage data].
    repeat split; try reflexivity.
    + intros ->. reflexivity.
    + by intros ->.
    + by intros ->.
    + by intros ->.
  - unfold update_step. unfold bind at 1. unfold _get_state, bind, gets.
    by rewrite Hst.
Qed.

(** *** validate_step and complete_step *)

Section Validation.
Variable set_iteration : gset string -> list string.

Lemma get_state_alter db s f st :
  workflow_states db !! s = Some st ->
  _get_state s (set_states (alter f s) db) = Ok (f st) (set_states (alter f s) db).
Proof.
  intros Hst. apply get_state_ok. destruct db; simpl in *.
  by rewrite lookup_alter_eq, Hst.
Qed.

(** The validators do not read the stored validation snapshot. *)
Lemma validators_ignore_snapshot db step st x errs warns :
  workflow_states db !! step = Some st ->
  validators set_iteration step step db = Ok (errs, warns) db ->
  validators set_iteration step step
    (set_states (alter (with_validation_errors x) step) db)
  = Ok (errs, warns) (set_states (alter (with_validation_errors x) step) db).
Proof.
  intros Hst.
  destruct step; unfold validators;
    unfold _validate_planning, _validate_data_assembly, _validate_situation_analysis,
      _validate_stratification, _validate_generic;
    unfold bind at 1; try rewrite (get_state_ok _ _ _ Hst);
    unfold bind at 1; try rewrite (get_state_alter _ _ _ _ Hst);
    unfold gets, bind, ret; destruct db as [m a b c]; cbn [data_sources strat_configs
      strat_results set_states with_validation_errors data completion_percentage];
    repeat match goal with |- context [if ?b then _ else _] => destruct b end;
    intros H; injection H as <- <-; reflexivity.
Qed.

(** X5: validate_step on a step that has a row succeeds, and running
    it again on the resulting store gives the same response and leaves the
    store as it is.  The only thing it writes is the validation snapshot
    {errors, warnings} of that step: every other field, row and table is
    unchanged. *)
Theorem validate_step_idempotent (db : Db) (step : WorkflowStep) :
  is_Some (workflow_states db !! step) ->
  exists validation db1,
    validate_step set_iteration step db = Ok validation db1 /\
    validate_step set_iteration step db1 = Ok validation db1 /\
    workflow_states db1
      = alter (with_validation_errors
                 (Some (errors validation, warnings validation)))
              step (workflow_states db) /\
    data_sources db1 = data_sources db /\
    strat_configs db1 = strat_configs db /\
    strat_results db1 = strat_results db.
Proof.
  intros [st Hst].
  destruct (validators_ok set_iteration db step st Hst) as (errs & warns & Hv).
  rewrite (validate_step_run set_iteration db step st errs warns Hst Hv).
  eexists _, _. split; [reflexivity|]. cbn [errors warnings]. split.
  - set (x := Some (errs, warns)).
    assert (Hst1 : workflow_states (set_states (alter (with_validation_errors x) step) db)
                   !! step = Some (with_validation_errors x st)).
    { destruct db; simpl in *. by rewrite lookup_alter_eq, Hst. }
    rewrite (validate_step_run set_iteration _ step _ errs warns Hst1
               (validators_ignore_snapshot db step st x errs warns Hst Hv)).
    f_equal. rewrite set_states_compose.
    destruct db as [m a b c]; unfold set_states; simpl. f_equal.
    rewrite alter_alter_eq. apply alter_ext. intros y _. reflexivity.
  - by destruct db.
Qed.

Lemma complete_step_run db step st errs warns user_id now :
  workflow_states db !! step = Some st ->
  validators set_iteration step step db = Ok (errs, warns) db ->
  complete_step set_iteration step user_id now db
  = if bool_decide (length errs = 0%nat)
    then get_step step
           (set_states (fun m => <[step := completed_row warns user_id now st]> m) db)
    else ValueError ("Step cannot be completed: " +:+ Py.join ", " errs).
Proof.
  intros Hst Hv. unfold complete_step. unfold bind at 1.
  rewrite (validate_step_run set_iteration db step st errs warns Hst Hv).
  cbn [is_valid errors]. destruct (bool_decide (length errs = 0%nat)) eqn:He; [|done].
  cbn [negb]. unfold bind at 1.
  rewrite (get_state_alter db step _ st Hst).
  unfold bind at 1 2 3 4. unfold update_state, modify. rewrite !set_states_compose.
  f_equal. destruct db as [m a b c]; unfold set_states; simpl in *. f_equal.
  apply bool_decide_eq_true_1, length_zero_iff_nil in He. subst errs.
  apply map_eq. intros t. destruct (decide (t = step)) as [->|Hne].
  - by rewrite !lookup_alter_eq, lookup_insert_eq, Hst.
  - by rewrite !lookup_alter_ne, lookup_insert_ne.
Qed.

Lemma filter_ext_elem {A} (P Q : A -> Prop) `{forall x, Decision (P x)}
    `{forall x, Decision (Q x)} (l : list A) :
  (forall x, x ∈ l -> P x <-> Q x) -> filter P l = filter Q l.
Proof.
  induction l as [|x l IH]; intros Hl; [done|].
  rewrite !filter_cons. rewrite IH by (intros y Hy; apply Hl; by apply list_elem_of_further).
  destruct (decide (P x)) as [HP|HP].
  - rewrite decide_True; [done|]. apply Hl; [apply list_elem_of_here|done].
  - rewrite decide_False; [done|]. intros HQ. apply HP. apply Hl; [apply list_elem_of_here|done].
Qed.

Lemma unmet_insert_self m ty s st :
  unmet (<[s := st]> m) ty (PREREQUISITES s) = unmet m ty (PREREQUISITES s).
Proof.
  unfold unmet. f_equal. apply filter_ext_elem. intros [p ty'] Hin. simpl.
  unfold incomplete. rewrite lookup_insert_ne; [done|].
  intros <-. by apply no_self_prerequisite in Hin.
Qed.

Definition generic_steps : list WorkflowStep :=
  [INTERVENTION_TAILORING; IMPACT_FORECASTING; SCENARIO_SELECTION;
   RESOURCE_OPTIMIZATION; SERVICE_DELIVERY; MONITORING_EVALUATION].

Lemma validate_generic_run db step st :
  workflow_states db !! step = Some st ->
  exists warns, _validate_generic step db = Ok ([], warns) db.
Proof.
  intros Hst. unfold _validate_generic. unfold bind. rewrite (get_state_ok _ _ _ Hst).
  unfold ret. eauto.
Qed.

(** X6: complete_step does not look at prerequisites.  Each of
    the six steps that are validated by the generic validator (intervention
    tailoring to monitoring and evaluation) can be completed whenever its
    row exists, whatever its completion percentage and whatever the state of
    its prerequisites: the response has status completed at 100 percent,
    and its accessibility and blocking list are the ones get_step gave
    before the call, so a step can be completed while it is inaccessible. *)
Theorem complete_step_generic_ignores_prerequisites (db : Db) (step : WorkflowStep)
    (user_id : N) (now : Z) :
  step ∈ generic_steps ->
  is_Some (workflow_states db !! step) ->
  exists resp db',
    complete_step set_iteration step user_id now db = Ok resp db' /\
    r_status resp = COMPLETED /\
    r_completion_percentage resp = 100%Q /\
    (forall before, get_step step db = Ok before db ->
       r_is_accessible resp = r_is_accessible before /\
       r_blocking_prerequisites resp = r_blocking_prerequisites before).
Proof.
  intros Hgen [st Hst].
  assert (exists warns, validators set_iteration step step db = Ok ([], warns) db)
    as [warns Hv].
  { unfold generic_steps in Hgen.
    repeat (apply elem_of_cons in Hgen as [->|Hgen];
            [exact (validate_generic_run db _ st Hst)|]).
    by apply not_elem_of_nil in Hgen. }
  rewrite (complete_step_run db step st [] warns user_id now Hst Hv).
  cbn [length]. rewrite bool_decide_eq_true_2 by done.
  rewrite !get_step_response. rewrite Hst.
  destruct db as [m a b c]; cbn [workflow_states set_states] in *.
  rewrite lookup_insert_eq. eexists _, _. split; [reflexivity|].
  cbn [r_status r_completion_percentage step_response completed_row status
       completion_percentage].
  split; [done|]. split; [done|].
  intros before Hb. injection Hb as <-.
  cbn [r_is_accessible r_blocking_prerequisites step_response].
  by rewrite !unmet_insert_self.
Qed.

Lemma complete_step_succeeds_iff db step st errs warns user_id now :
  workflow_states db !! step = Some st ->
  validators set_iteration step step db = Ok (errs, warns) db ->
  (exists resp db', complete_step set_iteration step user_id now db = Ok resp db')
  <-> errs = [].
Proof.
  intros Hst Hv. rewrite (complete_step_run db step st errs warns user_id now Hst Hv).
  split.
  - intros (resp & db' & H). destruct errs; [done|]. simpl in H. discriminate.
  - intros ->. cbn [length]. rewrite bool_decide_eq_true_2 by done.
    rewrite get_step_response. destruct db as [m a b c]; cbn [workflow_states set_states].
    rewrite lookup_insert_eq. eauto.
Qed.

(** X7: Completing the planning step succeeds if and only if the data
    of its row has truthy values for both "scope_of_work" and
    "operational_unit" (a missing timeline only gives a warning);
    completing the situation analysis step succeeds if and only if the data
    of its row has a truthy "analysis_completed". *)
Theorem complete_step_payload_criteria (db : Db) (user_id : N) (now : Z) :
  (forall st, workflow_states db !! PLANNING_PREPAREDNESS = Some st ->
     (exists resp db',
        complete_step set_iteration PLANNING_PREPAREDNESS user_id now db = Ok resp db')
     <-> get_truthy (default ∅ (data st)) "scope_of_work" = true /\
         get_truthy (default ∅ (data st)) "operational_unit" = true) /\
  (forall st, workflow_states db !! SITUATION_ANALYSIS = Some st ->
     (exists resp db',
        complete_step set_iteration SITUATION_ANALYSIS user_id now db = Ok resp db')
     <-> get_truthy (default ∅ (data st)) "analysis_completed" = true).
Proof.
  split; intros st Hst.
  - destruct (validators_ok set_iteration db _ st Hst) as (errs & warns & Hv).
    rewrite (complete_step_succeeds_iff db _ st errs warns user_id now Hst Hv).
    unfold validators, _validate_planning, bind in Hv.
    rewrite (get_state_ok _ _ _ Hst) in Hv. unfold ret in Hv. injection Hv as <- _.
    destruct (get_truthy _ "scope_of_work"), (get_truthy _ "operational_unit");
      cbn; split; try done; intros [? ?]; done.
  - destruct (validators_ok set_iteration db _ st Hst) as (errs & warns & Hv).
    rewrite (complete_step_succeeds_iff db _ st errs warns user_id now Hst Hv).
    unfold validators, _validate_situation_analysis, bind in Hv.
    rewrite (get_state_ok _ _ _ Hst) in Hv. unfold ret in Hv. injection Hv as <-.
    destruct (get_truthy _ "analysis_completed"); cbn; split; done.
Qed.

(** X8: Completing the data assembly step succeeds if and only if the
    project has a data source of type "epidemiological" and one of type
    "demographic".  Quality scores play no part: a low score only gives a
    warning. *)
Theorem complete_step_data_assembly_criteria (db : Db) (user_id : N) (now : Z) :
  is_Some (workflow_states db !! DATA_ASSEMBLY) ->
  (exists resp db',
     complete_step set_iteration DATA_ASSEMBLY user_id now db = Ok resp db')
  <-> (exists ds, ds ∈ data_sources db /\ source_type ds = "epidemiological") /\
      (exists ds, ds ∈ data_sources db /\ source_type ds = "demographic").
Proof.
  intros [st Hst].
  destruct (validators_ok set_iteration db DATA_ASSEMBLY st Hst) as (errs & warns & Hv).
  rewrite (complete_step_succeeds_iff db DATA_ASSEMBLY st errs warns user_id now Hst Hv).
  unfold validators, _validate_data_assembly, bind, gets, ret in Hv.
  assert (Hin : forall ty : string,
            ty ∈ (list_to_set (source_type <$> data_sources db) : gset string)
            <-> exists ds, ds ∈ data_sources db /\ source_type ds = ty).
  { intros ty. rewrite elem_of_list_to_set, list_elem_of_fmap.
    split; intros (ds & H1 & H2); eauto. }
  destruct (bool_decide (length (data_sources db) = 0%nat)) eqn:Hlen.
  - injection Hv as <- <-. apply bool_decide_eq_true_1, length_zero_iff_nil in Hlen.
    split; [done|]. intros [(ds & Hds & _) _]. rewrite Hlen in Hds.
    by apply not_elem_of_nil in Hds.
  - injection Hv as <- _.
    rewrite <- !Hin.
    destruct (bool_decide (_ ≠ ∅)) eqn:Hm.
    + apply bool_decide_eq_true_1 in Hm. split; [done|]. intros [H1 H2].
      exfalso. apply Hm. set_solver.
    + apply bool_decide_eq_false_1 in Hm. split; [|done]. intros _.
      apply dec_stable in Hm.
      assert (forall x : string, x ∈ ({[ "epidemiological"; "demographic" ]} : gset string) ->
                x ∈ (list_to_set (source_type <$> data_sources db) : gset string)) as Hsub.
      { intros x Hx. destruct (decide (x ∈ (list_to_set (source_type <$> data_sources db)
                                              : gset string))) as [|Hn]; [done|].
        exfalso. eapply (not_elem_of_empty (C:=gset string) x). rewrite <- Hm.
        apply elem_of_difference. done. }
      split; apply Hsub; set_solver.
Qed.

Lemma stratification_errors_spec (results : list StratificationResult)
    (configs : list StratificationConfig) : forall errs0,
  fold_left
    (fun (errors : list string) (config : StratificationConfig) =>
       let results := filter (fun r => config_id r = cfg_id config) results in
       if bool_decide (length results = 0%nat)
       then errors ++ ["No stratification results for config '"
                         +:+ cfg_name config +:+ "'"]
       else errors)
    configs errs0 = [] <->
  errs0 = [] /\
  forall c, c ∈ configs -> exists r, r ∈ results /\ config_id r = cfg_id c.
Proof.
  induction configs as [|c configs IH]; intros errs0.
  - simpl. split; [|by intros [? _]]. intros ->. split; [done|].
    intros c Hc. by apply not_elem_of_nil in Hc.
  - cbn [fold_left]. rewrite IH.
    destruct (bool_decide (length (filter _ results) = 0%nat)) eqn:Hlen.
    + split.
      * intros [Hnil _]. by destruct errs0.
      * intros [-> Hall]. exfalso.
        destruct (Hall c (list_elem_of_here _ _)) as (r & Hr & Hid).
        apply bool_decide_eq_true_1, length_zero_iff_nil in Hlen.
        by apply (filter_nil_not_elem_of _ _ r Hlen).
    + apply bool_decide_eq_false_1 in Hlen. split.
      * intros [-> Hall]. split; [done|]. intros c' [->|Hc']%elem_of_cons; [|by apply Hall].
        destruct (filter _ results) as [|r l] eqn:E; [done|].
        assert (r ∈ filter (fun r => config_id r = cfg_id c) results) as Hr
          by (rewrite E; apply list_elem_of_here).
        apply list_elem_of_filter in Hr as [? ?]. eauto.
      * intros [-> Hall]. split; [done|]. intros c' Hc'. apply Hall.
        by apply list_elem_of_further.
Qed.

(** X9: Completing the stratification step succeeds if and only if
    the project has at least one active stratification configuration and
    every active configuration has at least one result; inactive
    configurations are not looked at. *)
Theorem complete_step_stratification_criteria (db : Db) (user_id : N) (now : Z) :
  is_Some (workflow_states db !! STRATIFICATION) ->
  (exists resp db',
     complete_step set_iteration STRATIFICATION user_id now db = Ok resp db')
  <-> (exists c, c ∈ strat_configs db /\ is_active c = true) /\
      (forall c, c ∈ strat_configs db -> is_active c = true ->
         exists r, r ∈ strat_results db /\ config_id r = cfg_id c).
Proof.
  intros [st Hst].
  destruct (validators_ok set_iteration db STRATIFICATION st Hst) as (errs & warns & Hv).
  rewrite (complete_step_succeeds_iff db STRATIFICATION st errs warns user_id now Hst Hv).
  unfold validators, _validate_stratification, bind, gets, ret in Hv.
  destruct (bool_decide (length (filter _ (strat_configs db)) = 0%nat)) eqn:Hlen.
  - injection Hv as <- <-. apply bool_decide_eq_true_1, length_zero_iff_nil in Hlen.
    split; [done|]. intros [(c & Hc & Ha) _]. exfalso.
    by apply (filter_nil_not_elem_of _ _ c Hlen).
  - injection Hv as <- _.
    rewrite stratification_errors_spec. apply bool_decide_eq_false_1 in Hlen. split.
    + intros [_ Hall]. split.
      * destruct (filter _ (strat_configs db)) as [|c l] eqn:E; [done|].
        assert (c ∈ filter (fun c => is_active c = true) (strat_configs db)) as Hc
          by (rewrite E; apply list_elem_of_here).
        apply list_elem_of_filter in Hc as [? ?]. eauto.
      * intros c Hc Ha. apply Hall. by apply list_elem_of_filter.
    + intros [_ Hall]. split; [done|]. intros c Hc.
      apply list_elem_of_filter in Hc as [? ?]. by apply Hall.
Qed.

Definition same_tables (db db' : Db) : Prop :=
  data_sources db' = data_sources db /\
  strat_configs db' = strat_configs db /\
  strat_results db' = strat_results db.

Lemma get_step_store db s r db' : get_step s db = Ok r db' -> db' = db.
Proof.
  rewrite get_step_response. destruct (workflow_states db !! s); [|done].
  intros H. by injection H.
Qed.

Lemma initialized_insert db s st :
  initialized db -> initialized (set_states (fun m => <[s := st]> m) db).
Proof.
  intros Hi t. destruct db; simpl in *. rewrite lookup_insert_is_Some'. right. apply Hi.
Qed.

(** X10: The mutating operations keep the workflow rows.  On a project
    that has its ten rows, whenever update_step, validate_step,
    complete_step or reopen_step succeeds, the resulting store still has
    the ten rows, and the data sources, stratification configurations and
    stratification results are unchanged. *)
Theorem workflow_operations_keep_rows (db : Db) (s : WorkflowStep) :
  initialized db ->
  (forall req r db', update_step s req db = Ok r db' ->
     initialized db' /\ same_tables db db') /\
  (forall r db', validate_step set_iteration s db = Ok r db' ->
     initialized db' /\ same_tables db db') /\
  (forall user_id now r db', complete_step set_iteration s user_id now db = Ok r db' ->
     initialized db' /\ same_tables db db') /\
  (forall r db', reopen_step s db = Ok r db' ->
     initialized db' /\ same_tables db db').
Proof.
  intros Hi. destruct (Hi s) as [st Hst].
  destruct (validators_ok set_iteration db s st Hst) as (errs & warns & Hv).
  split; [|split; [|split]].
  - intros req r db'. rewrite (update_step_run db s req st Hst).
    intros H%get_step_store. subst db'. split; [by apply initialized_insert|].
    by destruct db.
  - intros r db'. rewrite (validate_step_run set_iteration db s st errs warns Hst Hv).
    intros H. injection H as _ <-. split; [|by destruct db].
    apply initialized_set_states; [|done]. intros m u. apply lookup_alter_is_Some.
  - intros user_id now r db'.
    rewrite (complete_step_run db s st errs warns user_id now Hst Hv).
    destruct (bool_decide _); [|done].
    intros H%get_step_store. subst db'. split; [by apply initialized_insert|].
    by destruct db.
  - intros r db'. rewrite (reopen_step_run db s Hi).
    intros H%get_step_store. subst db'. split; [|by destruct db].
    apply initialized_set_states; [|done]. intros m u. apply is_Some_reopen_map.
Qed.

End Validation.

(** *** The prerequisite graph *)

(** [requires t s]: [s] is listed as a prerequisite of [t]. *)
Definition requires (t s : WorkflowStep) : Prop :=
  exists ty, (s, ty) ∈ PREREQUISITES t.

(** X11: The prerequisite graph has no cycle.  A step reached from
    another one through one or more prerequisite links comes strictly
    earlier in the workflow order, so no step is, directly or indirectly,
    a prerequisite of itself; a prerequisite of a step is the step just
    before it in WORKFLOW_STEP_ORDER. *)
Theorem prerequisites_acyclic :
  (forall t s, tc requires t s -> (step_index s < step_index t)%nat) /\
  (forall s, ~ tc requires s s) /\
  (forall t s, requires t s ->
     exists i, WORKFLOW_STEP_ORDER !! i = Some s /\
               WORKFLOW_STEP_ORDER !! S i = Some t).
Proof.
  assert (Hlt : forall t s, tc requires t s -> (step_index s < step_index t)%nat).
  { intros t s H. induction H as [t s [ty H]|t u s [ty H] _ IH].
    - apply prerequisite_index in H. lia.
    - apply prerequisite_index in H. lia. }
  split; [exact Hlt|]. split.
  - intros s H. apply Hlt in H. lia.
  - intros t s [ty H]. apply prerequisite_index in H. exists (step_index s).
    split; [apply order_lookup_index|]. rewrite <- H. apply order_lookup_index.
Qed.

(** *** Sample projects *)

(** A project with an epidemiological and a demographic source of low
    quality. *)
Definition assembled_project : Db :=
  mkDb (workflow_states new_project)
       [mkDataSource "hmis" "epidemiological" (Some (3 # 10));
        mkDataSource "census" "demographic" None]
       [] [].

(** A project with an active configuration that has a result and an
    inactive one that has none. *)
Definition stratified_project : Db :=
  mkDb (workflow_states new_project) []
       [mkStratificationConfig 1 "pfpr" true; mkStratificationConfig 2 "old" false]
       [mkStratificationResult 1].

Lemma get_workflow_state_current_step_first_incomplete_witness :
  exists resp,
    get_workflow_state three_completed = Ok resp three_completed /\
    r_step <$> steps resp = WORKFLOW_STEP_ORDER.
Proof.
  destruct (get_workflow_state_current_step_first_incomplete three_completed)
    as (resp & Hrun & Hsteps & _).
  - intros s. destruct s; vm_compute; eauto.
  - exists resp. split; [exact Hrun | exact Hsteps].
Defined.

Lemma validate_step_idempotent_witness :
  exists validation db1,
    validate_step elements PLANNING_PREPAREDNESS new_project = Ok validation db1 /\
    validate_step elements PLANNING_PREPAREDNESS db1 = Ok validation db1.
Proof.
  destruct (validate_step_idempotent elements new_project PLANNING_PREPAREDNESS)
    as (v & db1 & H1 & H2 & _).
  - vm_compute. eauto.
  - exists v, db1. split; [exact H1 | exact H2].
Defined.

Lemma complete_step_generic_ignores_prerequisites_witness :
  exists resp db',
    complete_step elements IMPACT_FORECASTING 1%N 5 new_project = Ok resp db' /\
    r_status resp = COMPLETED.
Proof.
  destruct (complete_step_generic_ignores_prerequisites elements new_project
              IMPACT_FORECASTING 1%N 5) as (resp & db' & H1 & H2 & _).
  - unfold generic_steps. set_solver.
  - vm_compute. eauto.
  - exists resp, db'. split; [exact H1 | exact H2].
Defined.

Lemma complete_step_data_assembly_criteria_witness :
  exists resp db',
    complete_step elements DATA_ASSEMBLY 1%N 5 assembled_project = Ok resp db'.
Proof.
  apply (complete_step_data_assembly_criteria elements assembled_project 1%N 5).
  - vm_compute. eauto.
  - split.
    + exists (mkDataSource "hmis" "epidemiological" (Some (3 # 10))).
      split; [|reflexivity]. apply list_elem_of_here.
    + exists (mkDataSource "census" "demographic" None).
      split; [|reflexivity]. apply list_elem_of_further, list_elem_of_here.
Defined.

Lemma complete_step_stratification_criteria_witness :
  exists resp db',
    complete_step elements STRATIFICATION 1%N 5 stratified_project = Ok resp db'.
Proof.
  apply (complete_step_stratification_criteria elements stratified_project 1%N 5).
  - vm_compute. eauto.
  - split.
    + exists (mkStratificationConfig 1 "pfpr" true). split; [|reflexivity].
      apply list_elem_of_here.
    + intros c Hc Ha. exists (mkStratificationResult 1). split; [apply list_elem_of_here|].
      apply elem_of_cons in Hc as [->|Hc]; [reflexivity|].
      apply list_elem_of_singleton in Hc. subst c. discriminate.
Defined.

Lemma workflow_operations_keep_rows_witness :
  exists r db',
    reopen_step DATA_ASSEMBLY new_project = Ok r db' /\
    initialized db' /\ same_tables new_project db'.
Proof.
  destruct (workflow_operations_keep_rows elements new_project DATA_ASSEMBLY)
    as (_ & _ & _ & Hreopen).
  - intros s. destruct s; vm_compute; eauto.
  - destruct (reopen_step DATA_ASSEMBLY new_project) as [r db'| |] eqn:Hrun;
      [|vm_compute in Hrun; discriminate..].
    exists r, db'. split; [reflexivity|]. exact (Hreopen r db' eq_refl).
Defined.

(** The example of a route through the workflow: on a new project the
    sixth step completes although its prerequisite is not completed, and
    the workflow view still points at the first step. *)
Example complete_out_of_order :
  exists resp db' view,
    complete_step elements IMPACT_FORECASTING 1%N 5 new_project = Ok resp db' /\
    r_status resp = COMPLETED /\ r_is_accessible resp = false /\
    r_blocking_prerequisites resp = ["Intervention Tailoring"] /\
    get_workflow_state db' = Ok view db' /\
    current_step view = Some PLANNING_PREPAREDNESS /\
    (overall_progress view == 10)%Q.
Proof.
  destruct (complete_step elements IMPACT_FORECASTING 1%N 5 new_project)
    as [resp db'| |] eqn:Hrun; [|vm_compute in Hrun; discriminate..].
  destruct (get_workflow_state db') as [view db''| |] eqn:Hview;
    [|exfalso; revert Hview; injection Hrun as _ <-; vm_compute; discriminate..].
  exists resp, db', view.
  assert (r_status resp = COMPLETED /\ r_is_accessible resp = false /\
          r_blocking_prerequisites resp = ["Intervention Tailoring"]) as (?&?&?).
  { vm_compute in Hrun. injection Hrun as <- _. repeat split; reflexivity. }
  assert (db'' = db' /\ current_step view = Some PLANNING_PREPAREDNESS /\
          (overall_progress view == 10)%Q) as (-> & ? & ?).
  { vm_compute in Hrun. injection Hrun as _ <-. vm_compute in Hview.
    injection Hview as <- <-. repeat split; reflexivity. }
  repeat split; assumption.
Qed.

End WorkflowLaws.

(** ** Stratification: stored results and their summary *)

Module StratificationLaws.
Import Session Enums Json StratificationService.

(** The row that [calculate_stratification] stores for an item. *)
Definition row_of (config_id : N) (config : StratificationConfig)
    (item : UnitItem) (r : StratificationResult) : Prop :=
  r_config_id r = config_id /\
  admin_unit_name item = Some (r_admin_unit_name r) /\
  metric_value item = Some (r_metric_value r) /\
  r_risk_level r = _assign_risk_level (r_metric_value r) (c_thresholds config) /\
  r_eligible_interventions r
    = Some (_determine_eligible_interventions (r_risk_level r) (c_metric config)
             (item_dict item)) /\
  r_admin_unit_code r = admin_unit_code item /\
  r_population r = population item /\
  r_cases_annual r = cases_annual item /\
  r_deaths_annual r = deaths_annual item.

Definition well_formed (item : UnitItem) : Prop :=
  is_Some (metric_value item) /\ is_Some (admin_unit_name item).

Lemma eligible_ignores_unit_data l m d d' :
  _determine_eligible_interventions l m d = _determine_eligible_interventions l m d'.
Proof. reflexivity. Qed.

Lemma calculate_rows_app cid config good : forall acc db,
  Forall well_formed good ->
  exists rows,
    Forall2 (row_of cid config) good rows /\
    forall tail,
      calculate_rows cid config (good ++ tail) acc db
      = calculate_rows cid config tail (acc ++ rows)
          (with_results (fun l => l ++ rows) db).
Proof.
  induction good as [|item good IH]; intros acc db Hwf.
  - exists []. split; [constructor|]. intros tail. cbn [app]. rewrite app_nil_r.
    f_equal. destruct db; unfold with_results; simpl. by rewrite app_nil_r.
  - apply Forall_cons in Hwf as [[[v Hv] [n Hn]] Hwf].
    set (row := mkStratificationResult cid n (admin_unit_code item) v
                  (_assign_risk_level v (c_thresholds config))
                  (Some (_determine_eligible_interventions
                           (_assign_risk_level v (c_thresholds config))
                           (c_metric config) (item_dict item)))
                  (population item) (cases_annual item) (deaths_annual item)).
    destruct (IH (acc ++ [row]) (with_results (fun rows => rows ++ [row]) db) Hwf)
      as (rows & Hrows & Hrun).
    exists (row :: rows). split.
    + constructor; [|done]. subst row. unfold row_of. cbn. by repeat split.
    + intros tail. cbn [app calculate_rows]. rewrite Hv, Hn.
      unfold subscript, bind at 1, ret. unfold bind at 1. unfold bind at 1, modify.
      fold row. rewrite Hrun. rewrite <- app_assoc. f_equal.
      destruct db; unfold with_results; simpl. by rewrite <- app_assoc.
Qed.

Lemma calculate_rows_run cid config data acc db :
  Forall well_formed data ->
  exists rows,
    calculate_rows cid config data acc db
      = Ok (acc ++ rows) (with_results (fun l => l ++ rows) db) /\
    Forall2 (row_of cid config) data rows.
Proof.
  intros Hwf. destruct (calculate_rows_app cid config data acc db Hwf)
    as (rows & Hrows & Hrun).
  exists rows. split; [|done]. specialize (Hrun []). rewrite app_nil_r in Hrun.
  by rewrite Hrun.
Qed.

Lemma row_of_config_id cid config data rows :
  Forall2 (row_of cid config) data rows ->
  Forall (fun r => r_config_id r = cid) rows.
Proof.
  induction 1 as [|item r data rows Hr _ IH]; constructor; [|done]. apply Hr.
Qed.

Lemma filter_other_app cid (old rows : list StratificationResult) :
  Forall (fun r => r_config_id r = cid) rows ->
  filter (fun r => r_config_id r <> cid) (old ++ rows)
  = filter (fun r => r_config_id r <> cid) old.
Proof.
  intros Hrows. rewrite filter_app.
  assert (filter (fun r => r_config_id r <> cid) rows = []) as ->; [|by rewrite app_nil_r].
  induction Hrows as [|r rows Hr _ IH]; [done|].
  rewrite filter_cons_False by (intros H; by apply H). done.
Qed.

Lemma filter_same_of_other cid (rs : list StratificationResult) :
  filter (fun r => r_config_id r = cid) (filter (fun r => r_config_id r <> cid) rs) = [].
Proof.
  induction rs as [|r rs IH]; [done|].
  rewrite (filter_cons (fun r => r_config_id r <> cid)).
  destruct (decide (r_config_id r <> cid)) as [Hne|_]; [|done].
  by rewrite filter_cons_False.
Qed.

Lemma filter_same_all cid (rows : list StratificationResult) :
  Forall (fun r => r_config_id r = cid) rows ->
  filter (fun r => r_config_id r = cid) rows = rows.
Proof.
  induction 1 as [|r rows Hr _ IH]; [done|].
  rewrite filter_cons_True by done. by rewrite IH.
Qed.

Lemma filter_other_idemp cid (rs : list StratificationResult) :
  filter (fun r => r_config_id r <> cid) (filter (fun r => r_config_id r <> cid) rs)
  = filter (fun r => r_config_id r <> cid) rs.
Proof.
  rewrite list_filter_filter. apply list_filter_iff. tauto.
Qed.

Lemma calculate_stratification_run (db : Db) (config_id : N)
    (config : StratificationConfig) (data : list UnitItem) :
  configs db !! config_id = Some config ->
  Forall well_formed data ->
  exists rows db',
    calculate_stratification config_id data db = Ok rows db' /\
    Forall2 (row_of config_id config) data rows /\
    results db'
      = filter (fun r => r_config_id r <> config_id) (results db) ++ rows /\
    filter (fun r => r_config_id r = config_id) (results db') = rows /\
    configs db' = configs db /\
    calculate_stratification config_id data db' = Ok rows db'.
Proof.
  intros Hc Hwf.
  assert (Hunfold : forall db0, configs db0 !! config_id = Some config ->
    calculate_stratification config_id data db0
    = calculate_rows config_id config data []
        (with_results (filter (fun r => r_config_id r <> config_id)) db0)).
  { intros db0 H0. unfold calculate_stratification, bind at 1, gets. by rewrite H0. }
  rewrite (Hunfold db Hc).
  destruct (calculate_rows_run config_id config data []
              (with_results (filter (fun r => r_config_id r <> config_id)) db) Hwf)
    as (rows & Hrun & Hrows).
  pose proof (row_of_config_id _ _ _ _ Hrows) as Hids.
  eexists _, _. split; [exact Hrun|]. cbn [app].
  split; [exact Hrows|]. split; [by destruct db|]. split; [|split; [by destruct db|]].
  - destruct db as [cs rs]; cbn. rewrite filter_app.
    by rewrite filter_same_of_other, filter_same_all.
  - rewrite Hunfold by (by destruct db).
    destruct db as [cs rs]; unfold with_results in *; cbn in *.
    rewrite (filter_other_app _ _ _ Hids), filter_other_idemp.
    exact Hrun.
Qed.

(** A call that returns has found a metric value and a name in every
    item. *)
Lemma calculate_rows_returns cid config data : forall acc db rows db',
  calculate_rows cid config data acc db = Ok rows db' -> Forall well_formed data.
Proof.
  induction data as [|item data IH]; intros acc db rows db' Hrun; [constructor|].
  cbn [calculate_rows] in Hrun.
  destruct (metric_value item) as [v|] eqn:Hv; [|discriminate].
  destruct (admin_unit_name item) as [n|] eqn:Hn; [|discriminate].
  unfold subscript, bind at 1, ret in Hrun. unfold bind at 1 in Hrun.
  unfold bind at 1, modify in Hrun.
  constructor; [|by eapply IH].
  split; [by rewrite Hv | by rewrite Hn].
Qed.

Lemma calculate_stratification_returns db config_id data rows db' :
  calculate_stratification config_id data db = Ok rows db' ->
  exists config, configs db !! config_id = Some config /\ Forall well_formed data.
Proof.
  intros Hrun. unfold calculate_stratification, bind at 1, gets in Hrun.
  destruct (configs db !! config_id) as [config|] eqn:Hc; [|discriminate].
  exists config. split; [done|].
  unfold bind at 1, modify in Hrun. by eapply calculate_rows_returns.
Qed.

(** X12: Whenever calculate_stratification returns, it has replaced the
    results of its configuration wholesale.  The configuration exists, the
    call has stored one result per item, in order, each with the risk level
    that the thresholds of the configuration assign to its metric value and
    the interventions eligible at that level; afterwards the results of the
    configuration are exactly these rows, the results of other
    configurations and the configurations themselves are unchanged, and
    calculating again with the same data gives the same rows and the same
    store.  (The call does not return for an unknown configuration, for an
    item without a metric value or a name, or when the database refuses a
    row.) *)
Theorem calculate_stratification_replaces_results (db : Db) (config_id : N)
    (data : list UnitItem) (rows : list StratificationResult) (db' : Db) :
  calculate_stratification config_id data db = Ok rows db' ->
  exists config,
    configs db !! config_id = Some config /\
    Forall2 (row_of config_id config) data rows /\
    results db'
      = filter (fun r => r_config_id r <> config_id) (results db) ++ rows /\
    filter (fun r => r_config_id r = config_id) (results db') = rows /\
    configs db' = configs db /\
    calculate_stratification config_id data db' = Ok rows db'.
Proof.
  intros Hrun.
  destruct (calculate_stratification_returns _ _ _ _ _ Hrun) as (config & Hc & Hwf).
  destruct (calculate_stratification_run db config_id config data Hc Hwf)
    as (rows0 & db0 & Hrun0 & H).
  rewrite Hrun in Hrun0. injection Hrun0 as <- <-. by exists config.
Qed.

Lemma calculate_rows_missing_key cid config good bad rest acc db :
  Forall well_formed good ->
  (metric_value bad = None ->
   calculate_rows cid config (good ++ bad :: rest) acc db = KeyError "metric_value") /\
  (is_Some (metric_value bad) -> admin_unit_name bad = None ->
   calculate_rows cid config (good ++ bad :: rest) acc db = KeyError "admin_unit_name").
Proof.
  intros Hwf. destruct (calculate_rows_app cid config good acc db Hwf)
    as (rows & _ & Hrun).
  rewrite Hrun. cbn [calculate_rows]. split.
  - intros ->. reflexivity.
  - intros [v ->] ->. reflexivity.
Qed.

(** X13: calculate_stratification raises "Stratification config not
    found" for an unknown configuration.  For a known one, the first item
    that lacks a key decides: a missing "metric_value" raises KeyError
    'metric_value', and an item with a metric value but without
    "admin_unit_name" raises KeyError 'admin_unit_name', whatever the items
    after it are. *)
Theorem calculate_stratification_errors (db : Db) (config_id : N)
    (data : list UnitItem) :
  (configs db !! config_id = None ->
   calculate_stratification config_id data db
   = ValueError "Stratification config not found") /\
  (forall good bad rest,
     is_Some (configs db !! config_id) ->
     data = good ++ bad :: rest -> Forall well_formed good ->
     (metric_value bad = None ->
      calculate_stratification config_id data db = KeyError "metric_value") /\
     (is_Some (metric_value bad) -> admin_unit_name bad = None ->
      calculate_stratification config_id data db = KeyError "admin_unit_name")).
Proof.
  split.
  - intros Hc. unfold calculate_stratification, bind, gets. by rewrite Hc.
  - intros good bad rest [config Hc] -> Hwf.
    assert (calculate_stratification config_id (good ++ bad :: rest) db
            = calculate_rows config_id config (good ++ bad :: rest) []
                (with_results (filter (fun r => r_config_id r <> config_id)) db)) as ->.
    { unfold calculate_stratification, bind at 1, gets. by rewrite Hc. }
    by apply calculate_rows_missing_key.
Qed.

(** *** get_summary *)

Definition summary_scan (acc : gmap string nat * Z * Z) (r : StratificationResult)
    : gmap string nat * Z * Z :=
  let '(risk_dist, total_pop, total_cases) := acc in
  let key := risk_level_value (r_risk_level r) in
  let risk_dist := <[key := (default 0%nat (risk_dist !! key) + 1)%nat]> risk_dist in
  let total_pop :=
    if truthy_int (r_population r)
    then (total_pop + default 0 (r_population r))%Z else total_pop in
  let total_cases :=
    if truthy_int (r_cases_annual r)
    then (total_cases + default 0 (r_cases_annual r))%Z else total_cases in
  (risk_dist, total_pop, total_cases).

(** Sum of a nullable integer column, a null counting as 0. *)
Definition column_sum (f : StratificationResult -> option Z)
    (rows : list StratificationResult) : Z :=
  foldr (fun r acc => (default 0 (f r) + acc)%Z) 0%Z rows.

Definition level_count (level : RiskLevel) (rows : list StratificationResult) : nat :=
  length (filter (fun r => r_risk_level r = level) rows).

Lemma truthy_add (v : option Z) (acc : Z) :
  (if truthy_int v then (acc + default 0 v)%Z else acc) = (acc + default 0 v)%Z.
Proof.
  destruct v as [z|]; simpl; [|lia].
  destruct (Z.eqb_spec z 0); simpl; lia.
Qed.

Lemma risk_level_value_inj : Inj (=) (=) risk_level_value.
Proof. intros [] []; simpl; congruence. Qed.

Lemma summary_scan_spec rows : forall dist p c,
  exists dist',
    fold_left summary_scan rows (dist, p, c)
      = (dist', (p + column_sum r_population rows)%Z,
                (c + column_sum r_cases_annual rows)%Z) /\
    (forall k, default 0%nat (dist' !! k)
       = (default 0%nat (dist !! k)
          + length (filter (fun r => risk_level_value (r_risk_level r) = k) rows))%nat) /\
    (forall k, is_Some (dist' !! k) <->
       is_Some (dist !! k) \/ exists r, r ∈ rows /\ risk_level_value (r_risk_level r) = k).
Proof.
  induction rows as [|r rows IH]; intros dist p c.
  - exists dist. cbn [fold_left column_sum foldr]. rewrite !Z.add_0_r.
    split; [reflexivity|]. split.
    + intros k. rewrite filter_nil. cbn [length]. lia.
    + intros k. split; [by left|]. intros [H|(r & Hr & _)]; [done|].
      by apply not_elem_of_nil in Hr.
  - cbn [fold_left]. unfold summary_scan at 2. rewrite !truthy_add.
    set (key := risk_level_value (r_risk_level r)).
    destruct (IH (<[key := (default 0%nat (dist !! key) + 1)%nat]> dist)
                (p + default 0 (r_population r))%Z
                (c + default 0 (r_cases_annual r))%Z) as (dist' & Hrun & Hcount & Hkeys).
    exists dist'. split; [|split].
    + rewrite Hrun. cbn [column_sum foldr]. by rewrite !Z.add_assoc.
    + intros k. rewrite Hcount. rewrite filter_cons. fold key.
      destruct (decide (key = k)) as [<-|Hne].
      * rewrite lookup_insert_eq. cbn. lia.
      * rewrite lookup_insert_ne by done. lia.
    + intros k. rewrite Hkeys. rewrite lookup_insert_is_Some. split.
      * intros [[Hk|[_ Hk]]|(r' & Hr' & Hk)].
        -- right. exists r. split; [apply list_elem_of_here|done].
        -- by left.
        -- right. exists r'. split; [by apply list_elem_of_further|done].
      * intros [Hk|(r' & Hr' & Hk)].
        -- destruct (decide (key = k)); [left; by left | left; by right].
        -- apply elem_of_cons in Hr' as [->|Hr'].
           ++ left. by left.
           ++ right. eauto.
Qed.

Lemma get_summary_unfold db cid :
  get_summary cid db =
  match configs db !! cid with
  | None => ValueError "Config not found"
  | Some config =>
      let rows := filter (fun r => r_config_id r = cid) (results db) in
      (let '(risk_dist, total_pop, total_cases) :=
         fold_left summary_scan rows (∅, 0%Z, 0%Z) in
       ret (mkStratificationSummaryResponse (c_id config) (c_name config)
              (c_metric config) (length rows) risk_dist total_pop total_cases)) db
  end.
Proof.
  unfold get_summary, bind at 1, gets. destruct (configs db !! cid); reflexivity.
Qed.

Lemma level_counts_total rows :
  (level_count VERY_LOW rows + level_count LOW rows
   + level_count MODERATE rows + level_count HIGH rows)%nat = length rows.
Proof.
  unfold level_count. induction rows as [|r rows IH]; [done|].
  rewrite !filter_cons. cbn [length]. rewrite <- IH.
  destruct (r_risk_level r);
    repeat (first [rewrite decide_True by done | rewrite decide_False by done]);
    cbn [length]; lia.
Qed.

Lemma summary_run db cid config :
  configs db !! cid = Some config ->
  exists resp,
    get_summary cid db = Ok resp db /\
    s_config_name resp = c_name config /\
    s_metric resp = c_metric config /\
    total_units resp
      = length (filter (fun r => r_config_id r = cid) (results db)) /\
    (forall level,
       default 0%nat (risk_distribution resp !! risk_level_value level)
       = level_count level (filter (fun r => r_config_id r = cid) (results db))) /\
    (forall k, is_Some (risk_distribution resp !! k) <->
       exists r, r ∈ filter (fun r => r_config_id r = cid) (results db) /\
                 risk_level_value (r_risk_level r) = k) /\
    total_population resp
      = column_sum r_population (filter (fun r => r_config_id r = cid) (results db)) /\
    total_cases resp
      = column_sum r_cases_annual (filter (fun r => r_config_id r = cid) (results db)).
Proof.
  intros Hc. rewrite get_summary_unfold, Hc. cbn zeta.
  destruct (summary_scan_spec (filter (fun r => r_config_id r = cid) (results db))
              ∅ 0%Z 0%Z) as (dist & Hrun & Hcount & Hkeys).
  rewrite Hrun. eexists. split; [reflexivity|].
  cbn [s_config_name s_metric total_units risk_distribution total_population total_cases].
  split; [done|]. split; [done|]. split; [done|]. split; [|split; [|split; [done|done]]].
  - intros level. rewrite Hcount. rewrite lookup_empty. cbn. unfold level_count.
    f_equal. apply list_filter_iff. intros r. split; [apply risk_level_value_inj|by intros ->].
  - intros k. rewrite Hkeys. rewrite lookup_empty. split.
    + intros [[? H]|H]; [done|exact H].
    + intros H. by right.
Qed.

(** X14: get_summary raises "Config not found" for an unknown
    configuration and otherwise leaves the store unchanged.  total_units is
    the number of results of the configuration; the risk distribution maps
    each level to the number of results at that level and has a key exactly
    for the levels that occur, so that its four counts add up to
    total_units; total_population and total_cases are the sums of the two
    columns, a null counting as 0. *)
Theorem get_summary_counts (db : Db) (config_id : N) :
  match configs db !! config_id with
  | None => get_summary config_id db = ValueError "Config not found"
  | Some config =>
      let rows := filter (fun r => r_config_id r = config_id) (results db) in
      exists resp,
        get_summary config_id db = Ok resp db /\
        total_units resp = length rows /\
        (forall level,
           default 0%nat (risk_distribution resp !! risk_level_value level)
           = length (filter (fun r => r_risk_level r = level) rows)) /\
        (forall k, is_Some (risk_distribution resp !! k) <->
           exists r, r ∈ rows /\ risk_level_value (r_risk_level r) = k) /\
        (default 0%nat (risk_distribution resp !! "very_low")
         + default 0%nat (risk_distribution resp !! "low")
         + default 0%nat (risk_distribution resp !! "moderate")
         + default 0%nat (risk_distribution resp !! "high"))%nat = total_units resp /\
        total_population resp = column_sum r_population rows /\
        total_cases resp = column_sum r_cases_annual rows
  end.
Proof.
  destruct (configs db !! config_id) as [config|] eqn:Hc.
  - cbn zeta.
    destruct (summary_run db config_id config Hc)
      as (resp & Hrun & _ & _ & Hunits & Hcount & Hkeys & Hpop & Hcases).
    exists resp. split; [done|]. split; [done|]. split; [exact Hcount|].
    split; [exact Hkeys|]. split; [|done].
    pose proof (Hcount VERY_LOW) as H1. pose proof (Hcount LOW) as H2.
    pose proof (Hcount MODERATE) as H3. pose proof (Hcount HIGH) as H4.
    cbn [risk_level_value] in H1, H2, H3, H4. rewrite H1, H2, H3, H4, Hunits.
    apply level_counts_total.
  - rewrite get_summary_unfold. by rewrite Hc.
Qed.

(** *** Composition *)

Lemma update_config_run db cid config data :
  configs db !! cid = Some config ->
  exists config',
    update_config cid data db
      = Ok config' (with_configs (fun m => <[cid := config']> m) db) /\
    c_id config' = c_id config /\
    c_metric config' = c_metric config /\
    c_name config' = default (c_name config) (u_name data) /\
    c_thresholds config' = default (c_thresholds config) (u_thresholds data) /\
    c_is_active config' = default (c_is_active config) (u_is_active data).
Proof.
  intros Hc. unfold update_config, bind at 1, gets. rewrite Hc.
  unfold bind, modify, ret. eexists. split; [reflexivity|].
  destruct (u_name data), (u_thresholds data), (u_is_active data); cbn; done.
Qed.

(** X15: update_config raises "Stratification config not found" for an
    unknown configuration.  Otherwise it rewrites the name, thresholds and
    active flag that the request gives, keeps the metric, and touches no
    result: the stored risk levels are not recalculated when the thresholds
    change, so the summary of the configuration has the same counts and
    totals as before the update (only the name follows the update). *)
Theorem update_config_does_not_recalculate (db : Db) (config_id : N)
    (data : StratificationConfigUpdate) :
  match configs db !! config_id with
  | None => update_config config_id data db
            = ValueError "Stratification config not found"
  | Some config =>
      exists config' db',
        update_config config_id data db = Ok config' db' /\
        c_thresholds config' = default (c_thresholds config) (u_thresholds data) /\
        c_is_active config' = default (c_is_active config) (u_is_active data) /\
        c_metric config' = c_metric config /\
        configs db' = <[config_id := config']> (configs db) /\
        results db' = results db /\
        (forall before, get_summary config_id db = Ok before db ->
           exists after,
             get_summary config_id db' = Ok after db' /\
             s_config_name after = default (c_name config) (u_name data) /\
             total_units after = total_units before /\
             risk_distribution after = risk_distribution before /\
             total_population after = total_population before /\
             total_cases after = total_cases before)
  end.
Proof.
  destruct (configs db !! config_id) as [config|] eqn:Hc.
  - destruct (update_config_run db config_id config data Hc)
      as (config' & Hrun & _ & Hmetric & Hname & Hth & Hact).
    eexists _, _. split; [exact Hrun|]. split; [done|]. split; [done|]. split; [done|].
    split; [by destruct db|]. split; [by destruct db|].
    intros before. rewrite !get_summary_unfold. rewrite Hc.
    destruct db as [cs rs]; cbn [configs results with_configs] in *.
    rewrite lookup_insert_eq. cbn zeta.
    destruct (fold_left summary_scan _ _) as [[dist p] c]. unfold ret.
    intros H. injection H as <-. eexists. split; [reflexivity|].
    cbn. by rewrite Hname.
  - unfold update_config, bind, gets. by rewrite Hc.
Qed.

Lemma summary_after_calculation_run (db : Db) (config_id : N)
    (config : StratificationConfig) (data : list UnitItem) :
  configs db !! config_id = Some config ->
  Forall well_formed data ->
  exists rows db' summary,
    calculate_stratification config_id data db = Ok rows db' /\
    get_summary config_id db' = Ok summary db' /\
    total_units summary = length data /\
    (forall level,
       default 0%nat (risk_distribution summary !! risk_level_value level)
       = length (filter
           (fun item => (fun v => _assign_risk_level v (c_thresholds config))
                          <$> metric_value item = Some level) data)) /\
    total_population summary
      = foldr (fun item acc => (default 0 (population item) + acc)%Z) 0%Z data.
Proof.
  intros Hc Hwf.
  assert (calculate_stratification config_id data db
          = calculate_rows config_id config data []
              (with_results (filter (fun r => r_config_id r <> config_id)) db)) as ->.
  { unfold calculate_stratification, bind at 1, gets. by rewrite Hc. }
  destruct (calculate_rows_run config_id config data []
              (with_results (filter (fun r => r_config_id r <> config_id)) db) Hwf)
    as (rows & Hrun & Hrows).
  rewrite Hrun. cbn [app].
  set (db' := with_results (fun l => l ++ rows) _).
  assert (Hc' : configs db' !! config_id = Some config) by (by destruct db).
  assert (Hfilter : filter (fun r => r_config_id r = config_id) (results db') = rows).
  { subst db'. destruct db as [cs rs]; cbn. rewrite filter_app.
    rewrite filter_same_of_other, filter_same_all; [done|].
    by eapply row_of_config_id. }
  destruct (summary_run db' config_id config Hc')
    as (summary & Hsum & _ & _ & Hunits & Hcount & _ & Hpop & _).
  rewrite Hfilter in Hunits, Hcount, Hpop.
  exists rows, db', summary. split; [done|]. split; [done|]. split; [|split].
  - rewrite Hunits. symmetry. by eapply Forall2_length.
  - intros level. rewrite Hcount. unfold level_count.
    clear -Hrows. induction Hrows as [|item r data rows Hr _ IH]; [done|].
    rewrite !filter_cons. destruct Hr as (_ & _ & Hv & Hl & _). rewrite Hv.
    cbn [fmap option_fmap option_map]. rewrite <- Hl.
    destruct (decide (r_risk_level r = level)) as [->|Hne].
    + rewrite decide_True by done. cbn [length]. by rewrite IH.
    + rewrite decide_False by congruence. done.
  - rewrite Hpop. clear -Hrows.
    induction Hrows as [|item r data rows Hr _ IH]; [done|].
    cbn [column_sum foldr]. destruct Hr as (_ & _ & _ & _ & _ & _ & -> & _).
    f_equal. exact IH.
Qed.

(** X16: The summary after a calculation describes the data of the
    calculation.  Whenever calculate_stratification returns, get_summary on
    the resulting store counts as many units as there are items, gives for
    each risk level the number of items whose metric value the thresholds
    assign to that level, and sums the populations of the items (an absent
    one counting as 0), whatever results were stored before. *)
Theorem summary_after_calculation (db : Db) (config_id : N) (data : list UnitItem)
    (rows : list StratificationResult) (db' : Db) :
  calculate_stratification config_id data db = Ok rows db' ->
  exists config summary,
    configs db !! config_id = Some config /\
    get_summary config_id db' = Ok summary db' /\
    total_units summary = length data /\
    (forall level,
       default 0%nat (risk_distribution summary !! risk_level_value level)
       = length (filter
           (fun item => (fun v => _assign_risk_level v (c_thresholds config))
                          <$> metric_value item = Some level) data)) /\
    total_population summary
      = foldr (fun item acc => (default 0 (population item) + acc)%Z) 0%Z data.
Proof.
  intros Hrun.
  destruct (calculate_stratification_returns _ _ _ _ _ Hrun) as (config & Hc & Hwf).
  destruct (summary_after_calculation_run db config_id config data Hc Hwf)
    as (rows0 & db0 & summary & Hrun0 & H).
  rewrite Hrun in Hrun0. injection Hrun0 as <- <-. by exists config, summary.
Qed.

(** *** A sample store *)

Definition sample_store : Db :=
  mkDb {[ 1%N := mkStratificationConfig 1 "PfPR 2024" PFPR true
                   StratificationFacts.standard_bands;
          2%N := mkStratificationConfig 2 "Incidence" INCIDENCE true
                   StratificationFacts.standard_bands ]}
       [ mkStratificationResult 1 "Old" None (1 # 2) VERY_LOW (Some ["CM"]) None None None;
         mkStratificationResult 2 "Kept" None 50 HIGH None (Some 7%Z) None None ].

Definition sample_items : list UnitItem :=
  [ mkUnitItem (Some "North") None (Some 5%Q) (Some 1000%Z) (Some 40%Z) None;
    mkUnitItem (Some "South") (Some "S1") (Some 45%Q) None None None;
    mkUnitItem (Some "East") None (Some 12%Q) (Some 0%Z) None None ].

Lemma sample_items_well_formed : Forall well_formed sample_items.
Proof. repeat constructor; vm_compute; eauto. Qed.

Lemma calculate_stratification_replaces_results_witness :
  exists rows db',
    calculate_stratification 1 sample_items sample_store = Ok rows db' /\
    filter (fun r => r_config_id r = 1%N) (results db') = rows /\
    calculate_stratification 1 sample_items db' = Ok rows db'.
Proof.
  destruct (calculate_stratification_run sample_store 1
              (mkStratificationConfig 1 "PfPR 2024" PFPR true
                 StratificationFacts.standard_bands) sample_items eq_refl
              sample_items_well_formed) as (rows & db' & Hrun & _).
  destruct (calculate_stratification_replaces_results _ _ _ _ _ Hrun)
    as (config & _ & _ & _ & Hsame & _ & Hagain).
  exists rows, db'. split; [exact Hrun|]. split; [exact Hsame | exact Hagain].
Defined.

Lemma summary_after_calculation_witness :
  exists rows db' summary,
    calculate_stratification 1 sample_items sample_store = Ok rows db' /\
    get_summary 1 db' = Ok summary db' /\
    total_units summary = 3%nat.
Proof.
  destruct (calculate_stratification_run sample_store 1
              (mkStratificationConfig 1 "PfPR 2024" PFPR true
                 StratificationFacts.standard_bands) sample_items eq_refl
              sample_items_well_formed) as (rows & db' & Hrun & _).
  destruct (summary_after_calculation _ _ _ _ _ Hrun)
    as (config & summary & _ & Hsum & Hunits & _).
  exists rows, db', summary. split; [exact Hrun|]. split; [exact Hsum | exact Hunits].
Defined.

(** Three units stratified with the standard bands: the stale row of the
    configuration is replaced, the row of the other configuration stays. *)
Example calculate_sample :
  exists rows db' summary,
    calculate_stratification 1 sample_items sample_store = Ok rows db' /\
    (r_risk_level <$> rows) = [LOW; HIGH; MODERATE] /\
    (r_admin_unit_name <$> results db') = ["Kept"; "North"; "South"; "East"] /\
    get_summary 1 db' = Ok summary db' /\
    risk_distribution summary !! "low" = Some 1%nat /\
    risk_distribution summary !! "very_low" = None /\
    total_population summary = 1000%Z /\
    calculate_stratification 1
      (sample_items ++ [mkUnitItem (Some "West") None None None None None])
      sample_store = KeyError "metric_value" /\
    calculate_stratification 3 sample_items sample_store
      = ValueError "Stratification config not found".
Proof.
  vm_compute. eexists _, _, _. repeat split; reflexivity.
Qed.

End StratificationLaws.

(** ** Costing: unit formulas and scenario totals *)

Module CostingLaws.
Import Session Enums Models CostingService.
#[local] Open Scope Q_scope.

(** The two divisors of the cost formulas (the lifespan of a net and the
    number of persons per sprayed structure) are not zero. *)
Definition divisors_nonzero (costs : gmap string (gmap string Q)) : Prop :=
  ~ get (default ∅ (costs !! "itn")) "replacement_years" 3 == 0 /\
  ~ get (default ∅ (costs !! "irs")) "persons_per_structure" 5 == 0.

Lemma default_costs_divisors : divisors_nonzero DEFAULT_UNIT_COSTS.
Proof. split; vm_compute; discriminate. Qed.




(** The codes with a cost formula. *)
Definition costed_codes : list string :=
  ["itn"; "irs"; "smc"; "iptp"; "vaccine"; "cm"; "pmc"; "lsm"].

Lemma eligible_codes_not_costed level metric unit_data code :
  code ∈ StratificationService._determine_eligible_interventions level metric unit_data ->
  code ∉ costed_codes.
Proof.
  unfold costed_codes. destruct level; vm_compute; intros H;
    repeat (apply elem_of_cons in H as [->|H]; [set_solver|]);
    by apply not_elem_of_nil in H.
Qed.

(** X18: Intervention codes are matched exactly, in lower case.  A code
    other than the eight lower-case codes costs 0 for every population,
    table of unit costs and number of years, gets the default effect rate
    0.01 in the optimizer, and has no entry in the forecast's effectiveness
    table.  The codes of the eligibility lists of the stratification
    service ("CM", "ITN", "IRS", "IPTp", "SMC", "VACCINE") are all of this
    kind. *)
Theorem unknown_code_costs_nothing :
  (forall intervention, intervention ∉ costed_codes ->
     (forall population costs years,
        _calculate_intervention_cost intervention population costs years = 0) /\
     (forall population,
        _estimate_effect intervention population = population * (1 # 100)) /\
     ForecastService.INTERVENTION_EFFECTIVENESS !! intervention = None) /\
  (forall level metric unit_data code,
     code ∈ StratificationService._determine_eligible_interventions level metric unit_data ->
     code ∉ costed_codes).
Proof.
  split; [|apply eligible_codes_not_costed].
  intros intervention Hnot.
  assert (Hne : forall c, c ∈ costed_codes -> intervention <> c).
  { intros c Hc ->. done. }
  assert (H1 := Hne "itn"). assert (H2 := Hne "irs"). assert (H3 := Hne "smc").
  assert (H4 := Hne "iptp"). assert (H5 := Hne "vaccine"). assert (H6 := Hne "cm").
  assert (H7 := Hne "pmc"). assert (H8 := Hne "lsm").
  unfold costed_codes in *.
  specialize (H1 ltac:(set_solver)). specialize (H2 ltac:(set_solver)).
  specialize (H3 ltac:(set_solver)). specialize (H4 ltac:(set_solver)).
  specialize (H5 ltac:(set_solver)). specialize (H6 ltac:(set_solver)).
  specialize (H7 ltac:(set_solver)). specialize (H8 ltac:(set_solver)).
  split; [|split].
  - intros population costs years. unfold _calculate_intervention_cost.
    by rewrite !bool_decide_eq_false_2 by done.
  - intros population. unfold _estimate_effect, effect_rates. cbn [list_to_map foldr].
    by rewrite !lookup_insert_ne, lookup_empty by done.
  - unfold ForecastService.INTERVENTION_EFFECTIVENESS. cbn [list_to_map foldr].
    by rewrite !lookup_insert_ne, lookup_empty by done.
Qed.

Lemma unknown_code_costs_nothing_witness :
  _calculate_intervention_cost "ITN" 1000000 DEFAULT_UNIT_COSTS 5 = 0 /\
  ForecastService.INTERVENTION_EFFECTIVENESS !! "ITN" = None.
Proof.
  destruct unknown_code_costs_nothing as [Hunknown Helig].
  destruct (Hunknown "ITN") as (Hcost & _ & Heff).
  - apply (Helig HIGH PFPR ∅). vm_compute. set_solver.
  - split; [apply Hcost | exact Heff].
Defined.

(** *** calculate_scenario_cost *)

Definition sum_values (d : list (string * Q)) : Q :=
  foldr (fun kv acc => kv.2 + acc) 0 d.

Definition items_total (items : list ScenarioCostItem) : Q :=
  foldr (fun it acc => ci_total_cost it + acc) 0 items.

(** The line item of an intervention in a unit. *)
Definition item_of (scenario_id : N) (pop_map : gmap string PopulationRow)
    (costs : gmap string (gmap string Q)) (project_years : Q)
    (unit_key intervention_str : string) : ScenarioCostItem :=
  mkScenarioCostItem scenario_id (unit_name_of pop_map unit_key) (Some unit_key)
    intervention_str
    (_calculate_intervention_cost intervention_str (population_of pop_map unit_key)
       costs project_years)
    project_years (population_of pop_map unit_key)
    (default ∅ (costs !! intervention_str)).

(** The line items of an assignment, unit by unit. *)
Definition items_of (scenario_id : N) (pop_map : gmap string PopulationRow)
    (costs : gmap string (gmap string Q)) (project_years : Q)
    (units : list (string * list string)) : list ScenarioCostItem :=
  flat_map (fun unit : string * list string =>
              item_of scenario_id pop_map costs project_years unit.1 <$> unit.2)
           units.

Definition population_total (pop_map : gmap string PopulationRow)
    (units : list (string * list string)) : Q :=
  foldr (fun unit acc => population_of pop_map unit.1 + acc) 0 units.

#[local] Instance sum_values_proper_cons k :
  Proper (Qeq ==> eq ==> Qeq) (fun v d => sum_values ((k, v) :: d)).
Proof. intros v1 v2 Hv d1 d2 ->. unfold sum_values. cbn. by rewrite Hv. Qed.

Lemma items_total_cons x l : items_total (x :: l) = ci_total_cost x + items_total l.
Proof. reflexivity. Qed.

Lemma items_total_app a b : items_total (a ++ b) == items_total a + items_total b.
Proof.
  unfold items_total. induction a as [|x a IH]; cbn; [ring|]. rewrite IH. ring.
Qed.

Lemma sum_values_dict_put_add d k c :
  sum_values (dict_put d k (dict_get d k 0 + c)) == sum_values d + c.
Proof.
  unfold sum_values. induction d as [|[k' x] d IH]; cbn.
  - ring.
  - destruct (bool_decide (k' = k)); cbn; [ring|]. rewrite IH. ring.
Qed.

Lemma sum_values_dict_put_new d k v :
  k ∉ d.*1 -> sum_values (dict_put d k v) == sum_values d + v.
Proof.
  unfold sum_values. induction d as [|[k' x] d IH]; cbn; intros Hk.
  - ring.
  - apply not_elem_of_cons in Hk as [Hne Hk].
    rewrite bool_decide_eq_false_2 by done. cbn. rewrite IH by done. ring.
Qed.

Lemma keys_dict_put_new d k v : k ∉ d.*1 -> (dict_put d k v).*1 = d.*1 ++ [k].
Proof.
  induction d as [|[k' x] d IH]; cbn; intros Hk; [done|].
  apply not_elem_of_cons in Hk as [Hne Hk].
  rewrite bool_decide_eq_false_2 by done. cbn. by rewrite IH.
Qed.

Lemma cost_intervention_loop sid uk pop_map costs y l : forall added tc ut cbi,
  exists tc' ut' cbi',
    fold_left
      (cost_intervention_step sid uk (unit_name_of pop_map uk)
         (population_of pop_map uk) costs y) l (added, tc, ut, cbi)
    = (added ++ (item_of sid pop_map costs y uk <$> l), tc', ut', cbi') /\
    tc' == tc + items_total (item_of sid pop_map costs y uk <$> l) /\
    ut' == ut + items_total (item_of sid pop_map costs y uk <$> l) /\
    sum_values cbi' == sum_values cbi + items_total (item_of sid pop_map costs y uk <$> l).
Proof.
  induction l as [|i l IH]; intros added tc ut cbi.
  - exists tc, ut, cbi. cbn. rewrite app_nil_r. split; [reflexivity|].
    split; [ring|]. split; ring.
  - cbn [fold_left]. unfold cost_intervention_step at 2.
    set (c := _calculate_intervention_cost i (population_of pop_map uk) costs y).
    destruct (IH (added ++ [item_of sid pop_map costs y uk i]) (tc + c) (ut + c)
                (dict_put cbi i (dict_get cbi i 0 + c)))
      as (tc' & ut' & cbi' & Hrun & Htc & Hut & Hcbi).
    exists tc', ut', cbi'. split; [|split; [|split]].
    + unfold item_of in Hrun at 1. fold c in Hrun. rewrite Hrun.
      rewrite <- app_assoc. reflexivity.
    + rewrite Htc. rewrite fmap_cons, items_total_cons.
      change (ci_total_cost (item_of sid pop_map costs y uk i)) with c. ring.
    + rewrite Hut. rewrite fmap_cons, items_total_cons.
      change (ci_total_cost (item_of sid pop_map costs y uk i)) with c. ring.
    + rewrite Hcbi, sum_values_dict_put_add. rewrite fmap_cons, items_total_cons.
      change (ci_total_cost (item_of sid pop_map costs y uk i)) with c. ring.
Qed.

Lemma cost_unit_loop sid pop_map costs y units : forall added tc tp cbi cbu,
  exists tc' tp' cbi' cbu',
    fold_left (cost_unit_step sid pop_map costs y) units (added, tc, tp, cbi, cbu)
    = (added ++ items_of sid pop_map costs y units, tc', tp', cbi', cbu') /\
    tc' == tc + items_total (items_of sid pop_map costs y units) /\
    tp' == tp + population_total pop_map units /\
    sum_values cbi' == sum_values cbi + items_total (items_of sid pop_map costs y units) /\
    (NoDup (cbu.*1 ++ units.*1) ->
     cbu'.*1 = cbu.*1 ++ units.*1 /\
     sum_values cbu' == sum_values cbu + items_total (items_of sid pop_map costs y units)).
Proof.
  induction units as [|[uk l] units IH]; intros added tc tp cbi cbu.
  - exists tc, tp, cbi, cbu. cbn. rewrite !app_nil_r. split; [reflexivity|].
    split; [ring|]. split; [ring|]. split; [ring|]. intros _. split; [done|ring].
  - cbn [fold_left]. unfold cost_unit_step at 2.
    destruct (cost_intervention_loop sid uk pop_map costs y l added tc 0 cbi)
      as (tc1 & ut1 & cbi1 & Hinner & Htc1 & Hut1 & Hcbi1).
    rewrite Hinner.
    destruct (IH (added ++ (item_of sid pop_map costs y uk <$> l)) tc1
                (tp + population_of pop_map uk) cbi1 (dict_put cbu uk ut1))
      as (tc' & tp' & cbi' & cbu' & Hrun & Htc & Htp & Hcbi & Hcbu).
    exists tc', tp', cbi', cbu'.
    assert (Hitems : items_total (items_of sid pop_map costs y ((uk, l) :: units))
              == items_total (item_of sid pop_map costs y uk <$> l)
                 + items_total (items_of sid pop_map costs y units)).
    { unfold items_of. cbn [flat_map fst snd]. apply items_total_app. }
    split; [|split; [|split; [|split]]].
    + rewrite Hrun. rewrite <- app_assoc. reflexivity.
    + rewrite Htc, Htc1, Hitems. ring.
    + rewrite Htp.
      change (population_total pop_map ((uk, l) :: units))
        with (population_of pop_map uk + population_total pop_map units). ring.
    + rewrite Hcbi, Hcbi1, Hitems. ring.
    + intros Hnd. cbn [fmap list_fmap fst] in Hnd.
      assert (Huk : uk ∉ cbu.*1).
      { apply NoDup_app in Hnd as (_ & Hdisj & _). intros Hin.
        apply (Hdisj uk Hin). apply list_elem_of_here. }
      destruct Hcbu as [Hkeys Hsum].
      { rewrite keys_dict_put_new by done. rewrite <- app_assoc. exact Hnd. }
      split.
      * rewrite Hkeys, keys_dict_put_new by done. by rewrite <- app_assoc.
      * rewrite Hsum, sum_values_dict_put_new by done. rewrite Hut1, Hitems. ring.
Qed.

(** The scenario row after costing. *)
Definition costed_row (scenario : InterventionScenario) (total_cost total_population : Q)
    : InterventionScenario :=
  mkInterventionScenario (sc_name scenario) (interventions scenario)
    (Some total_cost) (Some total_population)
    (estimated_cases_averted scenario) (estimated_deaths_averted scenario).

Lemma calculate_scenario_cost_run db sid scenario pop_map data unit_costs y :
  scenario_rows db !! sid = Some scenario ->
  pop_map_of data ∅ = Some pop_map ->
  let costs := costs_or_default unit_costs in
  let added := items_of sid pop_map costs y (interventions scenario) in
  exists tc tp cbi cbu,
    calculate_scenario_cost sid data unit_costs y db
    = Ok (mkScenarioCostSummary sid (sc_name scenario) tc cbi cbu
            (if Py.Qltb 0 tp then Some (tc / tp) else None) tp)
         (mkStore (<[sid := costed_row scenario tc tp]> (scenario_rows db))
            (filter (fun c => ci_scenario_id c <> sid) (cost_items db) ++ added)) /\
    tc == items_total added /\
    tp == population_total pop_map (interventions scenario) /\
    sum_values cbi == items_total added /\
    (NoDup (interventions scenario).*1 ->
     cbu.*1 = (interventions scenario).*1 /\ sum_values cbu == items_total added).
Proof.
  intros Hsc Hpm. cbv zeta.
  destruct (cost_unit_loop sid pop_map (costs_or_default unit_costs) y
              (interventions scenario) [] 0 0 [] [])
    as (tc & tp & cbi & cbu & Hrun & Htc & Htp & Hcbi & Hcbu).
  exists tc, tp, cbi, cbu. split; [|split; [|split; [|split]]].
  - unfold calculate_scenario_cost, bind at 1, gets. rewrite Hsc.
    unfold bind at 1, modify. rewrite Hpm. rewrite Hrun.
    unfold bind, modify, ret. cbn [scenario_rows cost_items app]. reflexivity.
  - rewrite Htc. ring.
  - rewrite Htp. ring.
  - rewrite Hcbi. unfold sum_values at 1. cbn. ring.
  - intros Hnd. destruct (Hcbu Hnd) as [Hkeys Hsum]. split; [done|].
    rewrite Hsum. unfold sum_values at 1. cbn. ring.
Qed.

Lemma calculate_scenario_cost_unfold db sid scenario pop_map data unit_costs y :
  scenario_rows db !! sid = Some scenario ->
  pop_map_of data ∅ = Some pop_map ->
  calculate_scenario_cost sid data unit_costs y db
  = (let '(added, tc, tp, cbi, cbu) :=
       fold_left (cost_unit_step sid pop_map (costs_or_default unit_costs) y)
         (interventions scenario) ([], 0, 0, [], []) in
     Ok (mkScenarioCostSummary sid (sc_name scenario) tc cbi cbu
           (if Py.Qltb 0 tp then Some (tc / tp) else None) tp)
        (mkStore (<[sid := costed_row scenario tc tp]> (scenario_rows db))
           (filter (fun c => ci_scenario_id c <> sid) (cost_items db) ++ added))).
Proof.
  intros Hsc Hpm. unfold calculate_scenario_cost, bind at 1, gets. rewrite Hsc.
  unfold bind at 1, modify. rewrite Hpm.
  destruct (fold_left _ (interventions scenario) _) as [[[[added tc] tp] cbi] cbu].
  reflexivity.
Qed.

Lemma filter_scenario_items sid (old added : list ScenarioCostItem) :
  Forall (fun c => ci_scenario_id c = sid) added ->
  filter (fun c => ci_scenario_id c = sid)
    (filter (fun c => ci_scenario_id c <> sid) old ++ added) = added /\
  filter (fun c => ci_scenario_id c <> sid)
    (filter (fun c => ci_scenario_id c <> sid) old ++ added)
  = filter (fun c => ci_scenario_id c <> sid) old.
Proof.
  intros Hadded. rewrite !filter_app.
  assert (filter (fun c => ci_scenario_id c = sid) added = added) as ->.
  { induction Hadded as [|c l Hc _ IH]; [done|].
    rewrite filter_cons_True by done. by rewrite IH. }
  assert (filter (fun c => ci_scenario_id c <> sid) added = []) as ->.
  { induction Hadded as [|c l Hc _ IH]; [done|].
    rewrite filter_cons_False by (intros H; by apply H). done. }
  rewrite app_nil_r. split.
  - assert (filter (fun c => ci_scenario_id c = sid)
              (filter (fun c => ci_scenario_id c <> sid) old) = []) as ->; [|done].
    induction old as [|c old IH]; [done|].
    rewrite (filter_cons (fun c => ci_scenario_id c <> sid)).
    destruct (decide (ci_scenario_id c <> sid)); [|done].
    by rewrite filter_cons_False.
  - rewrite list_filter_filter. apply list_filter_iff. tauto.
Qed.

Lemma items_of_scenario_id sid pop_map costs y units :
  Forall (fun c => ci_scenario_id c = sid) (items_of sid pop_map costs y units).
Proof.
  unfold items_of. apply Forall_flat_map. apply Forall_forall. intros [uk l] _.
  apply Forall_fmap. apply Forall_forall. intros i _. reflexivity.
Qed.

Lemma calculate_scenario_cost_totals_run (db : Store) (scenario_id : N)
    (scenario : InterventionScenario) (population_data : list PopulationRow)
    (pop_map : gmap string PopulationRow)
    (unit_costs : option (gmap string (gmap string Q))) (project_years : Q) :
  scenario_rows db !! scenario_id = Some scenario ->
  pop_map_of population_data ∅ = Some pop_map ->
  exists summary db',
    calculate_scenario_cost scenario_id population_data unit_costs project_years db
      = Ok summary db' /\
    s_total_cost summary
      == items_total (filter (fun c => ci_scenario_id c = scenario_id) (cost_items db')) /\
    sum_values (s_cost_by_intervention summary) == s_total_cost summary /\
    (NoDup (interventions scenario).*1 ->
     (s_cost_by_unit summary).*1 = (interventions scenario).*1 /\
     sum_values (s_cost_by_unit summary) == s_total_cost summary) /\
    s_total_population summary
      == population_total pop_map (interventions scenario) /\
    scenario_rows db' !! scenario_id
      = Some (costed_row scenario (s_total_cost summary) (s_total_population summary)) /\
    (s_cost_per_capita summary = None <-> ~ 0 < s_total_population summary) /\
    (forall c, s_cost_per_capita summary = Some c ->
       c * s_total_population summary == s_total_cost summary).
Proof.
  intros Hsc Hpm.
  destruct (calculate_scenario_cost_run db scenario_id scenario pop_map population_data
              unit_costs project_years Hsc Hpm)
    as (tc & tp & cbi & cbu & Hrun & Htc & Htp & Hcbi & Hcbu).
  eexists _, _. split; [exact Hrun|].
  cbn [s_total_cost s_cost_by_intervention s_cost_by_unit s_total_population
       s_cost_per_capita scenario_rows cost_items].
  destruct (filter_scenario_items scenario_id (cost_items db) _
              (items_of_scenario_id scenario_id pop_map (costs_or_default unit_costs)
                 project_years (interventions scenario))) as [Hsame _].
  rewrite Hsame.
  split; [done|]. split; [by rewrite Hcbi, Htc|]. split.
  { intros Hnd. destruct (Hcbu Hnd) as [Hk Hs]. split; [done|]. by rewrite Hs, Htc. }
  split; [done|]. split; [by rewrite lookup_insert_eq|].
  destruct (Py.Qltb 0 tp) eqn:Hpos.
  - apply PyFacts.Qltb_spec in Hpos. split.
    + split; [done|]. intros Hn. by apply Hn in Hpos.
    + intros c Hc. injection Hc as <-. field. intros H0. rewrite H0 in Hpos.
      by apply Qlt_irrefl in Hpos.
  - split.
    + split; [|done]. intros _ Hlt. apply PyFacts.Qltb_spec in Hlt. congruence.
    + intros c Hc. discriminate.
Qed.



Lemma calculate_scenario_cost_replaces_items_run (db : Store) (scenario_id : N)
    (population_data : list PopulationRow)
    (unit_costs : option (gmap string (gmap string Q))) (project_years : Q) :
  match scenario_rows db !! scenario_id, pop_map_of population_data ∅ with
  | None, _ =>
      calculate_scenario_cost scenario_id population_data unit_costs project_years db
      = ValueError "Scenario not found"
  | Some _, None =>
      calculate_scenario_cost scenario_id population_data unit_costs project_years db
      = KeyError "admin_unit_name"
  | Some scenario, Some pop_map =>
      exists summary db',
        calculate_scenario_cost scenario_id population_data unit_costs project_years db
          = Ok summary db' /\
        filter (fun c => ci_scenario_id c = scenario_id) (cost_items db')
          = items_of scenario_id pop_map (costs_or_default unit_costs) project_years
              (interventions scenario) /\
        filter (fun c => ci_scenario_id c <> scenario_id) (cost_items db')
          = filter (fun c => ci_scenario_id c <> scenario_id) (cost_items db) /\
        (forall other, other <> scenario_id ->
           scenario_rows db' !! other = scenario_rows db !! other) /\
        (interventions <$> scenario_rows db' !! scenario_id)
          = Some (interventions scenario) /\
        calculate_scenario_cost scenario_id population_data unit_costs project_years db'
          = Ok summary db'
  end.
Proof.
  destruct (scenario_rows db !! scenario_id) as [scenario|] eqn:Hsc.
  - destruct (pop_map_of population_data ∅) as [pop_map|] eqn:Hpm.
    + rewrite (calculate_scenario_cost_unfold db scenario_id scenario pop_map
                 population_data unit_costs project_years Hsc Hpm).
      destruct (cost_unit_loop scenario_id pop_map (costs_or_default unit_costs)
                  project_years (interventions scenario) [] 0 0 [] [])
        as (tc & tp & cbi & cbu & Hfold & _).
      cbn [app] in Hfold. rewrite Hfold.
      pose proof (items_of_scenario_id scenario_id pop_map (costs_or_default unit_costs)
                    project_years (interventions scenario)) as Hids.
      destruct (filter_scenario_items scenario_id (cost_items db) _ Hids) as [Hsame Hother].
      eexists _, _. split; [reflexivity|]. cbn [scenario_rows cost_items].
      split; [done|]. split; [done|]. split; [|split].
      * intros other Hne. by rewrite lookup_insert_ne.
      * by rewrite lookup_insert_eq.
      * rewrite (calculate_scenario_cost_unfold _ scenario_id (costed_row scenario tc tp)
                   pop_map population_data unit_costs project_years);
          [|cbn [scenario_rows]; apply lookup_insert_eq|done].
        cbn [costed_row interventions sc_name estimated_cases_averted
             estimated_deaths_averted scenario_rows cost_items].
        rewrite Hfold. rewrite Hother, insert_insert_eq. reflexivity.
    + unfold calculate_scenario_cost, bind at 1, gets. rewrite Hsc.
      unfold bind at 1, modify. by rewrite Hpm.
  - unfold calculate_scenario_cost, bind, gets. by rewrite Hsc.
Qed.

(** X20: calculate_scenario_cost raises "Scenario not found" for an
    unknown scenario and KeyError 'admin_unit_name' when a population item
    has no name.  Whenever it returns, it has replaced the line items of the
    scenario wholesale: the scenario has one line item per intervention of
    each unit, in order, the line items and rows of other scenarios are
    unchanged, the assignment of the scenario is unchanged, and costing
    again with the same inputs gives the same summary and the same store. *)
Theorem calculate_scenario_cost_replaces_items (db : Store) (scenario_id : N)
    (population_data : list PopulationRow)
    (unit_costs : option (gmap string (gmap string Q))) (project_years : Q) :
  match scenario_rows db !! scenario_id, pop_map_of population_data ∅ with
  | None, _ =>
      calculate_scenario_cost scenario_id population_data unit_costs project_years db
      = ValueError "Scenario not found"
  | Some _, None =>
      calculate_scenario_cost scenario_id population_data unit_costs project_years db
      = KeyError "admin_unit_name"
  | Some scenario, Some pop_map =>
      forall summary db',
        calculate_scenario_cost scenario_id population_data unit_costs project_years db
          = Ok summary db' ->
        filter (fun c => ci_scenario_id c = scenario_id) (cost_items db')
          = items_of scenario_id pop_map (costs_or_default unit_costs) project_years
              (interventions scenario) /\
        filter (fun c => ci_scenario_id c <> scenario_id) (cost_items db')
          = filter (fun c => ci_scenario_id c <> scenario_id) (cost_items db) /\
        (forall other, other <> scenario_id ->
           scenario_rows db' !! other = scenario_rows db !! other) /\
        (interventions <$> scenario_rows db' !! scenario_id)
          = Some (interventions scenario) /\
        calculate_scenario_cost scenario_id population_data unit_costs project_years db'
          = Ok summary db'
  end.
Proof.
  pose proof (calculate_scenario_cost_replaces_items_run db scenario_id population_data
                unit_costs project_years) as H.
  destruct (scenario_rows db !! scenario_id) as [scenario|]; [|exact H].
  destruct (pop_map_of population_data ∅) as [pop_map|]; [|exact H].
  intros summary db' Hrun. destruct H as (summary0 & db0 & Hrun0 & H).
  rewrite Hrun in Hrun0. by injection Hrun0 as <- <-.
Qed.

(** *** Sample data *)

Definition two_district_scenario : InterventionScenario :=
  mkInterventionScenario "plan"
    [("D1", ["itn"; "irs"]); ("D2", ["smc"; "lsm"]); ("D3", ["cm"])]
    None None None None.

Definition two_district_population : list PopulationRow :=
  [ mkPopulationRow (Some "District 1") (Some "D1") (Some 1000);
    mkPopulationRow (Some "District 2") (Some "D2") (Some 2000) ].

Definition two_district_pop_map : gmap string PopulationRow :=
  <["D2" := mkPopulationRow (Some "District 2") (Some "D2") (Some 2000)]>
    (<["D1" := mkPopulationRow (Some "District 1") (Some "D1") (Some 1000)]> ∅).

Definition two_district_store : Store :=
  mkStore {[ 7%N := two_district_scenario ]}
    [ mkScenarioCostItem 7 "District 1" (Some "D1") "itn" 1 5 1000 ∅;
      mkScenarioCostItem 8 "Elsewhere" (Some "E") "irs" 2 5 10 ∅ ].


Lemma calculate_scenario_cost_replaces_items_witness :
  exists summary db',
    calculate_scenario_cost 7 two_district_population None 5 two_district_store
      = Ok summary db' /\
    calculate_scenario_cost 7 two_district_population None 5 db' = Ok summary db'.
Proof.
  pose proof (calculate_scenario_cost_replaces_items two_district_store 7
                two_district_population None 5) as H.
  change (scenario_rows two_district_store !! 7%N)
    with (Some two_district_scenario) in H.
  change (pop_map_of two_district_population ∅) with (Some two_district_pop_map) in H.
  cbv beta iota in H.
  destruct (calculate_scenario_cost_totals_run two_district_store 7
              two_district_scenario two_district_population two_district_pop_map None 5
              eq_refl eq_refl) as (summary & db' & Hrun & _).
  destruct (H summary db' Hrun) as (_ & _ & _ & _ & Hagain).
  exists summary, db'. split; [exact Hrun | exact Hagain].
Defined.

(** Costing the sample plan with the default unit costs over five years:
    the stale line of the scenario is replaced, the line of another scenario
    stays, and the unit without population data costs nothing. *)
Example calculate_two_districts :
  exists summary db',
    calculate_scenario_cost 7 two_district_population None 5 two_district_store
      = Ok summary db' /\
    (ci_intervention_code <$> cost_items db') = ["irs"; "itn"; "irs"; "smc"; "lsm"; "cm"] /\
    (s_cost_by_unit summary).*1 = ["D1"; "D2"; "D3"] /\
    s_total_population summary == 3000 /\
    s_total_cost summary == 70330 # 3 /\
    dict_get (s_cost_by_unit summary) "D3" 1 == 0.
Proof.
  vm_compute. eexists _, _. repeat split; reflexivity.
Qed.

End CostingLaws.

(** ** Forecast: bounds, projections and comparison *)

Module ForecastLaws.
Import Session Enums Models ForecastService ForecastFacts.
#[local] Open Scope Q_scope.

Definition unit_interval (x : Q) : Prop := 0 <= x /\ x <= 1.

Lemma effectiveness_range code :
  unit_interval (case_eff code) /\ unit_interval (death_eff code).
Proof.
  unfold case_eff, death_eff, INTERVENTION_EFFECTIVENESS. cbn [list_to_map foldr].
  repeat (match goal with |- context [<[?k := _]> _ !! code] =>
            destruct (decide (code = k)) as [->|?];
            [vm_compute; repeat split; discriminate
            | rewrite !(lookup_insert_ne _ k code) by done]
          end).
  rewrite lookup_empty. vm_compute. repeat split; discriminate.
Qed.

Lemma diminishing_range c e :
  unit_interval c -> unit_interval e ->
  c <= diminishing c e /\ diminishing c e <= 1.
Proof. unfold unit_interval, diminishing. intros [? ?] [? ?]. split; nra. Qed.

Lemma diminishing_mono c c' e :
  unit_interval e -> c <= c' -> diminishing c e <= diminishing c' e.
Proof. unfold unit_interval, diminishing. intros [? ?] ?. nra. Qed.

Lemma compose_all_range effs : forall c,
  Forall unit_interval effs -> unit_interval c ->
  c <= compose_all effs c /\ compose_all effs c <= 1.
Proof.
  induction effs as [|e effs IH]; intros c Heffs Hc.
  - cbn. split; [apply Qle_refl|apply Hc].
  - apply Forall_cons in Heffs as [He Heffs]. cbn.
    destruct (diminishing_range c e Hc He) as [H1 H2].
    destruct (IH (diminishing c e) Heffs) as [H3 H4].
    { split; [|done]. eapply Qle_trans; [apply Hc|done]. }
    split; [by eapply Qle_trans|done].
Qed.

Lemma compose_all_mono effs : forall c c',
  Forall unit_interval effs -> c <= c' -> compose_all effs c <= compose_all effs c'.
Proof.
  induction effs as [|e effs IH]; intros c c' Heffs Hc; [done|].
  apply Forall_cons in Heffs as [He Heffs]. cbn. apply IH; [done|].
  by apply diminishing_mono.
Qed.

Lemma compose_all_app a b c : compose_all (a ++ b) c = compose_all b (compose_all a c).
Proof. unfold compose_all. apply fold_left_app. Qed.

Lemma case_effs_range codes : Forall unit_interval (case_eff <$> codes).
Proof. apply Forall_fmap, Forall_forall. intros c _. apply effectiveness_range. Qed.

Lemma death_effs_range codes : Forall unit_interval (death_eff <$> codes).
Proof. apply Forall_fmap, Forall_forall. intros c _. apply effectiveness_range. Qed.

Lemma unit_interval_0 : unit_interval 0.
Proof. split; discriminate. Qed.

Lemma combined_reduction_unfold sc :
  combined_reduction sc
  = (Qmin (compose_all (case_eff <$> sorted (elements (all_interventions sc))) 0)
          (95 # 100),
     Qmin (compose_all (death_eff <$> sorted (elements (all_interventions sc))) 0)
          (95 # 100)).
Proof. unfold combined_reduction. by rewrite fold_combine_step. Qed.

Lemma compose_zero effs :
  Forall (fun e => e == 0) effs -> compose_all effs 0 == 0.
Proof.
  induction 1 as [|e effs He _ IH]; cbn; [reflexivity|].
  rewrite <- IH at 2. apply compose_all_proper. unfold diminishing. rewrite He. ring.
Qed.

Lemma combined_reduction_range scenario :
  (0 <= (combined_reduction scenario).1 /\ (combined_reduction scenario).1 <= 95 # 100) /\
  (0 <= (combined_reduction scenario).2 /\ (combined_reduction scenario).2 <= 95 # 100).
Proof.
  rewrite combined_reduction_unfold. cbn [fst snd].
  set (codes := sorted (elements (all_interventions scenario))).
  destruct (compose_all_range _ 0 (case_effs_range codes) unit_interval_0) as [Hc0 Hc1].
  destruct (compose_all_range _ 0 (death_effs_range codes) unit_interval_0) as [Hd0 Hd1].
  split.
  - split; [apply Q.min_glb; [done|discriminate] | apply Q.le_min_r].
  - split; [apply Q.min_glb; [done|discriminate] | apply Q.le_min_r].
Qed.

(** X22: The combined case reduction and the combined death reduction
    of the simple forecast lie between 0 and 0.95 for every scenario, and
    both are 0 when no intervention code of the scenario is in the
    effectiveness table (in particular for a scenario without
    interventions). *)
Theorem combined_reduction_bounds (scenario : InterventionScenario) :
  (0 <= (combined_reduction scenario).1 /\ (combined_reduction scenario).1 <= 95 # 100) /\
  (0 <= (combined_reduction scenario).2 /\ (combined_reduction scenario).2 <= 95 # 100) /\
  ((forall code, code ∈ all_interventions scenario ->
      INTERVENTION_EFFECTIVENESS !! code = None) ->
   (combined_reduction scenario).1 == 0 /\ (combined_reduction scenario).2 == 0).
Proof.
  destruct (combined_reduction_range scenario) as [Hc Hd].
  split; [exact Hc|]. split; [exact Hd|].
  rewrite combined_reduction_unfold. cbn [fst snd].
  set (codes := sorted (elements (all_interventions scenario))).
  intros Hunknown.
  assert (Hall : forall code, code ∈ codes ->
            INTERVENTION_EFFECTIVENESS !! code = None).
  { intros code Hin. apply Hunknown. subst codes. rewrite sorted_perm in Hin.
    by apply elem_of_elements in Hin. }
  assert (Hcase : compose_all (case_eff <$> codes) 0 == 0).
  { apply compose_zero, Forall_fmap, Forall_forall. intros code Hin.
    unfold compose, case_eff. rewrite (Hall code Hin). reflexivity. }
  assert (Hdeath : compose_all (death_eff <$> codes) 0 == 0).
  { apply compose_zero, Forall_fmap, Forall_forall. intros code Hin.
    unfold compose, death_eff. rewrite (Hall code Hin). reflexivity. }
  rewrite Hcase, Hdeath. split; reflexivity.
Qed.

Lemma compose_superset (eff : string -> Q) (S S' : gset string) :
  (forall code, unit_interval (eff code)) ->
  S ⊆ S' ->
  compose_all (eff <$> sorted (elements S)) 0
  <= compose_all (eff <$> sorted (elements S')) 0.
Proof.
  intros Heff Hsub.
  assert (Hperm : sorted (elements S') ≡ₚ sorted (elements S) ++ elements (S' ∖ S)).
  { rewrite !sorted_perm. rewrite <- elements_disj_union by set_solver.
    apply elements_proper. intros x. rewrite elem_of_union, elem_of_difference.
    split; [|intros [?|[? _]]; [by apply Hsub|done]].
    intros Hx. destruct (decide (x ∈ S)); [by left|by right]. }
  rewrite (compose_all_perm _ _ (fmap_Permutation eff _ _ Hperm) 0).
  rewrite fmap_app, compose_all_app.
  apply compose_all_range.
  - apply Forall_fmap, Forall_forall. intros c _. apply Heff.
  - split.
    + apply (compose_all_range _ 0); [|apply unit_interval_0].
      apply Forall_fmap, Forall_forall. intros c _. apply Heff.
    + apply (compose_all_range _ 0); [|apply unit_interval_0].
      apply Forall_fmap, Forall_forall. intros c _. apply Heff.
Qed.

(** X23: Adding interventions never lowers the combined reductions: if
    the set of intervention codes of one scenario is included in that of
    another, its combined case reduction and its combined death reduction
    are at most those of the other. *)
Theorem combined_reduction_monotone (scenario scenario' : InterventionScenario) :
  all_interventions scenario ⊆ all_interventions scenario' ->
  (combined_reduction scenario).1 <= (combined_reduction scenario').1 /\
  (combined_reduction scenario).2 <= (combined_reduction scenario').2.
Proof.
  intros Hsub. rewrite !combined_reduction_unfold. cbn [fst snd]. split.
  - apply Q.min_le_compat_r. apply compose_superset; [|done].
    intros code. apply effectiveness_range.
  - apply Q.min_le_compat_r. apply compose_superset; [|done].
    intros code. apply effectiveness_range.
Qed.

Lemma combined_reduction_monotone_witness :
  (combined_reduction (scenario_of [("u1", ["itn"])] None)).1
  <= (combined_reduction itn_then_irs).1.
Proof.
  destruct (combined_reduction_monotone (scenario_of [("u1", ["itn"])] None) itn_then_irs)
    as [H _].
  - unfold all_interventions, itn_then_irs, scenario_of.
    cbn [fold_left interventions snd]. set_solver.
  - exact H.
Defined.

(** *** The yearly projection of _simple_forecast *)

(** Scale-up factor: 50% year 1, 75% year 2, 100% year 3+ *)
Definition scale_up (y : nat) : Q :=
  Qmin 1 ((5 # 10) + inject_Z (Z.of_nat y) * (25 # 100)).

(** The projected count of year [y] for a baseline and a combined reduction. *)
Definition year_value (baseline reduction : Q) (y : nat) : Z :=
  Py.int (baseline * (1 - reduction * scale_up y)).

Definition year_label (y : nat) : string := pretty (2025 + Z.of_nat y)%Z.

(** Every count of the series lies between 0 and the baseline. *)
Definition within_baseline (baseline : Q) (series : list Z) : Prop :=
  forall i z, series !! i = Some z -> (0 <= z)%Z /\ inject_Z z <= baseline.

(** The series never goes up from a year to a later one. *)
Definition non_increasing (series : list Z) : Prop :=
  forall i j zi zj, (i <= j)%nat ->
    series !! i = Some zi -> series !! j = Some zj -> (zj <= zi)%Z.

Lemma int_floor q : 0 <= q -> Py.int q = Qfloor q.
Proof.
  intros Hq. destruct q as [n d]. unfold Py.int, Qfloor. cbn [Qnum Qden].
  apply Z.quot_div_nonneg; [|done].
  unfold Qle in Hq. cbn in Hq. lia.
Qed.

Lemma int_nonneg q : 0 <= q -> (0 <= Py.int q)%Z /\ inject_Z (Py.int q) <= q.
Proof.
  intros Hq. rewrite int_floor by done. split; [|apply Qfloor_le].
  change 0%Z with (Qfloor 0). by apply Qfloor_resp_le.
Qed.

Lemma int_mono a b : 0 <= a -> a <= b -> (Py.int a <= Py.int b)%Z.
Proof.
  intros Ha Hab. rewrite !int_floor; [by apply Qfloor_resp_le| |done].
  by eapply Qle_trans.
Qed.

Lemma scale_up_range y : 5 # 10 <= scale_up y /\ scale_up y <= 1.
Proof.
  unfold scale_up. split; [|apply Q.le_min_l].
  apply Q.min_glb; [discriminate|].
  assert (0 <= inject_Z (Z.of_nat y)).
  { change 0 with (inject_Z 0). rewrite <- Zle_Qle. lia. }
  nra.
Qed.

Lemma scale_up_mono y y' : (y <= y')%nat -> scale_up y <= scale_up y'.
Proof.
  intros Hy. unfold scale_up. apply Q.min_le_compat_l.
  assert (inject_Z (Z.of_nat y) <= inject_Z (Z.of_nat y')).
  { rewrite <- Zle_Qle. lia. }
  nra.
Qed.

Lemma year_value_range b c y :
  0 <= b -> 0 <= c -> c <= 95 # 100 ->
  (0 <= year_value b c y)%Z /\ inject_Z (year_value b c y) <= b.
Proof.
  intros Hb Hc0 Hc1. destruct (scale_up_range y) as [Hs0 Hs1].
  assert (Hcs : 0 <= c * scale_up y /\ c * scale_up y <= 95 # 100).
  { split; [apply Qmult_le_0_compat; lra|].
    apply (Qle_trans _ ((95 # 100) * 1)); [|lra].
    apply Qmult_le_compat_nonneg; split; lra. }
  destruct Hcs as [Hcs0 Hcs1].
  assert (H0 : 0 <= b * (1 - c * scale_up y)).
  { apply Qmult_le_0_compat; lra. }
  destruct (int_nonneg _ H0) as [Hz Hle]. split; [done|].
  eapply Qle_trans; [exact Hle|].
  apply (Qle_trans _ (b * 1)); [|lra].
  apply Qmult_le_compat_nonneg; split; lra.
Qed.

Lemma year_value_mono b c y y' :
  0 <= b -> 0 <= c -> c <= 95 # 100 -> (y <= y')%nat ->
  (year_value b c y' <= year_value b c y)%Z.
Proof.
  intros Hb Hc0 Hc1 Hy. destruct (scale_up_range y') as [Hs0 Hs1].
  destruct (scale_up_range y) as [Hs0' Hs1'].
  pose proof (scale_up_mono y y' Hy) as Hs.
  assert (Hcs : c * scale_up y' <= 95 # 100).
  { apply (Qle_trans _ ((95 # 100) * 1)); [|lra].
    apply Qmult_le_compat_nonneg; split; lra. }
  assert (Hcs' : c * scale_up y <= c * scale_up y').
  { apply Qmult_le_compat_nonneg; split; lra. }
  apply int_mono.
  - apply Qmult_le_0_compat; lra.
  - apply Qmult_le_compat_nonneg; split; lra.
Qed.

Definition averted_sum (baseline reduction : Q) (ys : list nat) : Q :=
  foldr (fun y acc => (baseline - inject_Z (year_value baseline reduction y)) + acc) 0 ys.

Lemma project_fold combined bc bd bp ys : forall acc,
  let r := fold_left (project_year combined bc bd bp) ys acc in
  p_cases r
    = p_cases acc ++ ((fun y => (year_label y, year_value bc combined.1 y)) <$> ys) /\
  p_deaths r
    = p_deaths acc ++ ((fun y => (year_label y, year_value bd combined.2 y)) <$> ys) /\
  (p_prevalence r).*1 = (p_prevalence acc).*1 ++ (year_label <$> ys) /\
  total_cases_averted r == total_cases_averted acc + averted_sum bc combined.1 ys /\
  total_deaths_averted r == total_deaths_averted acc + averted_sum bd combined.2 ys.
Proof.
  induction ys as [|y ys IH]; intros acc; cbn zeta.
  - cbn. rewrite !app_nil_r. split; [done|]. split; [done|]. split; [done|].
    split; ring.
  - cbn [fold_left]. destruct (IH (project_year combined bc bd bp acc y))
      as (H1 & H2 & H3 & H4 & H5). cbn zeta in *.
    rewrite H1, H2, H3, H4, H5. unfold project_year.
    cbn [p_cases p_deaths p_prevalence total_cases_averted total_deaths_averted].
    rewrite !fmap_app, <- !app_assoc. cbn [fmap list_fmap app fst].
    split; [done|]. split; [done|]. split; [done|].
    unfold averted_sum. cbn [foldr]. fold (averted_sum bc combined.1 ys).
    fold (averted_sum bd combined.2 ys). unfold year_value, scale_up. split; ring.
Qed.

Lemma averted_sum_nonneg b c ys :
  0 <= b -> 0 <= c -> c <= 95 # 100 -> 0 <= averted_sum b c ys.
Proof.
  intros Hb Hc0 Hc1. induction ys as [|y ys IH]; cbn; [discriminate|].
  destruct (year_value_range b c y Hb Hc0 Hc1) as [_ Hle].
  fold (averted_sum b c ys). nra.
Qed.

Lemma averted_sum_upper b c ys :
  0 <= b -> 0 <= c -> c <= 95 # 100 ->
  averted_sum b c ys <= inject_Z (Z.of_nat (length ys)) * b.
Proof.
  intros Hb Hc0 Hc1. induction ys as [|y ys IH]; cbn [averted_sum foldr length].
  - change (inject_Z (Z.of_nat 0)) with 0. rewrite Qmult_0_l. apply Qle_refl.
  - destruct (year_value_range b c y Hb Hc0 Hc1) as [Hz _].
    fold (averted_sum b c ys). rewrite Nat2Z.inj_succ, <- Z.add_1_r, inject_Z_plus.
    assert (0 <= inject_Z (year_value b c y)).
    { change 0 with (inject_Z 0). by rewrite <- Zle_Qle. }
    change (inject_Z 1) with 1. nra.
Qed.

Lemma series_within b c ys :
  0 <= b -> 0 <= c -> c <= 95 # 100 ->
  within_baseline b (year_value b c <$> ys).
Proof.
  intros Hb Hc0 Hc1 i z Hi. apply list_lookup_fmap_Some in Hi as (y & -> & _).
  by apply year_value_range.
Qed.

Lemma series_non_increasing b c n :
  0 <= b -> 0 <= c -> c <= 95 # 100 ->
  non_increasing (year_value b c <$> seq 0 n).
Proof.
  intros Hb Hc0 Hc1 i j zi zj Hij Hi Hj.
  apply list_lookup_fmap_Some in Hi as (y & -> & Hy).
  apply list_lookup_fmap_Some in Hj as (y' & -> & Hy').
  apply lookup_seq in Hy as [-> _]. apply lookup_seq in Hy' as [-> _].
  apply year_value_mono; [done..|lia].
Qed.

(** X24: For non-negative baselines the simple forecast projects one
    value per year, labelled 2025, 2026, ... for the requested number of
    years, for cases, deaths and prevalence alike.  The projected cases
    (deaths) of every year lie between 0 and the baseline and never
    increase from one year to the next; the total of cases (deaths) averted
    is non-negative and at most the number of years times the baseline. *)
Theorem simple_forecast_projection (scenario : InterventionScenario)
    (baseline_cases baseline_deaths baseline_prevalence population : Q) (years : nat) :
  0 <= baseline_cases -> 0 <= baseline_deaths ->
  exists cases deaths prevalence cases_averted deaths_averted,
    let forecast :=
      _simple_forecast scenario baseline_cases baseline_deaths baseline_prevalence
        population years in
    fd_projected_cases forecast = Some cases /\
    fd_projected_deaths forecast = Some deaths /\
    fd_projected_prevalence forecast = Some prevalence /\
    cases.*1 = year_label <$> seq 0 years /\
    deaths.*1 = year_label <$> seq 0 years /\
    prevalence.*1 = year_label <$> seq 0 years /\
    within_baseline baseline_cases cases.*2 /\ non_increasing cases.*2 /\
    within_baseline baseline_deaths deaths.*2 /\ non_increasing deaths.*2 /\
    fd_cases_averted forecast = Some cases_averted /\
    fd_deaths_averted forecast = Some deaths_averted /\
    0 <= cases_averted /\
    cases_averted <= inject_Z (Z.of_nat years) * baseline_cases /\
    0 <= deaths_averted /\
    deaths_averted <= inject_Z (Z.of_nat years) * baseline_deaths.
Proof.
  intros Hbc Hbd.
  destruct (combined_reduction_range scenario) as ([Hc0 Hc1] & [Hd0 Hd1]).
  destruct (project_fold (combined_reduction scenario) baseline_cases baseline_deaths
              baseline_prevalence (seq 0 years) (mkProjection [] [] [] 0 0))
    as (H1 & H2 & H3 & H4 & H5).
  cbn zeta in *. cbn [p_cases p_deaths p_prevalence total_cases_averted
                      total_deaths_averted app fmap list_fmap] in *.
  eexists _, _, _, _, _. unfold _simple_forecast.
  cbn [fd_projected_cases fd_projected_deaths fd_projected_prevalence fd_cases_averted
       fd_deaths_averted].
  split; [reflexivity|]. split; [reflexivity|]. split; [reflexivity|].
  rewrite H1, H2, H3. rewrite <- !list_fmap_compose.
  split; [done|]. split; [done|]. split; [done|].
  split; [by apply series_within|]. split; [by apply series_non_increasing|].
  split; [by apply series_within|]. split; [by apply series_non_increasing|].
  split; [reflexivity|]. split; [reflexivity|].
  rewrite H4, H5, !Qplus_0_l.
  pose proof (averted_sum_upper baseline_cases _ (seq 0 years) Hbc Hc0 Hc1) as Huc.
  pose proof (averted_sum_upper baseline_deaths _ (seq 0 years) Hbd Hd0 Hd1) as Hud.
  rewrite length_seq in Huc, Hud.
  split; [by apply averted_sum_nonneg|]. split; [exact Huc|].
  split; [by apply averted_sum_nonneg|exact Hud].
Qed.

Lemma simple_forecast_projection_witness :
  exists cases,
    fd_projected_cases (_simple_forecast itn_then_irs 100000 500 15 1000000 5)
      = Some cases /\
    non_increasing cases.*2.
Proof.
  destruct (simple_forecast_projection itn_then_irs 100000 500 15 1000000 5)
    as (cases & deaths & prevalence & ca & da & Hc & _ & _ & _ & _ & _ & _ & Hmono & _).
  - discriminate.
  - discriminate.
  - exists cases. split; [exact Hc | exact Hmono].
Defined.

(** Five years of ITN with IRS on the default baseline: the combined case
    reduction 0.725 is scaled up over three years. *)
Example simple_forecast_itn_irs :
  fd_projected_cases (_simple_forecast itn_then_irs 100000 500 15 1000000 5)
  = Some [("2025", 63750%Z); ("2026", 45625%Z); ("2027", 27500%Z);
          ("2028", 27500%Z); ("2029", 27500%Z)] /\
  fd_cases_averted (_simple_forecast itn_then_irs 100000 500 15 1000000 5)
  = Some (308125 # 1).
Proof. vm_compute. split; reflexivity. Qed.

(** *** run_forecast: what is stored *)


(** *** compare_forecasts *)

(** The figures of the latest completed forecast of a scenario. *)
Definition latest_cases_averted (fs : list ForecastResult) (sid : N) : option Q :=
  latest_completed fs sid ≫= cases_averted.
Definition latest_cost_per_case (fs : list ForecastResult) (sid : N) : option Q :=
  latest_completed fs sid ≫= cost_per_case_averted.

(** [best] is the scenario of [seen] with the most cases averted, [count]
    its figure; no best when no figure is positive. *)
Definition best_cases_inv (fs : list ForecastResult) (seen : list N)
    (best : option N) (count : Q) : Prop :=
  match best with
  | None =>
      count = 0 /\
      forall sid w, sid ∈ seen -> latest_cases_averted fs sid = Some w -> w <= 0
  | Some b =>
      b ∈ seen /\ latest_cases_averted fs b = Some count /\ 0 < count /\
      forall sid w, sid ∈ seen -> latest_cases_averted fs sid = Some w -> w <= count
  end.

(** [best] is the scenario of [seen] with the lowest non-zero cost per case
    averted, [ratio] its figure. *)
Definition best_ratio_inv (fs : list ForecastResult) (seen : list N)
    (best : option N) (ratio : option Q) : Prop :=
  match best, ratio with
  | None, None =>
      forall sid r, sid ∈ seen -> latest_cost_per_case fs sid = Some r -> r == 0
  | Some b, Some x =>
      b ∈ seen /\ latest_cost_per_case fs b = Some x /\ ~ x == 0 /\
      forall sid r, sid ∈ seen -> latest_cost_per_case fs sid = Some r ->
        ~ r == 0 -> x <= r
  | _, _ => False
  end.

Lemma Qltb_false a b : Py.Qltb a b = false <-> b <= a.
Proof.
  unfold Py.Qltb. rewrite negb_false_iff. apply Qle_bool_iff.
Qed.

Lemma truthy_num_false_Some w : truthy_num (Some w) = false -> w == 0.
Proof. cbn. rewrite negb_false_iff. apply Qeq_bool_iff. Qed.

Lemma compare_fold fs rows : forall seen sums bid bc cid cr,
  best_cases_inv fs seen bid bc ->
  best_ratio_inv fs seen cid cr ->
  exists sums' bid' bc' cid' cr',
    fold_left (compare_step fs) rows (sums, bid, bc, cid, cr)
      = (sums', bid', bc', cid', cr') /\
    fs_scenario_id <$> sums' = (fs_scenario_id <$> sums) ++ rows.*1 /\
    best_cases_inv fs (seen ++ rows.*1) bid' bc' /\
    best_ratio_inv fs (seen ++ rows.*1) cid' cr'.
Proof.
  induction rows as [|[sid sc] rows IH]; intros seen sums bid bc cid cr Hcases Hratio.
  - exists sums, bid, bc, cid, cr. cbn. rewrite !app_nil_r. done.
  - cbn [fold_left]. unfold compare_step at 2.
    fold (latest_cases_averted fs sid). fold (latest_cost_per_case fs sid).
    set (summary := mkForecastSummaryResponse _ _ _ _ _ _ _ _ _).
    set (cases_step :=
           if truthy_num (latest_cases_averted fs sid)
              && Py.Qltb bc (default 0 (latest_cases_averted fs sid))
           then (default 0 (latest_cases_averted fs sid), Some sid) else (bc, bid)).
    set (ratio_step :=
           match latest_cost_per_case fs sid with
           | Some ratio =>
               if negb (Qeq_bool ratio 0) &&
                  match cr with Some best => Py.Qltb ratio best | None => true end
               then (Some ratio, Some sid) else (cr, cid)
           | None => (cr, cid)
           end).
    assert (Hc' : best_cases_inv fs (seen ++ [sid]) cases_step.2 cases_step.1).
    { subst cases_step. destruct (latest_cases_averted fs sid) as [w|] eqn:Hw.
      - destruct (truthy_num (Some w)) eqn:Ht; cbn [andb default from_option id].
        + destruct (Py.Qltb bc w) eqn:Hlt; cbn [fst snd].
          * apply PyFacts.Qltb_spec in Hlt. cbn.
            assert (Hbc : 0 <= bc).
            { destruct bid as [b|]; cbn in Hcases.
              - destruct Hcases as (_ & _ & Hpos & _). by apply Qlt_le_weak.
              - destruct Hcases as [-> _]. apply Qle_refl. }
            split; [apply elem_of_app; right; apply list_elem_of_here|].
            split; [done|]. split; [by eapply Qle_lt_trans|].
            intros sid' w' [Hin|Hin%list_elem_of_singleton]%elem_of_app Hw'.
            -- apply Qlt_le_weak. eapply Qle_lt_trans; [|exact Hlt].
               destruct bid as [b|]; cbn in Hcases.
               ++ destruct Hcases as (_ & _ & _ & Hmax). by eapply Hmax.
               ++ destruct Hcases as [-> Hmax]. by eapply Hmax.
            -- subst sid'. rewrite Hw in Hw'. injection Hw' as ->. apply Qle_refl.
          * apply Qltb_false in Hlt. destruct bid as [b|]; cbn in Hcases |- *.
            -- destruct Hcases as (Hb & Hbv & Hpos & Hmax).
               split; [apply elem_of_app; by left|]. split; [done|]. split; [done|].
               intros sid' w' [Hin|Hin%list_elem_of_singleton]%elem_of_app Hw'.
               ++ by eapply Hmax.
               ++ subst sid'. rewrite Hw in Hw'. by injection Hw' as ->.
            -- destruct Hcases as [-> Hmax]. split; [done|].
               intros sid' w' [Hin|Hin%list_elem_of_singleton]%elem_of_app Hw'.
               ++ by eapply Hmax.
               ++ subst sid'. rewrite Hw in Hw'. by injection Hw' as ->.
        + apply truthy_num_false_Some in Ht. cbn [fst snd].
          destruct bid as [b|]; cbn in Hcases |- *.
          * destruct Hcases as (Hb & Hbv & Hpos & Hmax).
            split; [apply elem_of_app; by left|]. split; [done|]. split; [done|].
            intros sid' w' [Hin|Hin%list_elem_of_singleton]%elem_of_app Hw'.
            -- by eapply Hmax.
            -- subst sid'. rewrite Hw in Hw'. injection Hw' as <-. rewrite Ht.
               by apply Qlt_le_weak.
          * destruct Hcases as [-> Hmax]. split; [done|].
            intros sid' w' [Hin|Hin%list_elem_of_singleton]%elem_of_app Hw'.
            -- by eapply Hmax.
            -- subst sid'. rewrite Hw in Hw'. injection Hw' as <-. rewrite Ht.
               apply Qle_refl.
      - cbn [truthy_num andb fst snd]. destruct bid as [b|]; cbn in Hcases |- *.
        + destruct Hcases as (Hb & Hbv & Hpos & Hmax).
          split; [apply elem_of_app; by left|]. split; [done|]. split; [done|].
          intros sid' w' [Hin|Hin%list_elem_of_singleton]%elem_of_app Hw'.
          * by eapply Hmax.
          * subst sid'. rewrite Hw in Hw'. discriminate.
        + destruct Hcases as [-> Hmax]. split; [done|].
          intros sid' w' [Hin|Hin%list_elem_of_singleton]%elem_of_app Hw'.
          * by eapply Hmax.
          * subst sid'. rewrite Hw in Hw'. discriminate. }
    assert (Hr' : best_ratio_inv fs (seen ++ [sid]) ratio_step.2 ratio_step.1).
    { subst ratio_step. destruct (latest_cost_per_case fs sid) as [r|] eqn:Hr.
      - destruct (Qeq_bool r 0) eqn:Hz; cbn [negb andb fst snd].
        + apply Qeq_bool_iff in Hz.
          destruct cid as [b|], cr as [x|]; cbn in Hratio |- *; try done.
          * destruct Hratio as (Hb & Hbv & Hnz & Hmin).
            split; [apply elem_of_app; by left|]. split; [done|]. split; [done|].
            intros sid' r' [Hin|Hin%list_elem_of_singleton]%elem_of_app Hr' Hnz'.
            -- by eapply Hmin.
            -- subst sid'. rewrite Hr in Hr'. injection Hr' as <-. by destruct Hnz'.
          * intros sid' r' [Hin|Hin%list_elem_of_singleton]%elem_of_app Hr'.
            -- by eapply Hratio.
            -- subst sid'. rewrite Hr in Hr'. by injection Hr' as <-.
        + assert (Hnz : ~ r == 0).
          { intros H0. apply Qeq_bool_iff in H0. congruence. }
          destruct cid as [b|], cr as [x|]; cbn in Hratio; try done.
          * destruct Hratio as (Hb & Hbv & Hxnz & Hmin).
            destruct (Py.Qltb r x) eqn:Hlt; cbn [fst snd]; cbn.
            -- apply PyFacts.Qltb_spec in Hlt.
               split; [apply elem_of_app; right; apply list_elem_of_here|].
               split; [done|]. split; [done|].
               intros sid' r' [Hin|Hin%list_elem_of_singleton]%elem_of_app Hr' Hnz'.
               ++ apply Qlt_le_weak. eapply Qlt_le_trans; [exact Hlt|]. by eapply Hmin.
               ++ subst sid'. rewrite Hr in Hr'. injection Hr' as <-. apply Qle_refl.
            -- apply Qltb_false in Hlt.
               split; [apply elem_of_app; by left|]. split; [done|]. split; [done|].
               intros sid' r' [Hin|Hin%list_elem_of_singleton]%elem_of_app Hr' Hnz'.
               ++ by eapply Hmin.
               ++ subst sid'. rewrite Hr in Hr'. by injection Hr' as <-.
          * cbn [fst snd]. cbn.
            split; [apply elem_of_app; right; apply list_elem_of_here|].
            split; [done|]. split; [done|].
            intros sid' r' [Hin|Hin%list_elem_of_singleton]%elem_of_app Hr' Hnz'.
            -- exfalso. apply Hnz'. by eapply Hratio.
            -- subst sid'. rewrite Hr in Hr'. injection Hr' as <-. apply Qle_refl.
      - cbn [fst snd]. destruct cid as [b|], cr as [x|]; cbn in Hratio |- *; try done.
        + destruct Hratio as (Hb & Hbv & Hnz & Hmin).
          split; [apply elem_of_app; by left|]. split; [done|]. split; [done|].
          intros sid' r' [Hin|Hin%list_elem_of_singleton]%elem_of_app Hr' Hnz'.
          * by eapply Hmin.
          * subst sid'. rewrite Hr in Hr'. discriminate.
        + intros sid' r' [Hin|Hin%list_elem_of_singleton]%elem_of_app Hr'.
          * by eapply Hratio.
          * subst sid'. rewrite Hr in Hr'. discriminate. }
    destruct cases_step as [bc1 bid1] eqn:Ecs. destruct ratio_step as [cr1 cid1] eqn:Ers.
    cbn [fst snd] in Hc', Hr'.
    destruct (IH (seen ++ [sid]) (sums ++ [summary]) bid1 bc1 cid1 cr1 Hc' Hr')
      as (sums' & bid' & bc' & cid' & cr' & Hrun & Hids & Hc'' & Hr'').
    exists sums', bid', bc', cid', cr'. split; [exact Hrun|].
    rewrite <- !app_assoc in Hc'', Hr''. cbn [app] in Hc'', Hr''.
    split; [|done]. rewrite Hids, fmap_app, <- app_assoc. reflexivity.
Qed.

Section CompareLaws.
Variable select_scenarios :
  gmap N InterventionScenario -> list (N * InterventionScenario).
Hypothesis select_scenarios_rows :
  forall m, select_scenarios m ≡ₚ map_to_list m.

(** X26: compare_forecasts never fails and never changes the store; it
    gives one summary per scenario, in the order in which the scenarios are
    read.  Its best scenario by cases averted is a scenario whose latest
    completed forecast averts a positive number of cases that no other
    scenario exceeds, and there is none exactly when no scenario averts a
    positive number.  Its best scenario by cost-effectiveness has the
    lowest non-zero cost per case averted among the latest completed
    forecasts, and there is none when no scenario has a non-zero ratio. *)
Theorem compare_forecasts_best (db : Db) :
  exists resp,
    compare_forecasts select_scenarios db = Ok resp db /\
    fs_scenario_id <$> comparison_scenarios resp
      = (select_scenarios (scenarios db)).*1 /\
    match best_by_cases_averted resp with
    | Some best =>
        is_Some (scenarios db !! best) /\
        exists count,
          latest_cases_averted (forecasts db) best = Some count /\ 0 < count /\
          forall sid w, is_Some (scenarios db !! sid) ->
            latest_cases_averted (forecasts db) sid = Some w -> w <= count
    | None =>
        forall sid w, is_Some (scenarios db !! sid) ->
          latest_cases_averted (forecasts db) sid = Some w -> w <= 0
    end /\
    match best_by_cost_effectiveness resp with
    | Some best =>
        is_Some (scenarios db !! best) /\
        exists ratio,
          latest_cost_per_case (forecasts db) best = Some ratio /\ ~ ratio == 0 /\
          forall sid r, is_Some (scenarios db !! sid) ->
            latest_cost_per_case (forecasts db) sid = Some r -> ~ r == 0 -> ratio <= r
    | None =>
        forall sid r, is_Some (scenarios db !! sid) ->
          latest_cost_per_case (forecasts db) sid = Some r -> r == 0
    end.
Proof.
  assert (Hseen : forall sid, sid ∈ (select_scenarios (scenarios db)).*1
                               <-> is_Some (scenarios db !! sid)).
  { intros sid. rewrite list_elem_of_fmap. split.
    - intros ([k sc] & -> & Hin). rewrite select_scenarios_rows in Hin.
      apply elem_of_map_to_list in Hin. by eexists.
    - intros [sc Hsc]. exists (sid, sc). split; [done|].
      rewrite select_scenarios_rows. by apply elem_of_map_to_list. }
  destruct (compare_fold (forecasts db) (select_scenarios (scenarios db))
              [] [] None 0 None None) as (sums & bid & bc & cid & cr & Hrun & Hids & Hc & Hr).
  { split; [done|]. intros sid w Hin. by apply not_elem_of_nil in Hin. }
  { intros sid r Hin. by apply not_elem_of_nil in Hin. }
  cbn [app fmap list_fmap] in Hids, Hc, Hr.
  unfold compare_forecasts, bind, gets. rewrite Hrun. unfold ret.
  eexists. split; [reflexivity|].
  cbn [comparison_scenarios best_by_cases_averted best_by_cost_effectiveness].
  split; [exact Hids|]. split.
  - destruct bid as [b|]; cbn in Hc.
    + destruct Hc as (Hb & Hbv & Hpos & Hmax). split; [by apply Hseen|].
      exists bc. split; [done|]. split; [done|].
      intros sid w Hsid. apply Hmax. by apply Hseen.
    + destruct Hc as [_ Hmax]. intros sid w Hsid. apply Hmax. by apply Hseen.
  - destruct cid as [b|], cr as [x|]; cbn in Hr; try done.
    + destruct Hr as (Hb & Hbv & Hnz & Hmin). split; [by apply Hseen|].
      exists x. split; [done|]. split; [done|].
      intros sid r Hsid. apply Hmin. by apply Hseen.
    + intros sid r Hsid. apply Hr. by apply Hseen.
Qed.

End CompareLaws.

(** *** Sample data *)

Definition two_scenarios : Db :=
  mkDb {[ 1%N := scenario_of [("u1", ["itn"; "irs"])] (Some 1000000);
          2%N := scenario_of [("u1", ["itn"])] (Some 400000) ]} [].

(** The store after a forecast of [sid] with the simple model over five years. *)
Definition forecasted (sid : N) (db : Db) : Db :=
  match run_forecast sid (mkForecastRequest "simple" 5) None db with
  | Ok _ db' => db'
  | _ => db
  end.

Definition compared_db : Db := forecasted 2 (forecasted 1 two_scenarios).

Lemma compare_forecasts_best_witness :
  exists resp,
    compare_forecasts map_to_list compared_db = Ok resp compared_db /\
    fs_scenario_id <$> comparison_scenarios resp
      = (map_to_list (scenarios compared_db)).*1.
Proof.
  destruct (compare_forecasts_best map_to_list (fun m => reflexivity _) compared_db)
    as (resp & Hrun & Hids & _).
  exists resp. split; [exact Hrun | exact Hids].
Defined.

(** ITN with IRS averts the most cases; ITN alone is the cheapest per case. *)
Example compare_two_scenarios :
  exists resp,
    compare_forecasts map_to_list compared_db = Ok resp compared_db /\
    best_by_cases_averted resp = Some 1%N /\
    best_by_cost_effectiveness resp = Some 2%N /\
    ((fun r => (fs_scenario_id r, projected_cases_final_year r))
       <$> comparison_scenarios resp)
      = [(2%N, Some 50000%Z); (1%N, Some 27500%Z)].
Proof. vm_compute. eexists. repeat split; reflexivity. Qed.

End ForecastLaws.

(** ** Quality checks: scores, stored records and recommendations *)

Module QualityLaws.
Import Session Enums Json Pandas QualityCheckService DataSourceService QualityFacts.
#[local] Open Scope Q_scope.

Definition unit_score (s : Q) : Prop := 0 <= s /\ s <= 1.

Lemma round_half_even_range (x : Q) (n : Z) :
  0 <= x -> x <= inject_Z n ->
  (0 <= Py.round_half_even x <= n)%Z.
Proof.
  intros H0 Hn.
  assert (Hf0 : (0 <= Qfloor x)%Z).
  { change 0%Z with (Qfloor 0). by apply Qfloor_resp_le. }
  assert (Hfn : (Qfloor x <= n)%Z).
  { rewrite <- (Qfloor_Z n). by apply Qfloor_resp_le. }
  assert (Hstep : 0 < x - inject_Z (Qfloor x) -> (Qfloor x + 1 <= n)%Z).
  { intros Hpos. destruct (Z.eq_dec (Qfloor x) n) as [Heq|Hne]; [|lia].
    exfalso. rewrite Heq in Hpos. lra. }
  unfold Py.round_half_even.
  destruct (Qcompare_spec (x - inject_Z (Qfloor x)) (1 # 2)) as [Heq|Hlt|Hgt].
  - destruct (Z.even (Qfloor x)); [lia|]. split; [lia|]. apply Hstep. rewrite Heq. done.
  - lia.
  - split; [lia|]. apply Hstep. eapply Qlt_trans; [|exact Hgt]. done.
Qed.

Lemma round_unit_score q : unit_score q -> unit_score (Py.round q 3).
Proof.
  intros [H0 H1]. unfold Py.round. change (Py.pow10 3) with 1000%Z.
  destruct (round_half_even_range (q * inject_Z 1000) 1000) as [Hz0 Hz1].
  - change (inject_Z 1000) with (1000 # 1). lra.
  - change (inject_Z 1000) with (1000 # 1). lra.
  - rewrite Zle_Qle in Hz0, Hz1. change (inject_Z 0) with 0 in Hz0.
    change (inject_Z 1000) with (1000 # 1) in *. split.
    + apply Qle_shift_div_l; [done|]. lra.
    + apply Qle_shift_div_r; [done|]. lra.
Qed.

Lemma max_unit_score t : 0 <= t -> unit_score (Qmax 0 (1 - t)).
Proof.
  intros Ht. split; [apply Q.le_max_l|]. apply Q.max_lub; lra.
Qed.

Lemma qnat_nonneg n : 0 <= qnat n.
Proof. unfold qnat. change 0 with (inject_Z 0). rewrite <- Zle_Qle. lia. Qed.

Lemma ratio_nonneg a b : 0 <= qnat a / qnat b.
Proof.
  destruct b as [|b].
  - unfold Qdiv. change (qnat 0) with 0. change (/ 0) with 0. rewrite Qmult_0_r.
    apply Qle_refl.
  - apply Qle_shift_div_l.
    + unfold qnat. change 0 with (inject_Z 0). rewrite <- Zlt_Qlt. lia.
    + rewrite Qmult_0_l. apply qnat_nonneg.
Qed.

Lemma round_half_even_proper x y : x == y -> Py.round_half_even x = Py.round_half_even y.
Proof.
  intros Hxy. unfold Py.round_half_even.
  rewrite (Qfloor_comp _ _ Hxy).
  assert ((x - inject_Z (Qfloor y) ?= 1 # 2) = (y - inject_Z (Qfloor y) ?= 1 # 2)) as ->;
    [|done].
  apply Qcompare_comp; [by rewrite Hxy|reflexivity].
Qed.

Lemma round_proper x y n : x == y -> Py.round x n = Py.round y n.
Proof.
  intros Hxy. unfold Py.round.
  rewrite (round_half_even_proper (x * inject_Z (Py.pow10 n)) (y * inject_Z (Py.pow10 n)));
    [done|]. by rewrite Hxy.
Qed.

Lemma format_f_proper n x y : x == y -> Py.format_f n x = Py.format_f n y.
Proof.
  intros Hxy. unfold Py.format_f.
  rewrite (round_half_even_proper (Qabs x * inject_Z (Py.pow10 n))
             (Qabs y * inject_Z (Py.pow10 n))) by (by rewrite Hxy).
  assert ((if Qlt_le_dec x 0 then "-" else "") = (if Qlt_le_dec y 0 then "-" else ""))
    as ->; [|done].
  destruct (Qlt_le_dec x 0) as [Hx|Hx], (Qlt_le_dec y 0) as [Hy|Hy]; try done.
  - rewrite Hxy in Hx. exfalso. by apply (Qlt_not_le _ _ Hx).
  - rewrite Hxy in Hx. exfalso. by apply (Qlt_not_le _ _ Hy).
Qed.

Section Laws.
Context {DF : Type} `{DataFrame DF}.

Definition score_of (r : Q * nat * string * list (string * json)) : Q := r.1.1.1.

Ltac split_lets :=
  repeat match goal with
         | |- context [let '(_, _) := ?e in _] => destruct e
         end.

Lemma completeness_score (df : DF) ds : unit_score (score_of (_check_completeness df ds)).
Proof.
  unfold _check_completeness. split_lets. cbn [score_of fst].
  apply round_unit_score, max_unit_score.
  destruct (bool_decide _).
  - assert (0 <= qnat (sum_list (isnull_sum df <$> columns df)) / qnat (size df))
      by apply ratio_nonneg.
    apply Qle_shift_div_l; [done|]. lra.
  - unfold Qdiv. rewrite Qmult_0_l. apply Qle_refl.
Qed.

Lemma consistency_score (df : DF) ds : unit_score (score_of (_check_consistency df ds)).
Proof.
  unfold _check_consistency. split_lets. cbn [score_of fst].
  apply round_unit_score, max_unit_score.
  apply Qmult_le_0_compat; [apply qnat_nonneg|done].
Qed.

Lemma outliers_score (df : DF) ds : unit_score (score_of (_check_outliers df ds)).
Proof.
  unfold _check_outliers. split_lets. cbn [score_of fst].
  apply round_unit_score, max_unit_score.
  apply Qmult_le_0_compat; [apply qnat_nonneg|done].
Qed.

Lemma disaggregation_score (df : DF) ds :
  unit_score (score_of (_check_disaggregation df ds)).
Proof.
  unfold _check_disaggregation. split_lets. cbn [score_of fst].
  apply round_unit_score, max_unit_score.
  apply Qmult_le_0_compat; [apply qnat_nonneg|done].
Qed.

Lemma duplicates_score (df : DF) ds : unit_score (score_of (_check_duplicates df ds)).
Proof.
  unfold _check_duplicates. cbn [score_of fst].
  apply round_unit_score, max_unit_score.
  destruct (bool_decide _).
  - assert (0 <= qnat (duplicated_sum df) / qnat (len df)) by apply ratio_nonneg.
    apply Qle_shift_div_l; [done|]. lra.
  - unfold Qdiv. rewrite Qmult_0_l. apply Qle_refl.
Qed.

(** The status of a score. *)
Definition band (s : Q) : QualityCheckStatus :=
  if Py.Qltb s (5 # 10) then QC_FAILED
  else if Py.Qltb s (8 # 10) then QC_WARNING
  else QC_PASSED.

(** The record stored for the result of a check. *)
Definition record_of (ds : DataSource) (ct : QualityCheckType)
    (r : Q * nat * string * list (string * json)) : DataQualityCheck :=
  mkDataQualityCheck (ds_id ds) (check_type_value ct) (status_value (band r.1.1.1))
    (Some r.1.1.1) r.1.1.2 r.1.2 r.2.

(** The five records of a run, in the order of [checks_to_run]. *)
Definition records_of (ds : DataSource) (df : DF) : list DataQualityCheck :=
  (fun check : QualityCheckType
               * (DF -> DataSource -> Q * nat * string * list (string * json)) =>
     record_of ds check.1 (check.2 df ds)) <$> checks_to_run.

Definition scores_of (ds : DataSource) (df : DF) : list Q :=
  (fun check : QualityCheckType
               * (DF -> DataSource -> Q * nat * string * list (string * json)) =>
     (check.2 df ds).1.1.1) <$> checks_to_run.

Lemma load_data_files ds (db : @Db DF) l :
  _load_data ds (mkDb (files db) l) = _load_data ds db.
Proof. reflexivity. Qed.

Lemma run_all_checks_run ds (db : @Db DF) df :
  _load_data ds db = Some df ->
  run_all_checks ds db
  = Ok (mkQualityReportResponse (ds_id ds) (ds_name ds)
          (Some (fold_left Qplus (scores_of ds df) 0 / qnat 5))
          (records_of ds df)
          (flat_map improve_text (records_of ds df)))
       (mkDb (files db)
          (filter (fun c => data_source_id c <> ds_id ds) (quality_checks db)
           ++ records_of ds df)).
Proof.
  intros Hload. unfold run_all_checks, bind, modify, gets, ret.
  rewrite load_data_files, Hload.
  unfold records_of, scores_of, checks_to_run.
  cbn [fold_left fmap list_fmap fst snd].
  unfold record_of, band.
  destruct (_check_completeness df ds) as [[[s1 i1] m1] d1].
  destruct (_check_consistency df ds) as [[[s2 i2] m2] d2].
  destruct (_check_outliers df ds) as [[[s3 i3] m3] d3].
  destruct (_check_disaggregation df ds) as [[[s4 i4] m4] d4].
  destruct (_check_duplicates df ds) as [[[s5 i5] m5] d5].
  cbn [app fst snd files quality_checks]. rewrite recommendations_fold.
  rewrite bool_decide_eq_true_2 by done. reflexivity.
Qed.

Lemma scores_unit ds df : Forall unit_score (scores_of ds df).
Proof.
  unfold scores_of, checks_to_run. cbn [fmap list_fmap snd].
  repeat (apply Forall_cons; split).
  - exact (completeness_score df ds).
  - exact (consistency_score df ds).
  - exact (outliers_score df ds).
  - exact (disaggregation_score df ds).
  - exact (duplicates_score df ds).
  - apply Forall_nil_2.
Qed.

Lemma sum_unit_scores l : forall acc,
  Forall unit_score l ->
  acc <= fold_left Qplus l acc /\
  fold_left Qplus l acc <= acc + qnat (length l).
Proof.
  induction l as [|s l IH]; intros acc Hl.
  - cbn. change (qnat 0) with 0. split; lra.
  - apply Forall_cons in Hl as [[Hs0 Hs1] Hl]. cbn [fold_left length].
    destruct (IH (acc + s) Hl) as [H1 H2]. split; [lra|].
    unfold qnat in *. rewrite Nat2Z.inj_succ, <- Z.add_1_r, inject_Z_plus.
    change (inject_Z 1) with 1. lra.
Qed.

Lemma record_in_range ds ct (r : Q * nat * string * list (string * json)) :
  unit_score (score_of r) ->
  data_source_id (record_of ds ct r) = ds_id ds /\
  exists s, score (record_of ds ct r) = Some s /\ 0 <= s /\ s <= 1 /\
            status (record_of ds ct r) = status_value (band s).
Proof.
  intros [H0 H1]. split; [reflexivity|]. exists r.1.1.1.
  split; [reflexivity|]. split; [exact H0|]. split; [exact H1|reflexivity].
Qed.

Lemma records_in_range ds df :
  Forall (fun c =>
            data_source_id c = ds_id ds /\
            exists s, score c = Some s /\ 0 <= s /\ s <= 1 /\
                      status c = status_value (band s))
         (records_of ds df).
Proof.
  unfold records_of, checks_to_run. cbn [fmap list_fmap fst snd].
  repeat (apply Forall_cons; split).
  - apply record_in_range. exact (completeness_score df ds).
  - apply record_in_range. exact (consistency_score df ds).
  - apply record_in_range. exact (outliers_score df ds).
  - apply record_in_range. exact (disaggregation_score df ds).
  - apply record_in_range. exact (duplicates_score df ds).
  - apply Forall_nil_2.
Qed.

Lemma run_all_checks_scores_in_range_run (ds : DataSource) (db : @Db DF) (df : DF) :
  _load_data ds db = Some df ->
  exists report db',
    run_all_checks ds db = Ok report db' /\
    check_type <$> checks report
      = ["completeness"; "consistency"; "outliers"; "disaggregation"; "duplicates"] /\
    Forall (fun c =>
              data_source_id c = ds_id ds /\
              exists s, score c = Some s /\ 0 <= s /\ s <= 1 /\
                        status c = status_value (band s))
           (checks report) /\
    exists overall,
      overall_score report = Some overall /\ 0 <= overall /\ overall <= 1.
Proof.
  intros Hload. rewrite (run_all_checks_run ds db df Hload).
  eexists _, _. split; [reflexivity|]. cbn [checks overall_score].
  split; [reflexivity|]. split.
  - apply records_in_range.
  - eexists. split; [reflexivity|].
    destruct (sum_unit_scores (scores_of ds df) 0 (scores_unit ds df)) as [H0 H1].
    change (length (scores_of ds df)) with 5%nat in H1.
    change (qnat 5) with (5 # 1) in *. split.
    + apply Qle_shift_div_l; [done|]. lra.
    + apply Qle_shift_div_r; [done|]. lra.
Qed.

(** X27: Whenever run_all_checks returns for a data file that loads, its
    report has exactly the five checks completeness, consistency, outliers,
    disaggregation and duplicates, in this order.  Every check belongs to
    the data source and has a score between 0 and 1, with the status
    "failed" below 0.5, "warning" from 0.5 to below 0.8 and "passed" from
    0.8 on; the overall score is present and between 0 and 1.  (The call
    does not return when a check raises, as the comparison of a text column
    does.) *)
Theorem run_all_checks_scores_in_range (ds : DataSource) (db : @Db DF) (df : DF)
    (report : QualityReportResponse) (db' : @Db DF) :
  _load_data ds db = Some df ->
  run_all_checks ds db = Ok report db' ->
  check_type <$> checks report
    = ["completeness"; "consistency"; "outliers"; "disaggregation"; "duplicates"] /\
  Forall (fun c =>
            data_source_id c = ds_id ds /\
            exists s, score c = Some s /\ 0 <= s /\ s <= 1 /\
                      status c = status_value (band s))
         (checks report) /\
  exists overall,
    overall_score report = Some overall /\ 0 <= overall /\ overall <= 1.
Proof.
  intros Hload Hrun.
  destruct (run_all_checks_scores_in_range_run ds db df Hload)
    as (report0 & db0 & Hrun0 & Hthm).
  rewrite Hrun in Hrun0. by injection Hrun0 as <- <-.
Qed.

Lemma completeness_loop (df : DF) cols : forall acc,
  (forall col, col ∈ cols -> isnull_sum df col = 0%nat) ->
  fold_left
    (fun (acc : list string * list (string * json)) (col : string) =>
       let '(issues, column_missing) := acc in
       let col_missing := isnull_sum df col in
       if bool_decide (0 < col_missing)%nat then
         let col_pct := qnat col_missing / qnat (len df) * 100 in
         let column_missing :=
           dict_set column_missing col
             (JObj [("missing_count", jnat col_missing);
                    ("missing_pct", JNum (Py.round col_pct 1))]) in
         if Py.Qltb 10 col_pct
         then (issues ++ [col +:+ ": " +:+ Py.format_f 1 col_pct +:+ "% missing"],
               column_missing)
         else (issues, column_missing)
       else (issues, column_missing))
    cols acc = acc.
Proof.
  induction cols as [|col cols IH]; intros [issues cm] Hz; [done|].
  cbn [fold_left]. rewrite (Hz col) by apply list_elem_of_here.
  rewrite bool_decide_eq_false_2 by lia. apply IH.
  intros c Hc. apply Hz. by apply list_elem_of_further.
Qed.

Lemma sum_list_zero (f : string -> nat) cols :
  (forall col, col ∈ cols -> f col = 0%nat) -> sum_list (f <$> cols) = 0%nat.
Proof.
  induction cols as [|c cols IH]; intros Hz; [done|].
  cbn. rewrite (Hz c) by apply list_elem_of_here. cbn. apply IH.
  intros c' Hc'. apply Hz. by apply list_elem_of_further.
Qed.

(** X28: A data frame without a missing cell is complete: when no
    column has a missing value, the completeness check scores 1, reports 0
    issues with the message "0.0% of data cells are missing", is banded as
    passed and gives rise to no recommendation (this includes the frame
    without rows or columns). *)
Theorem check_completeness_perfect (df : DF) (ds : DataSource) :
  (forall col, col ∈ columns df -> isnull_sum df col = 0%nat) ->
  exists score details,
    _check_completeness df ds
      = (score, 0%nat, "0.0% of data cells are missing", details) /\
    score == 1 /\ band score = QC_PASSED /\ improve_text
      (mkDataQualityCheck (ds_id ds) "completeness" "passed" (Some score) 0
         "0.0% of data cells are missing" details) = [].
Proof.
  intros Hz. unfold _check_completeness.
  destruct (fold_left _ (columns df) ([], [])) as [issues cm] eqn:E.
  assert ((issues, cm) = ([], [])) as Hacc.
  { rewrite <- E. exact (completeness_loop df (columns df) ([], []) Hz). }
  injection Hacc as -> ->. cbn [length].
  rewrite (sum_list_zero (isnull_sum df) (columns df) Hz).
  set (pct := if bool_decide (0 < size df)%nat
              then qnat 0 / qnat (size df) * 100 else 0).
  assert (Hpct : pct == 0).
  { subst pct. destruct (bool_decide _); [|reflexivity].
    change (qnat 0) with 0. unfold Qdiv. ring. }
  assert (Hscore : Py.round (Qmax 0 (1 - pct / 100)) 3 = Py.round 1 3).
  { apply round_proper. rewrite Hpct. reflexivity. }
  rewrite Hscore. rewrite (format_f_proper 1 pct 0 Hpct).
  eexists _, _. split; [reflexivity|]. split; [|split]; reflexivity.
Qed.





(** The line [_generate_recommendations] adds for a check with issues. *)
Definition review_text (c : DataQualityCheck) : list string :=
  if bool_decide (0 < issues_found c)%nat
  then ["Review " +:+ pretty (issues_found c) +:+ " issues in "
          +:+ check_type c +:+ " check"]
  else [].

Lemma generate_recommendations_fold (cs : list DataQualityCheck) : forall acc,
  fold_left
    (fun (recommendations : list string) (check : DataQualityCheck) =>
       let recommendations :=
         match score check with
         | Some s =>
             if Py.Qltb s (7 # 10)
             then recommendations ++
                    ["Improve " +:+ check_type check +:+ ": score is "
                       +:+ Py.format_pct 0 s]
             else recommendations
         | None => recommendations
         end in
       if bool_decide (0 < issues_found check)%nat
       then recommendations ++
              ["Review " +:+ pretty (issues_found check) +:+ " issues in "
                 +:+ check_type check +:+ " check"]
       else recommendations)
    cs acc
  = acc ++ flat_map (fun c => improve_text c ++ review_text c) cs.
Proof.
  induction cs as [|c cs IH]; intros acc; cbn [fold_left flat_map].
  - by rewrite app_nil_r.
  - rewrite IH. unfold improve_text at 2, review_text at 2.
    destruct (score c) as [s|]; [destruct (Py.Qltb s (7 # 10))|];
      destruct (bool_decide (0 < issues_found c)%nat); cbn [app];
      rewrite <- ?app_assoc; cbn [app]; rewrite ?app_nil_r; reflexivity.
Qed.

Lemma generate_recommendations_spec cs :
  _generate_recommendations cs
  = flat_map (fun c => improve_text c ++ review_text c) cs.
Proof. unfold _generate_recommendations. by rewrite generate_recommendations_fold. Qed.

Lemma improve_sublist cs :
  sublist (flat_map improve_text cs)
          (flat_map (fun c => improve_text c ++ review_text c) cs).
Proof.
  induction cs as [|c cs IH]; cbn [flat_map]; [constructor|].
  apply sublist_app; [|done]. apply sublist_inserts_r. reflexivity.
Qed.

Lemma improve_equal_iff cs :
  flat_map improve_text cs = flat_map (fun c => improve_text c ++ review_text c) cs
  <-> Forall (fun c => issues_found c = 0%nat) cs.
Proof.
  split.
  - intros Heq.
    assert (Hlen : forall l, length (flat_map (fun c => improve_text c ++ review_text c) l)
              = (length (flat_map improve_text l) + length (flat_map review_text l))%nat).
    { induction l as [|c l IHl]; [done|]. cbn [flat_map]. rewrite !length_app, IHl. lia. }
    apply (f_equal length) in Heq. rewrite Hlen in Heq.
    assert (Hz : flat_map review_text cs = []).
    { apply length_zero_iff_nil. lia. }
    clear -Hz. induction cs as [|c cs IH]; [constructor|].
    cbn [flat_map] in Hz. apply app_eq_nil in Hz as [Hc Hz].
    constructor; [|by apply IH]. unfold review_text in Hc.
    destruct (bool_decide (0 < issues_found c)%nat) eqn:E; [done|].
    apply bool_decide_eq_false_1 in E. lia.
  - induction 1 as [|c cs Hc _ IH]; [done|]. cbn [flat_map]. rewrite <- IH.
    unfold review_text. rewrite Hc. cbn. by rewrite app_nil_r.
Qed.

Lemma report_recommendations_within_generated_run (ds : DataSource) (db : @Db DF)
    (df : DF) :
  _load_data ds db = Some df ->
  exists report db',
    run_all_checks ds db = Ok report db' /\
    sublist (recommendations report) (_generate_recommendations (checks report)) /\
    (recommendations report = _generate_recommendations (checks report)
     <-> Forall (fun c => issues_found c = 0%nat) (checks report)) /\
    (forall c, c ∈ checks report -> (0 < issues_found c)%nat ->
       ("Review " +:+ pretty (issues_found c) +:+ " issues in "
          +:+ check_type c +:+ " check") ∈ _generate_recommendations (checks report)).
Proof.
  intros Hload. rewrite (run_all_checks_run ds db df Hload).
  eexists _, _. split; [reflexivity|]. cbn [recommendations checks].
  rewrite generate_recommendations_spec.
  split; [apply improve_sublist|]. split; [apply improve_equal_iff|].
  intros c Hc Hpos. apply list_elem_of_In, in_flat_map. exists c.
  split; [by apply list_elem_of_In|]. apply in_or_app. right.
  unfold review_text. rewrite bool_decide_eq_true_2 by done. by left.
Qed.

(** X30: Whenever run_all_checks returns a report for a data file that
    loads, the recommendations of the report are among those that
    _generate_recommendations derives from the same checks, in the same
    order.  The two lists are equal exactly when no check of the report
    found an issue: for every check with issues the generated list has the
    line "Review <n> issues in <type> check" in addition. *)
Theorem report_recommendations_within_generated (ds : DataSource) (db : @Db DF)
    (df : DF) (report : QualityReportResponse) (db' : @Db DF) :
  _load_data ds db = Some df ->
  run_all_checks ds db = Ok report db' ->
  sublist (recommendations report) (_generate_recommendations (checks report)) /\
  (recommendations report = _generate_recommendations (checks report)
   <-> Forall (fun c => issues_found c = 0%nat) (checks report)) /\
  (forall c, c ∈ checks report -> (0 < issues_found c)%nat ->
     ("Review " +:+ pretty (issues_found c) +:+ " issues in "
        +:+ check_type c +:+ " check") ∈ _generate_recommendations (checks report)).
Proof.
  intros Hload Hrun.
  destruct (report_recommendations_within_generated_run ds db df Hload)
    as (report0 & db0 & Hrun0 & Hthm).
  rewrite Hrun in Hrun0. by injection Hrun0 as <- <-.
Qed.

End Laws.

(** *** On the sample table *)

Lemma run_all_checks_scores_in_range_witness :
  exists report db',
    run_all_checks survey survey_db = Ok report db' /\
    check_type <$> checks report
      = ["completeness"; "consistency"; "outliers"; "disaggregation"; "duplicates"].
Proof.
  destruct (run_all_checks_scores_in_range_run survey survey_db deaths_exceed_cases
              eq_refl) as (report & db' & Hrun & _).
  destruct (run_all_checks_scores_in_range survey survey_db deaths_exceed_cases
              report db' eq_refl Hrun) as (Htypes & _).
  exists report, db'. split; [exact Hrun | exact Htypes].
Defined.

Lemma check_completeness_perfect_witness :
  exists score details,
    _check_completeness deaths_exceed_cases survey
      = (score, 0%nat, "0.0% of data cells are missing", details) /\
    score == 1.
Proof.
  destruct (check_completeness_perfect deaths_exceed_cases survey)
    as (score & details & Hrun & Hscore & _).
  - intros col Hcol. cbn in Hcol.
    apply elem_of_cons in Hcol as [->|Hcol]; [reflexivity|].
    apply list_elem_of_singleton in Hcol. subst col. reflexivity.
  - exists score, details. split; [exact Hrun | exact Hscore].
Defined.


Lemma report_recommendations_within_generated_witness :
  exists report db',
    run_all_checks survey survey_db = Ok report db' /\
    sublist (recommendations report) (_generate_recommendations (checks report)).
Proof.
  destruct (run_all_checks_scores_in_range_run survey survey_db deaths_exceed_cases
              eq_refl) as (report & db' & Hrun & _).
  destruct (report_recommendations_within_generated survey survey_db
              deaths_exceed_cases report db' eq_refl Hrun) as (Hsub & _).
  exists report, db'. split; [exact Hrun | exact Hsub].
Defined.

(** A data source whose file is not there: the stored checks of the data
    source are deleted, those of another one stay, and the report carries
    the one recommendation. *)
Example run_all_checks_missing_file :
  run_all_checks (mkDataSource 3%N "survey" (Some "gone.csv") "csv" None)
    (mkDb (DF:=Table) ∅
       [ mkDataQualityCheck 3 "duplicates" "passed" (Some 1) 0 "old" [];
         mkDataQualityCheck 4 "duplicates" "passed" (Some 1) 0 "other" [] ])
  = Ok (mkQualityReportResponse 3 "survey" None []
          ["Could not load data file for quality checks"])
       (mkDb ∅ [ mkDataQualityCheck 4 "duplicates" "passed" (Some 1) 0 "other" [] ]).
Proof. reflexivity. Qed.

End QualityLaws.
